(** * PerformanceArena: a shallow embedding of [src/PerformanceArena.ts]

    The arena is a TypeScript class whose methods mutate JavaScript objects
    in place: one record object per stage, holding an array of completed
    cycles and, for asynchronous stages, an array of pending start times.
    The embedding keeps this shape.  Objects live in a store indexed by
    locations, the fields of [this] are a record, and every method is a
    computation in a state-and-exception monad over the pair of the two.

    Modelling conventions.
    - JavaScript numbers (clock readings, counters, the capacity) are
      integers [Z]; the only falsy number is then [0].
    - [this.records] and [this.cache] are plain objects used as
      dictionaries.  Their own properties are finite maps; a read
      [this.records[name]] of a name that is not an own property goes up
      the prototype chain and finds what [Object.prototype] holds under
      that name ([getProperty]).  The assignment to the name [__proto__]
      goes through the accessor of [Object.prototype]: it replaces the
      prototype when the value is an object and does nothing otherwise.
      [Object.prototype] is taken as the language defines it, without
      properties added by the host.
    - [nowFn()] is the host clock: the reading it returns is an argument
      [perfNow] of the method that calls it.
    - An optional argument is an [option]; a [PointerEvent] is represented
      by its [timeStamp], the [init-performance-data] event by the
      truthiness of its [detail.skipRecording], if it has a [detail].
    - The purge callback is external code.  Whether one was supplied is a
      flag; each invocation is appended to the trace [purged] together with
      the location of the object it was handed.  The callback is assumed to
      return normally and not to call back into the arena.
    - [window.performanceArena = this.records] only publishes an alias of
      [this.records] and is left out. *)

From stdpp Require Import base option list gmap strings fin_maps.
From Stdlib Require Import ZArith Lia.

(** ** Data *)

Definition StageNameType := string.

(** ['sync' | 'async'] *)
Inductive StageExecutionType := sync | async.

Global Instance StageExecutionType_eq_dec : EqDecision StageExecutionType.
Proof. solve_decision. Defined.

(** [{ name: StageNameType; type?: StageExecutionType }] *)
Record StageExtenedType := {
  name : StageNameType;
  type : option StageExecutionType
}.

(** [Stage = StageNameType | StageExtenedType] *)
Inductive Stage :=
| StageName (n : StageNameType)
| StageExtened (s : StageExtenedType).

Definition loc := nat.

(** [number | Array<number>]: a number, or a reference to an array. *)
Inductive RefTime :=
| RefNumber (x : Z)
| RefArray (a : loc).

(** [StagePerfData]; [recentCycles] is a reference to an array object. *)
Record StagePerfData := {
  currentRefTime : RefTime;
  totalCycles : Z;
  recentCycles : loc
}.

(** [{ r: number; t: number }] *)
Record Cycle := { r : Z; t : Z }.

Global Instance Cycle_eq_dec : EqDecision Cycle.
Proof. solve_decision. Defined.

(** The objects the arena allocates. *)
Inductive Obj :=
| ORecord (d : StagePerfData)
| ONumbers (xs : list Z)
| OCycles (cs : list loc)
| OCycle (c : Cycle).

(** The property names of [Object.prototype], which every plain object
    inherits: its methods, [constructor] and the accessor [__proto__]. *)
Definition Object_prototype : list string :=
  ["constructor"; "hasOwnProperty"; "isPrototypeOf"; "propertyIsEnumerable";
   "toLocaleString"; "toString"; "valueOf"; "__proto__";
   "__defineGetter__"; "__defineSetter__";
   "__lookupGetter__"; "__lookupSetter__"].

Definition inherited (name : StageNameType) : bool :=
  bool_decide (name ∈ Object_prototype).

(** What a read [this.records[name]] can give. *)
Inductive Value :=
| JUndefined
| JRecord (l : loc)   (* a stage record *)
| JInherited          (* a function or an object of [Object.prototype] *)
| JNumber (x : Z)
| JArray (a : loc).

(** The values that pass [if (v)]. *)
Definition truthy (v : Value) : bool :=
  match v with
  | JUndefined => false
  | JNumber x => negb (bool_decide (x = 0%Z))
  | JRecord _ | JInherited | JArray _ => true
  end.

(** The fields of [this].  [records] and [cache] hold the own properties of
    the two objects; the entry of [records] under [__proto__], if any, is
    the record object that an assignment has made its prototype. *)
Record PerformanceArena := {
  stages : list StageExtenedType;
  records : gmap StageNameType loc;
  cache : gmap StageNameType StageExecutionType;
  skipRecording : bool;
  enableLiveDebug : bool;
  inMemCycles : Z;
  onPurgeCallback : bool
}.

Record World := {
  this : PerformanceArena;
  heap : gmap loc Obj;
  next : loc;
  purged : list (StageNameType * loc)
}.

Definition set_this (f : PerformanceArena → PerformanceArena) (w : World) : World :=
  {| this := f (this w); heap := heap w; next := next w; purged := purged w |}.

Definition set_heap (f : gmap loc Obj → gmap loc Obj) (w : World) : World :=
  {| this := this w; heap := f (heap w); next := next w; purged := purged w |}.

Definition set_skipRecording (b : bool) (p : PerformanceArena) : PerformanceArena :=
  {| stages := stages p; records := records p; cache := cache p;
     skipRecording := b; enableLiveDebug := enableLiveDebug p;
     inMemCycles := inMemCycles p; onPurgeCallback := onPurgeCallback p |}.

(** [this.cache[name] = ty]: a string assigned to [__proto__] is ignored. *)
Definition setCache (name : StageNameType) (ty : StageExecutionType)
    (c : gmap StageNameType StageExecutionType) :
    gmap StageNameType StageExecutionType :=
  if bool_decide (name = "__proto__") then c else <[name := ty]> c.

(** [this.stages.push(s); this.records[s.name] = l; this.cache[s.name] = ty] *)
Definition register (s : StageExtenedType) (l : loc) (ty : StageExecutionType)
    (p : PerformanceArena) : PerformanceArena :=
  {| stages := stages p ++ [s];
     records := <[name s := l]> (records p);
     cache := setCache (name s) ty (cache p);
     skipRecording := skipRecording p; enableLiveDebug := enableLiveDebug p;
     inMemCycles := inMemCycles p; onPurgeCallback := onPurgeCallback p |}.

Definition set_currentRefTime (x : RefTime) (d : StagePerfData) : StagePerfData :=
  {| currentRefTime := x; totalCycles := totalCycles d; recentCycles := recentCycles d |}.

Definition set_totalCycles (n : Z) (d : StagePerfData) : StagePerfData :=
  {| currentRefTime := currentRefTime d; totalCycles := n; recentCycles := recentCycles d |}.

Definition set_recentCycles (a : loc) (d : StagePerfData) : StagePerfData :=
  {| currentRefTime := currentRefTime d; totalCycles := totalCycles d; recentCycles := a |}.

(** ** The monad *)

Inductive Exn :=
| DuplicateStage (n : StageNameType) (* [throw new Error("Found duplicate ...")] *)
| TypeError   (* a property read or method call on a value that lacks it *)
| Invalid.    (* a reference or a field holds a value of a kind that the
                 TypeScript types exclude; does not arise, see [call_spec] *)

Inductive Outcome (A : Type) :=
| Return (a : A)
| Throw (e : Exn).
Arguments Return {A} a.
Arguments Throw {A} e.

(** A thrown exception keeps the mutations made before it. *)
Definition M (A : Type) : Type := World → Outcome A * World.

Definition ret {A} (a : A) : M A := λ w, (Return a, w).

Definition bind {A B} (m : M A) (k : A → M B) : M B :=
  λ w, match m w with
       | (Return a, w') => k a w'
       | (Throw e, w') => (Throw e, w')
       end.

Definition throw {A} (e : Exn) : M A := λ w, (Throw e, w).
Definition gets {A} (f : World → A) : M A := λ w, (Return (f w), w).
Definition modify (f : World → World) : M unit := λ w, (Return tt, f w).

Declare Scope arena_scope.
Delimit Scope arena_scope with arena.
Notation "'let*' x := m 'in' k" := (bind m (λ x, k))
  (at level 10, x binder, m at level 100, k at level 200) : arena_scope.
Notation "m >> k" := (bind m (λ _, k))
  (at level 90, right associativity) : arena_scope.
Local Open Scope arena_scope.

Fixpoint forEach {A} (f : A → M unit) (l : list A) : M unit :=
  match l with
  | [] => ret tt
  | x :: l' => f x >> forEach f l'
  end.

(** ** The store *)

Definition alloc (o : Obj) : M loc :=
  λ w, (Return (next w),
        {| this := this w; heap := <[next w := o]> (heap w);
           next := S (next w); purged := purged w |}).

Definition load (l : loc) : M Obj :=
  λ w, match heap w !! l with
       | Some o => (Return o, w)
       | None => (Throw Invalid, w)
       end.

Definition store (l : loc) (o : Obj) : M unit := modify (set_heap <[l := o]>).

Definition loadRecord (l : loc) : M StagePerfData :=
  let* o := load l in
  match o with ORecord d => ret d | _ => throw Invalid end.

Definition loadNumbers (a : loc) : M (list Z) :=
  let* o := load a in
  match o with ONumbers xs => ret xs | _ => throw Invalid end.

Definition loadCycles (a : loc) : M (list loc) :=
  let* o := load a in
  match o with OCycles cs => ret cs | _ => throw Invalid end.

Definition loadCycle (c : loc) : M Cycle :=
  let* o := load c in
  match o with OCycle x => ret x | _ => throw Invalid end.

(** A field assignment [record.f = v]. *)
Definition updateRecord (l : loc) (f : StagePerfData → StagePerfData) : M unit :=
  let* d := loadRecord l in store l (ORecord (f d)).

(** [Array.prototype.push] *)
Definition pushNumber (a : loc) (x : Z) : M unit :=
  let* xs := loadNumbers a in store a (ONumbers (xs ++ [x])).

Definition pushCycle (a : loc) (c : loc) : M unit :=
  let* cs := loadCycles a in store a (OCycles (cs ++ [c])).

(** [Array.prototype.shift]: [undefined] on an empty array, which it leaves
    untouched. *)
Definition shiftNumber (a : loc) : M (option Z) :=
  let* xs := loadNumbers a in
  match xs with
  | [] => ret None
  | x :: xs' => store a (ONumbers xs') >> ret (Some x)
  end.

Definition shiftCycle (a : loc) : M (option loc) :=
  let* cs := loadCycles a in
  match cs with
  | [] => ret None
  | c :: cs' => store a (OCycles cs') >> ret (Some c)
  end.

(** ** The methods of the class *)

(** [this.records[name]]: the own property or, failing that, what the
    prototype chain holds under the name.  The chain is the record object
    that an assignment to [__proto__] has made the prototype, if any, and
    then [Object.prototype]; the field names of a record are not names of
    [Object.prototype], so the order of the two tests does not matter. *)
Definition getProperty (w : World) (name : StageNameType) : Value :=
  match records (this w) !! name with
  | Some l => JRecord l
  | None =>
      if inherited name then JInherited
      else
        match records (this w) !! "__proto__" ≫= (heap w !!.) with
        | Some (ORecord d) =>
            if bool_decide (name = "currentRefTime") then
              match currentRefTime d with
              | RefNumber x => JNumber x
              | RefArray a => JArray a
              end
            else if bool_decide (name = "totalCycles") then
              JNumber (totalCycles d)
            else if bool_decide (name = "recentCycles") then
              JArray (recentCycles d)
            else JUndefined
        | _ => JUndefined
        end
  end.

(** A value that the code goes on to use as a record: a method call on a
    field of [undefined], or on a field that the value lacks, raises a
    [TypeError]. *)
Definition asRecord (v : Value) : M loc :=
  match v with JRecord l => ret l | _ => throw TypeError end.

(** [this.records[name]], used as a record. *)
Definition recordOf (name : StageNameType) : M loc :=
  let* v := gets (λ w, getProperty w name) in asRecord v.

(** [record.currentRefTime]: [undefined] on a value that has no such
    field. *)
Definition get_currentRefTime (v : Value) : M (option RefTime) :=
  match v with
  | JRecord l => let* d := loadRecord l in ret (Some (currentRefTime d))
  | _ => ret None
  end.

(** [record.currentRefTime = x].  On a value that is not a record the
    assignment would write to an object that the arena does not own; this
    does not arise, a name has a type in [this.cache] only when
    [this.records] has a record of its own under it. *)
Definition assign_currentRefTime (v : Value) (x : RefTime) : M unit :=
  match v with
  | JRecord l => updateRecord l (set_currentRefTime x)
  | _ => throw Invalid
  end.

(** [markTime]: push a fresh cycle object and bump the lifetime counter. *)
Definition markTime (name : StageNameType) (refTime totalTime : Z) : M unit :=
  let* record := recordOf name in
  let* d := loadRecord record in
  let* c := alloc (OCycle {| r := refTime; t := totalTime |}) in
  pushCycle (recentCycles d) c >>
  updateRecord record (λ d, set_totalCycles (totalCycles d + 1) d).

(** What [JSON.stringify] reads of a record: its fields, with the arrays
    they refer to written out. *)
Inductive RefView :=
| VNumber (x : Z)
| VArray (xs : list Z).

Record PerfView := {
  vCurrentRefTime : RefView;
  vTotalCycles : Z;
  vRecentCycles : list Cycle
}.

Definition viewCycle (h : gmap loc Obj) (c : loc) : option Cycle :=
  match h !! c with Some (OCycle x) => Some x | _ => None end.

Definition viewCycles (h : gmap loc Obj) (a : loc) : option (list Cycle) :=
  match h !! a with
  | Some (OCycles cs) => mapM (viewCycle h) cs
  | _ => None
  end.

Definition viewRefTime (h : gmap loc Obj) (x : RefTime) : option RefView :=
  match x with
  | RefNumber n => Some (VNumber n)
  | RefArray a =>
      match h !! a with Some (ONumbers xs) => Some (VArray xs) | _ => None end
  end.

Definition viewRecord (h : gmap loc Obj) (l : loc) : option PerfView :=
  match h !! l with
  | Some (ORecord d) =>
      match viewRefTime h (currentRefTime d), viewCycles h (recentCycles d) with
      | Some x, Some cs =>
          Some {| vCurrentRefTime := x; vTotalCycles := totalCycles d;
                  vRecentCycles := cs |}
      | _, _ => None
      end
  | _ => None
  end.

Definition JSON_stringify (l : loc) : M PerfView :=
  let* h := gets heap in
  match viewRecord h l with Some v => ret v | None => throw Invalid end.

(** [JSON.parse] builds the value out of objects of its own. *)
Fixpoint parseCycles (cs : list Cycle) : M (list loc) :=
  match cs with
  | [] => ret []
  | c :: cs' =>
      let* l := alloc (OCycle c) in
      let* ls := parseCycles cs' in
      ret (l :: ls)
  end.

Definition JSON_parse (v : PerfView) : M loc :=
  let* x := match vCurrentRefTime v with
            | VNumber n => ret (RefNumber n)
            | VArray xs => let* a := alloc (ONumbers xs) in ret (RefArray a)
            end in
  let* ls := parseCycles (vRecentCycles v) in
  let* a := alloc (OCycles ls) in
  alloc (ORecord {| currentRefTime := x; totalCycles := vTotalCycles v;
                    recentCycles := a |}).

(** [purgeArena]: the optional call evaluates its arguments only when a
    callback is there.  The method is private and follows a [markTime] on
    the same name, which has found a record there. *)
Definition purgeArena (name : StageNameType) : M unit :=
  let* cb := gets (λ w, onPurgeCallback (this w)) in
  (if cb then
     let* record := recordOf name in
     let* v := JSON_stringify record in
     let* snapshot := JSON_parse v in
     modify (λ w, {| this := this w; heap := heap w; next := next w;
                     purged := purged w ++ [(name, snapshot)] |})
   else ret tt) >>
  let* record := recordOf name in
  let* a := alloc (OCycles []) in
  updateRecord record (set_recentCycles a).

(** [this.cache[name]] is compared with ['sync'] only: the map of the own
    properties decides, whatever the name inherits. *)
Definition startStage (perfNow : Z) (name : StageNameType) : M unit :=
  let* skip := gets (λ w, skipRecording (this w)) in
  let* record := gets (λ w, getProperty w name) in
  if negb skip && truthy record then
    let* type := gets (λ w, cache (this w) !! name) in
    if decide (type = Some sync) then
      assign_currentRefTime record (RefNumber perfNow)
    else
      let* x := get_currentRefTime record in
      match x with
      | Some (RefArray a) => pushNumber a perfNow
      | Some (RefNumber _) | None => throw TypeError
      end
  else ret tt.

(** The guard [if (!currentRefTime) return] lets through a number other
    than zero and stops [undefined] and zero. *)
Definition endStage (perfNow : Z) (name : StageNameType) (event : option Z) : M unit :=
  let* skip := gets (λ w, skipRecording (this w)) in
  let* record := gets (λ w, getProperty w name) in
  if negb skip && truthy record then
    let* type := gets (λ w, cache (this w) !! name) in
    let* currentRefTime :=
      match event with
      | Some timeStamp => ret (Some timeStamp)
      | None =>
          let* x := get_currentRefTime record in
          if decide (type = Some sync) then
            match x with
            | Some (RefNumber x) => ret (Some x)
            | Some (RefArray _) => throw Invalid
            | None => ret None
            end
          else
            match x with
            | Some (RefArray a) => shiftNumber a
            | Some (RefNumber _) | None => throw TypeError
            end
      end in
    match currentRefTime with
    | None => ret tt
    | Some x =>
        if bool_decide (x = 0%Z) then ret tt
        else
          markTime name x (perfNow - x) >>
          (if bool_decide (event = None) && bool_decide (type = Some sync) then
             assign_currentRefTime record (RefNumber 0)
           else ret tt) >>
          let* live := gets (λ w, enableLiveDebug (this w)) in
          if live then
            let* l := asRecord record in
            let* d := loadRecord l in
            let* cs := loadCycles (recentCycles d) in
            let* cap := gets (λ w, inMemCycles (this w)) in
            if bool_decide (cap ≤ Z.of_nat (length cs))%Z then
              shiftCycle (recentCycles d) >> ret tt
            else ret tt
          else purgeArena name
    end
  else ret tt.

Definition getStageArena (name : StageNameType) : M Value :=
  gets (λ w, getProperty w name).

(** One round of the [forEach] in [initializePerformanceData]. *)
Definition initializeStage (forceInitialize : bool) (stage : Stage) : M unit :=
  let s := match stage with
           | StageName n => {| name := n; type := Some sync |}
           | StageExtened s => s
           end in
  let ty := default sync (type s) in
  let* found := gets (λ w, getProperty w (name s)) in
  if truthy found && negb forceInitialize then
    throw (DuplicateStage (name s))
  else
    let* x := match ty with
              | async => let* a := alloc (ONumbers []) in ret (RefArray a)
              | sync => ret (RefNumber 0)
              end in
    let* a := alloc (OCycles []) in
    let* stageRecord := alloc (ORecord {| currentRefTime := x; totalCycles := 0;
                                          recentCycles := a |}) in
    modify (set_this (register {| name := name s; type := Some ty |} stageRecord ty)).

Definition initializePerformanceData (stages : list Stage) (forceInitialize : bool) : M unit :=
  forEach (initializeStage forceInitialize) stages.

(** The constructor.  [!!x] of an optional boolean; [inMemCycles || 250]. *)
Definition constructor (stages : list Stage) (skipRecording : option bool)
    (inMemCycles : option Z) (enableLiveDebug : option bool)
    (onPurgeCallback : bool) : Outcome unit * World :=
  let live := default false enableLiveDebug in
  initializePerformanceData stages false
    {| this := {| stages := []; records := ∅; cache := ∅;
                  skipRecording := default false skipRecording;
                  enableLiveDebug := live;
                  inMemCycles :=
                    if live then
                      match inMemCycles with
                      | Some n => if bool_decide (n = 0%Z) then 250%Z else n
                      | None => 250%Z
                      end
                    else 1%Z;
                  onPurgeCallback := onPurgeCallback |};
       heap := ∅; next := 0; purged := [] |}.

(** The two listeners of [listenForEventsPerformanceData]; they are
    installed only when [enableLiveDebug] holds, a field that never
    changes after construction.  [forEach] visits the elements the array
    had when the call began, so pushing to [this.stages] meanwhile does not
    extend the loop. *)
Definition on_reset_performance_data : M unit :=
  let* live := gets (λ w, enableLiveDebug (this w)) in
  if live then
    let* sts := gets (λ w, stages (this w)) in
    initializePerformanceData (StageExtened <$> sts) true
  else ret tt.

(** [this.skipRecording = e.detail.skipRecording]: an event without
    [detail] makes the listener raise. *)
Definition on_init_performance_data (detail : option bool) : M unit :=
  let* live := gets (λ w, enableLiveDebug (this w)) in
  if live then
    match detail with
    | Some skip => modify (set_this (set_skipRecording skip))
    | None => throw TypeError
    end
  else ret tt.

(** ** Observations and the well-formedness of reachable worlds *)

(** What an inspector sees of the stage registered under a name: the
    record [getStageArena] returns, with a read of every field. *)
Definition stageView (name : StageNameType) (w : World) : option PerfView :=
  records (this w) !! name ≫= viewRecord (heap w).

(** The locations a record object reaches. *)
Definition footprint (h : gmap loc Obj) (l : loc) : gset loc :=
  match h !! l with
  | Some (ORecord d) =>
      {[l]} ∪ {[recentCycles d]}
      ∪ match currentRefTime d with RefArray a => {[a]} | RefNumber _ => ∅ end
      ∪ match h !! recentCycles d with
        | Some (OCycles cs) => list_to_set cs
        | _ => ∅
        end
  | _ => {[l]}
  end.

(** The pending reference has the shape the stage's execution type asks for. *)
Definition shaped (ty : StageExecutionType) (v : PerfView) : Prop :=
  match ty, vCurrentRefTime v with
  | sync, VNumber _ => True
  | async, VArray _ => True
  | _, _ => False
  end.

Record wf (w : World) : Prop := {
  wf_stage : ∀ n l, records (this w) !! n = Some l →
      ∃ ty v, cache (this w) !! n = Some ty ∧ viewRecord (heap w) l = Some v
              ∧ shaped ty v;
  wf_fresh : ∀ l, is_Some (heap w !! l) → l < next w;
  wf_sep : ∀ n1 n2 l1 l2, n1 ≠ n2 →
      records (this w) !! n1 = Some l1 → records (this w) !! n2 = Some l2 →
      footprint (heap w) l1 ## footprint (heap w) l2;
  wf_stages : ∀ n, is_Some (records (this w) !! n) ↔ n ∈ name <$> stages (this w);
  wf_own : ∀ n, is_Some (records (this w) !! n) → inherited n = false;
  wf_cache : ∀ n, is_Some (cache (this w) !! n) → is_Some (records (this w) !! n)
}.

(** A sequence of calls made on an arena by its host. *)
Inductive Call :=
| CStart (perfNow : Z) (name : StageNameType)
| CEnd (perfNow : Z) (name : StageNameType) (event : option Z)
| CGet (name : StageNameType)
| CReset
| CInit (detail : option bool).

Definition call (c : Call) : M unit :=
  match c with
  | CStart perfNow name => startStage perfNow name
  | CEnd perfNow name event => endStage perfNow name event
  | CGet name => getStageArena name >> ret tt
  | CReset => on_reset_performance_data
  | CInit detail => on_init_performance_data detail
  end.

Definition run (cs : list Call) : M unit := forEach call cs.

(** [w] is the world after a successful construction and the calls [cs]. *)
Definition reached (sts : list Stage) (skip : option bool) (cap : option Z)
    (live : option bool) (cb : bool) (cs : list Call) (w : World) : Prop :=
  ∃ w0, constructor sts skip cap live cb = (Return tt, w0)
        ∧ run cs w0 = (Return tt, w).

(** [effect n l w w' v']: going from [w] to [w'] touched nothing but the
    objects of stage [n], whose record is at [l], and fresh locations, and
    the stage now reads as [v']. *)
Record effect (n : StageNameType) (l : loc) (w w' : World) (v' : PerfView) : Prop := {
  eff_wf : wf w';
  eff_this : this w' = this w;
  eff_next : next w ≤ next w';
  eff_view : viewRecord (heap w') l = Some v';
  eff_frame : ∀ x, x < next w → x ∉ footprint (heap w) l →
      heap w' !! x = heap w !! x;
  eff_fp : ∀ x, x ∈ footprint (heap w') l →
      x ∈ footprint (heap w) l ∨ next w ≤ x
}.

Definition with_ref (x : RefView) (v : PerfView) : PerfView :=
  {| vCurrentRefTime := x; vTotalCycles := vTotalCycles v;
     vRecentCycles := vRecentCycles v |}.

Definition with_recent (cs : list Cycle) (v : PerfView) : PerfView :=
  {| vCurrentRefTime := vCurrentRefTime v; vTotalCycles := vTotalCycles v;
     vRecentCycles := cs |}.

(** The view after [markTime]. *)
Definition marked (c : Cycle) (v : PerfView) : PerfView :=
  {| vCurrentRefTime := vCurrentRefTime v; vTotalCycles := vTotalCycles v + 1;
     vRecentCycles := vRecentCycles v ++ [c] |}.

(** *** How a stage reads after a call

    The functions below say, on what an inspector reads of a stage, what
    [startStage] and [endStage] do to it; [startStage_spec] and
    [endStage_spec] prove that the methods act so. *)

Definition started (ty : StageExecutionType) (perfNow : Z) (v : PerfView) : PerfView :=
  match ty, vCurrentRefTime v with
  | async, VArray xs => with_ref (VArray (xs ++ [perfNow])) v
  | _, _ => with_ref (VNumber perfNow) v
  end.

(** The reference time [endStage] settles on, if any. *)
Definition resolved (event : option Z) (v : PerfView) : option Z :=
  match event with
  | Some timeStamp => Some timeStamp
  | None =>
      match vCurrentRefTime v with
      | VNumber x => Some x
      | VArray xs => head xs
      end
  end.

(** The stage once [shift] has run, when it runs. *)
Definition dequeued (event : option Z) (v : PerfView) : PerfView :=
  match event, vCurrentRefTime v with
  | None, VArray (_ :: xs) => with_ref (VArray xs) v
  | _, _ => v
  end.

(** The cycle [endStage] records, if it gets past its guard. *)
Definition cycleOf (perfNow : Z) (event : option Z) (v : PerfView) : option Cycle :=
  match resolved event v with
  | Some x => if bool_decide (x = 0%Z) then None
              else Some {| r := x; t := (perfNow - x)%Z |}
  | None => None
  end.

(** The stage after [markTime] and the reset of the sync slot. *)
Definition closed (ty : StageExecutionType) (event : option Z) (c : Cycle)
    (v : PerfView) : PerfView :=
  match event, ty with
  | None, sync => with_ref (VNumber 0) (marked c (dequeued event v))
  | _, _ => marked c (dequeued event v)
  end.

(** The test [recentCycles.length >= inMemCycles] and the [shift]. *)
Definition evict (cap : Z) (cs : list Cycle) : list Cycle :=
  if bool_decide (cap ≤ Z.of_nat (length cs))%Z then tail cs else cs.

(** The stage after the last [if] of [endStage]. *)
Definition retained (live : bool) (cap : Z) (v : PerfView) : PerfView :=
  with_recent (if live then evict cap (vRecentCycles v) else []) v.

(** A stage as [initializePerformanceData] leaves it. *)
Definition freshView (ty : StageExecutionType) : PerfView :=
  {| vCurrentRefTime := match ty with sync => VNumber 0 | async => VArray [] end;
     vTotalCycles := 0;
     vRecentCycles := [] |}.

Definition stageName (s : Stage) : StageNameType :=
  match s with StageName n => n | StageExtened s => name s end.

Definition stageType (s : Stage) : StageExecutionType :=
  match s with StageName _ => sync | StageExtened s => default sync (type s) end.

(** The fields of [this] that no method assigns after construction. *)
Definition static (w w' : World) : Prop :=
  enableLiveDebug (this w') = enableLiveDebug (this w)
  ∧ inMemCycles (this w') = inMemCycles (this w)
  ∧ onPurgeCallback (this w') = onPurgeCallback (this w).

(** A call that leaves stage [n] alone. *)
Definition untouched (w : World) (n : StageNameType) (c : Call) : Prop :=
  match c with
  | CStart _ m | CEnd _ m _ => m ≠ n ∨ skipRecording (this w) = true
  | CReset => enableLiveDebug (this w) = false
  | CGet _ | CInit _ => True
  end.

(** [stageStep w n ty v c v']: a stage of execution type [ty] that reads
    as [v] in the world [w] reads as [v'] once the call [c] has returned. *)
Inductive stageStep (w : World) (n : StageNameType) (ty : StageExecutionType)
    (v : PerfView) : Call → PerfView → Prop :=
| step_start perfNow :
    skipRecording (this w) = false →
    stageStep w n ty v (CStart perfNow n) (started ty perfNow v)
| step_end_unmatched perfNow event :
    skipRecording (this w) = false →
    cycleOf perfNow event v = None →
    stageStep w n ty v (CEnd perfNow n event) (dequeued event v)
| step_end_cycle perfNow event c :
    skipRecording (this w) = false →
    cycleOf perfNow event v = Some c →
    stageStep w n ty v (CEnd perfNow n event)
      (retained (enableLiveDebug (this w)) (inMemCycles (this w)) (closed ty event c v))
| step_reset ty' :
    enableLiveDebug (this w) = true →
    stageStep w n ty v CReset (freshView ty')
| step_untouched c :
    untouched w n c →
    stageStep w n ty v c v.

(** Whether [endStage] gets to [markTime] for stage [n]. *)
Definition completes (w : World) (perfNow : Z) (n : StageNameType)
    (event : option Z) : bool :=
  negb (skipRecording (this w))
  && match stageView n w with
     | Some v => bool_decide (is_Some (cycleOf perfNow event v))
     | None => false
     end.

(** *** The lifetime counter, counted on the calls

    The state of one stage as the specification describes it: the starts
    that wait for their end, the cycles counted so far, and whether
    recording is on.  It is computed from the calls alone. *)
Record Tally := {
  pendingStarts : nat;
  counted : Z;
  recording : bool
}.

(** A start: a sync stage has one slot, an async stage a queue. *)
Definition tallyStart (ty : StageExecutionType) (t : Tally) : Tally :=
  {| pendingStarts := match ty with sync => 1 | async => S (pendingStarts t) end;
     counted := counted t; recording := recording t |}.

(** An end that closes the oldest pending start, if there is one. *)
Definition tallyEnd (t : Tally) : Tally :=
  match pendingStarts t with
  | 0 => t
  | S k => {| pendingStarts := k; counted := (counted t + 1)%Z;
              recording := recording t |}
  end.

(** A cycle that closes no start. *)
Definition tallyEvent (t : Tally) : Tally :=
  {| pendingStarts := pendingStarts t; counted := (counted t + 1)%Z;
     recording := recording t |}.

Definition tallyReset (t : Tally) : Tally :=
  {| pendingStarts := 0; counted := 0; recording := recording t |}.

Definition tallyInit (skip : bool) (t : Tally) : Tally :=
  {| pendingStarts := pendingStarts t; counted := counted t;
     recording := negb skip |}.

(** One call as the specification counts it: every end closes the oldest
    pending start, whether it comes with an external timestamp or not. *)
Definition pairStep (ty : StageExecutionType) (live : bool) (n : StageNameType)
    (t : Tally) (c : Call) : Tally :=
  match c with
  | CStart _ m => if bool_decide (m = n) && recording t then tallyStart ty t else t
  | CEnd _ m _ => if bool_decide (m = n) && recording t then tallyEnd t else t
  | CReset => if live then tallyReset t else t
  | CInit (Some skip) => if live then tallyInit skip t else t
  | CGet _ | CInit None => t
  end.

(** One call as the code counts it: an end with an event is a cycle of its
    own and leaves the pending starts alone. *)
Definition cycleStep (ty : StageExecutionType) (live : bool) (n : StageNameType)
    (t : Tally) (c : Call) : Tally :=
  match c with
  | CEnd _ m (Some _) => if bool_decide (m = n) && recording t then tallyEvent t else t
  | _ => pairStep ty live n t c
  end.

(** The tally of a stage when the constructor returns. *)
Definition tally0 (skip : option bool) : Tally :=
  {| pendingStarts := 0; counted := 0; recording := negb (default false skip) |}.

(** The completed start/end pairs of stage [n] among the calls [cs] since
    the last reset, as the specification counts them. *)
Definition pairs (ty : StageExecutionType) (live : bool) (n : StageNameType)
    (skip : option bool) (cs : list Call) : Z :=
  counted (foldl (pairStep ty live n) (tally0 skip) cs).

(** The same count with the ends that carry an event taken as cycles of
    their own. *)
Definition cycles (ty : StageExecutionType) (live : bool) (n : StageNameType)
    (skip : option bool) (cs : list Call) : Z :=
  counted (foldl (cycleStep ty live n) (tally0 skip) cs).

(** A call whose reference time, if it brings one, is not zero. *)
Definition nonzero (c : Call) : Prop :=
  match c with
  | CStart perfNow _ => perfNow ≠ 0%Z
  | CEnd _ _ (Some timeStamp) => timeStamp ≠ 0%Z
  | _ => True
  end.

(** A call that is not an [endStage] with an event. *)
Definition eventless (c : Call) : Prop :=
  match c with
  | CEnd _ _ (Some _) => False
  | _ => True
  end.

(** The tally [t] agrees with what stage [n] holds in the world [w]. *)
Definition linked (ty : StageExecutionType) (w : World) (n : StageNameType)
    (t : Tally) : Prop :=
  ∃ v, stageView n w = Some v
    ∧ cache (this w) !! n = Some ty
    ∧ shaped ty v
    ∧ recording t = negb (skipRecording (this w))
    ∧ counted t = vTotalCycles v
    ∧ match vCurrentRefTime v with
      | VNumber z => pendingStarts t = if bool_decide (z = 0%Z) then 0 else 1
      | VArray q => pendingStarts t = length q ∧ Forall (λ x, x ≠ 0%Z) q
      end.

(** No start is waiting for its end: the sync slot holds zero, the async
    queue is empty. *)
Definition idle (v : PerfView) : Prop :=
  vCurrentRefTime v = VNumber 0 ∨ vCurrentRefTime v = VArray [].

(** The calls that are to change nothing: the name is neither that of a
    stage nor one of [Object.prototype], recording is off, or an [endStage]
    without event finds no pending reference. *)
Definition inert (w : World) (c : Call) : Prop :=
  match c with
  | CStart _ n =>
      (records (this w) !! n = None ∧ inherited n = false)
      ∨ skipRecording (this w) = true
  | CEnd _ n event =>
      (records (this w) !! n = None ∧ inherited n = false)
      ∨ skipRecording (this w) = true
      ∨ (event = None ∧ ∃ v, stageView n w = Some v ∧ idle v)
  | _ => False
  end.

(** The calls of the instrumented code, as opposed to the two events. *)
Definition probe (c : Call) : Prop :=
  match c with
  | CStart _ _ | CEnd _ _ _ | CGet _ => True
  | CReset | CInit _ => False
  end.

(** The number of reset events among the calls. *)
Fixpoint resets (cs : list Call) : nat :=
  match cs with
  | [] => 0
  | CReset :: cs' => S (resets cs')
  | _ :: cs' => resets cs'
  end.

(** Each entry of [this.stages] carries the type its name has in
    [this.cache]. *)
Definition typed (w : World) : Prop :=
  ∀ s, s ∈ stages (this w) → cache (this w) !! name s = type s.

(** The cycles of stage [n] recorded by the calls [cs] made from [w] on,
    oldest first, after those of [acc]; an effective reset forgets them. *)
Fixpoint history (n : StageNameType) (cs : list Call) (w : World)
    (acc : list Cycle) : list Cycle :=
  match cs with
  | [] => acc
  | c :: cs' =>
      history n cs' (snd (call c w))
        match c with
        | CEnd perfNow m event =>
            if bool_decide (m = n) && negb (skipRecording (this w)) then
              match stageView n w ≫= cycleOf perfNow event with
              | Some x => acc ++ [x]
              | None => acc
              end
            else acc
        | CReset => if enableLiveDebug (this w) then [] else acc
        | _ => acc
        end
  end.

(** The last [k] elements of a list. *)
Definition lastn {A} (k : nat) (l : list A) : list A := drop (length l - k) l.

(** A location that some registered record reaches. *)
Definition liveLoc (w : World) (x : loc) : Prop :=
  ∃ n l, records (this w) !! n = Some l ∧ x ∈ footprint (heap w) l.

(** Every snapshot handed to the callback is readable and reaches no
    location that a registered record reaches. *)
Definition sealed (w : World) : Prop :=
  ∀ n s, (n, s) ∈ purged w →
    ∃ v, viewRecord (heap w) s = Some v
         ∧ ∀ x, x ∈ footprint (heap w) s → ¬ liveLoc w x.

(** The names a list of stages may carry for the registration to keep the
    arena well formed: without force the duplicate test sees to it. *)
Definition admissible (force : bool) (sts : list Stage) : Prop :=
  force = false ∨ Forall (λ s, inherited (stageName s) = false) sts.

(** Every object of the store is below the allocator. *)
Definition bounded (w : World) : Prop :=
  ∀ x, is_Some (heap w !! x) → x < next w.

(** The calls that raise, on an arena reached from its constructor: a
    start or an end on a name of [Object.prototype] while recording is on,
    but for an end with an event stamped zero, and an init event without
    [detail] where the listener is installed. *)
Definition raises (w : World) (c : Call) : bool :=
  match c with
  | CStart _ n => negb (skipRecording (this w)) && inherited n
  | CEnd _ n event =>
      negb (skipRecording (this w)) && inherited n
      && negb (bool_decide (event = Some 0%Z))
  | CInit None => enableLiveDebug (this w)
  | CGet _ | CReset | CInit (Some _) => false
  end.


(** ** Store lemmas *)

Lemma bind_unfold {A B} (m : M A) (k : A → M B) w :
  bind m k w = match m w with
               | (Return a, w') => k a w'
               | (Throw e, w') => (Throw e, w')
               end.
Proof. reflexivity. Qed.

Lemma mapM_viewCycle_agree (h h' : gmap loc Obj) (cs : list loc) :
  (∀ c, c ∈ cs → h' !! c = h !! c) →
  mapM (viewCycle h') cs = mapM (viewCycle h) cs.
Proof.
  induction cs as [|c cs IH]; intros Hag; [done|].
  cbn. assert (viewCycle h' c = viewCycle h c) as ->.
  { unfold viewCycle. rewrite Hag; [done|]. set_solver. }
  rewrite IH; [done|]. intros c' Hc'. apply Hag. set_solver.
Qed.

Lemma viewRecord_agree (h h' : gmap loc Obj) l v :
  viewRecord h l = Some v →
  (∀ x, x ∈ footprint h l → h' !! x = h !! x) →
  viewRecord h' l = Some v ∧ footprint h' l = footprint h l.
Proof.
  unfold viewRecord, footprint. intros Hv Hag.
  destruct (h !! l) as [[d| | |]|] eqn:Hl; try done.
  rewrite (Hag l) by set_solver. rewrite Hl.
  destruct (viewRefTime h (currentRefTime d)) as [x|] eqn:Hx; [|done].
  destruct (viewCycles h (recentCycles d)) as [cs|] eqn:Hcs; [|done].
  unfold viewCycles in Hcs.
  destruct (h !! recentCycles d) as [[| |ls|]|] eqn:Hrc; try done.
  assert (h' !! recentCycles d = Some (OCycles ls)) as Hrc'.
  { rewrite Hag; [done|]. set_solver. }
  assert (viewRefTime h' (currentRefTime d) = Some x) as ->.
  { unfold viewRefTime in *. destruct (currentRefTime d) as [|a]; [done|].
    rewrite Hag; [done|]. set_solver. }
  unfold viewCycles. rewrite Hrc'.
  rewrite (mapM_viewCycle_agree h h' ls), Hcs; [done|].
  intros c Hc. apply Hag. set_solver.
Qed.

Lemma viewRecord_inv (h : gmap loc Obj) l v :
  viewRecord h l = Some v →
  ∃ d ls, h !! l = Some (ORecord d)
          ∧ viewRefTime h (currentRefTime d) = Some (vCurrentRefTime v)
          ∧ vTotalCycles v = totalCycles d
          ∧ h !! recentCycles d = Some (OCycles ls)
          ∧ mapM (viewCycle h) ls = Some (vRecentCycles v).
Proof.
  unfold viewRecord. intros Hv.
  destruct (h !! l) as [[d| | |]|] eqn:Hl; try done.
  destruct (viewRefTime h (currentRefTime d)) as [x|] eqn:Hx; [|done].
  destruct (viewCycles h (recentCycles d)) as [cs|] eqn:Hcs; [|done].
  unfold viewCycles in Hcs.
  destruct (h !! recentCycles d) as [[| |ls|]|] eqn:Hrc; try done.
  injection Hv as <-. by exists d, ls.
Qed.

Lemma viewRecord_intro (h : gmap loc Obj) l d ls x cs :
  h !! l = Some (ORecord d) →
  viewRefTime h (currentRefTime d) = Some x →
  h !! recentCycles d = Some (OCycles ls) →
  mapM (viewCycle h) ls = Some cs →
  viewRecord h l = Some {| vCurrentRefTime := x; vTotalCycles := totalCycles d;
                           vRecentCycles := cs |}.
Proof.
  intros Hl Hx Hrc Hcs. unfold viewRecord, viewCycles.
  by rewrite Hl, Hx, Hrc, Hcs.
Qed.

Lemma viewCycle_Some (h : gmap loc Obj) c x :
  viewCycle h c = Some x ↔ h !! c = Some (OCycle x).
Proof.
  unfold viewCycle. destruct (h !! c) as [[| | |y]|]; split; intros H;
    try done; by simplify_eq.
Qed.

(** Every location a viewable record reaches holds an object. *)
Lemma footprint_allocated (h : gmap loc Obj) l v x :
  viewRecord h l = Some v → x ∈ footprint h l → is_Some (h !! x).
Proof.
  intros Hv Hx. destruct (viewRecord_inv _ _ _ Hv) as (d & ls & Hl & Href & _ & Hrc & Hcs).
  unfold footprint in Hx. rewrite Hl, Hrc in Hx.
  apply elem_of_union in Hx as [Hx|Hx]; [apply elem_of_union in Hx as [Hx|Hx]|].
  - apply elem_of_union in Hx as [Hx|Hx]; apply elem_of_singleton in Hx; subst; eauto.
  - unfold viewRefTime in Href. destruct (currentRefTime d) as [|a]; [set_solver|].
    apply elem_of_singleton in Hx; subst.
    destruct (h !! a) as [o|]; [eauto|done].
  - apply elem_of_list_to_set in Hx.
    apply mapM_Some in Hcs.
    apply list_elem_of_lookup in Hx as [i Hi].
    destruct (Forall2_lookup_l _ _ _ i x Hcs Hi) as (y & _ & Hy).
    apply viewCycle_Some in Hy. eauto.
Qed.

(** A change of the store confined to one stage's objects and to fresh
    locations keeps the world well formed and leaves every other stage as
    it was. *)
Lemma wf_update (w w' : World) n l ty v' :
  wf w →
  records (this w) !! n = Some l →
  cache (this w) !! n = Some ty →
  this w' = this w →
  next w ≤ next w' →
  (∀ x, is_Some (heap w' !! x) → x < next w') →
  (∀ x, x < next w → x ∉ footprint (heap w) l → heap w' !! x = heap w !! x) →
  (∀ x, x ∈ footprint (heap w') l → x ∈ footprint (heap w) l ∨ next w ≤ x) →
  viewRecord (heap w') l = Some v' →
  shaped ty v' →
  wf w' ∧ (∀ n', n' ≠ n → stageView n' w' = stageView n' w).
Proof.
  intros Hwf Hl Hty Hthis Hnext Hfresh Hframe Hfp Hv' Hsh.
  assert (∀ n' l', n' ≠ n → records (this w) !! n' = Some l' →
            viewRecord (heap w') l' = viewRecord (heap w) l'
            ∧ footprint (heap w') l' = footprint (heap w) l') as Hother.
  { intros n' l' Hne Hl'.
    destruct (wf_stage w Hwf n' l' Hl') as (ty' & v & _ & Hv & _).
    rewrite Hv. apply viewRecord_agree; [done|].
    intros x Hx. apply Hframe.
    - apply (wf_fresh w Hwf). by eapply footprint_allocated.
    - pose proof (wf_sep w Hwf n' n l' l Hne Hl' Hl). set_solver. }
  split; [split|].
  - intros n' l'. rewrite Hthis. intros Hl'.
    destruct (decide (n' = n)) as [->|Hne].
    + simplify_eq. exists ty, v'. done.
    + destruct (wf_stage w Hwf n' l' Hl') as (ty' & v & Hc & Hv & Hs).
      exists ty', v. split; [done|]. split; [|done].
      by rewrite (proj1 (Hother n' l' Hne Hl')).
  - done.
  - intros n1 n2 l1 l2 Hne. rewrite Hthis. intros Hl1 Hl2.
    assert (∀ m lm, m ≠ n → records (this w) !! m = Some lm →
              footprint (heap w') l ## footprint (heap w) lm) as Hdisj.
    { intros m lm Hm Hlm x Hx1 Hx2.
      destruct (wf_stage w Hwf m lm Hlm) as (? & vm & _ & Hvm & _).
      pose proof (wf_fresh w Hwf x (footprint_allocated _ _ _ _ Hvm Hx2)).
      destruct (Hfp x Hx1) as [Hx|Hx]; [|lia].
      pose proof (wf_sep w Hwf n m l lm (not_eq_sym Hm) Hl Hlm). set_solver. }
    destruct (decide (n1 = n)) as [->|Hne1]; destruct (decide (n2 = n)) as [->|Hne2].
    + done.
    + simplify_eq. rewrite (proj2 (Hother n2 l2 Hne2 Hl2)).
      exact (Hdisj n2 l2 Hne2 Hl2).
    + simplify_eq. rewrite (proj2 (Hother n1 l1 Hne1 Hl1)).
      symmetry. exact (Hdisj n1 l1 Hne1 Hl1).
    + rewrite (proj2 (Hother n1 l1 Hne1 Hl1)), (proj2 (Hother n2 l2 Hne2 Hl2)).
      exact (wf_sep w Hwf n1 n2 l1 l2 Hne Hl1 Hl2).
  - intros n'. rewrite Hthis. apply (wf_stages w Hwf).
  - intros n'. rewrite Hthis. apply (wf_own w Hwf).
  - intros n'. rewrite Hthis. apply (wf_cache w Hwf).
  - intros n' Hne. unfold stageView. rewrite Hthis.
    destruct (records (this w) !! n') as [l'|] eqn:Hl'; [|done]. cbn.
    apply (Hother n' l' Hne Hl').
Qed.

Lemma load_eq w l o : heap w !! l = Some o → load l w = (Return o, w).
Proof. unfold load. by intros ->. Qed.

Lemma loadRecord_eq w l d :
  heap w !! l = Some (ORecord d) → loadRecord l w = (Return d, w).
Proof. intros H. unfold loadRecord. by rewrite bind_unfold, (load_eq _ _ _ H). Qed.

Lemma loadNumbers_eq w a xs :
  heap w !! a = Some (ONumbers xs) → loadNumbers a w = (Return xs, w).
Proof. intros H. unfold loadNumbers. by rewrite bind_unfold, (load_eq _ _ _ H). Qed.

Lemma loadCycles_eq w a cs :
  heap w !! a = Some (OCycles cs) → loadCycles a w = (Return cs, w).
Proof. intros H. unfold loadCycles. by rewrite bind_unfold, (load_eq _ _ _ H). Qed.

Lemma updateRecord_eq w l d f :
  heap w !! l = Some (ORecord d) →
  updateRecord l f w = (Return tt, set_heap <[l := ORecord (f d)]> w).
Proof. intros H. unfold updateRecord. by rewrite bind_unfold, (loadRecord_eq _ _ _ H). Qed.

Lemma pushNumber_eq w a xs x :
  heap w !! a = Some (ONumbers xs) →
  pushNumber a x w = (Return tt, set_heap <[a := ONumbers (xs ++ [x])]> w).
Proof. intros H. unfold pushNumber. by rewrite bind_unfold, (loadNumbers_eq _ _ _ H). Qed.

Lemma pushCycle_eq w a cs c :
  heap w !! a = Some (OCycles cs) →
  pushCycle a c w = (Return tt, set_heap <[a := OCycles (cs ++ [c])]> w).
Proof. intros H. unfold pushCycle. by rewrite bind_unfold, (loadCycles_eq _ _ _ H). Qed.

Lemma shiftNumber_nil w a :
  heap w !! a = Some (ONumbers []) → shiftNumber a w = (Return None, w).
Proof. intros H. unfold shiftNumber. by rewrite bind_unfold, (loadNumbers_eq _ _ _ H). Qed.

Lemma shiftNumber_cons w a x xs :
  heap w !! a = Some (ONumbers (x :: xs)) →
  shiftNumber a w = (Return (Some x), set_heap <[a := ONumbers xs]> w).
Proof. intros H. unfold shiftNumber. by rewrite bind_unfold, (loadNumbers_eq _ _ _ H). Qed.

Lemma shiftCycle_cons w a c cs :
  heap w !! a = Some (OCycles (c :: cs)) →
  shiftCycle a w = (Return (Some c), set_heap <[a := OCycles cs]> w).
Proof. intros H. unfold shiftCycle. by rewrite bind_unfold, (loadCycles_eq _ _ _ H). Qed.

Lemma shiftCycle_nil w a :
  heap w !! a = Some (OCycles []) → shiftCycle a w = (Return None, w).
Proof. intros H. unfold shiftCycle. by rewrite bind_unfold, (loadCycles_eq _ _ _ H). Qed.

(** Effects compose. *)
Lemma effect_refl w n l v :
  wf w → viewRecord (heap w) l = Some v → effect n l w w v.
Proof. intros Hwf Hv. split; auto. Qed.

Lemma effect_trans n l w w' w'' v' v'' :
  effect n l w w' v' → effect n l w' w'' v'' → effect n l w w'' v''.
Proof.
  intros [Hwf1 Ht1 Hn1 Hv1 Hf1 Hp1] [Hwf2 Ht2 Hn2 Hv2 Hf2 Hp2]. split.
  - done.
  - congruence.
  - lia.
  - done.
  - intros x Hx Hnot. rewrite Hf2, Hf1; [done..|lia|].
    intros Hin. destruct (Hp1 x Hin); [done|lia].
  - intros x Hx. destruct (Hp2 x Hx) as [Hin|Hge]; [|right; lia].
    apply Hp1 in Hin. destruct Hin; [by left|right; lia].
Qed.

Lemma lookup_insert_other (h : gmap loc Obj) y z o o1 o2 :
  h !! y = o1 → h !! z = Some o2 → o1 ≠ Some o2 → <[y := o]> h !! z = Some o2.
Proof.
  intros Hy Hz Hne. rewrite lookup_insert_ne; [done|]. intros ->. congruence.
Qed.

Lemma mapM_viewCycle_insert (h : gmap loc Obj) y o ls cs :
  mapM (viewCycle h) ls = Some cs →
  (∀ c, h !! y ≠ Some (OCycle c)) →
  mapM (viewCycle (<[y := o]> h)) ls = Some cs.
Proof.
  intros Hcs Hy. rewrite <- Hcs. apply mapM_viewCycle_agree.
  intros c Hc. apply lookup_insert_ne. intros ->.
  apply mapM_Some in Hcs. apply list_elem_of_lookup in Hc as [i Hi].
  destruct (Forall2_lookup_l _ _ _ i c Hcs Hi) as (x & _ & Hx).
  apply viewCycle_Some in Hx. by eapply Hy.
Qed.

Lemma effect_intro (w w' : World) n l ty v' :
  wf w →
  records (this w) !! n = Some l →
  cache (this w) !! n = Some ty →
  this w' = this w →
  next w ≤ next w' →
  (∀ x, is_Some (heap w' !! x) → x < next w') →
  (∀ x, x < next w → x ∉ footprint (heap w) l → heap w' !! x = heap w !! x) →
  (∀ x, x ∈ footprint (heap w') l → x ∈ footprint (heap w) l ∨ next w ≤ x) →
  viewRecord (heap w') l = Some v' →
  shaped ty v' →
  effect n l w w' v'.
Proof.
  intros. split; try done. by eapply wf_update.
Qed.

(** Writing into an object of the stage, with nothing allocated. *)
Lemma effect_store (w : World) n l ty v v' y o :
  wf w →
  records (this w) !! n = Some l →
  cache (this w) !! n = Some ty →
  viewRecord (heap w) l = Some v →
  y ∈ footprint (heap w) l →
  footprint (<[y := o]> (heap w)) l ⊆ footprint (heap w) l →
  viewRecord (<[y := o]> (heap w)) l = Some v' →
  shaped ty v' →
  effect n l w (set_heap <[y := o]> w) v'.
Proof.
  intros Hwf Hl Hty Hv Hy Hfp Hv' Hsh.
  eapply effect_intro; try done; cbn.
  - intros x [o' Hx]. apply (wf_fresh w Hwf).
    destruct (decide (x = y)) as [->|Hne].
    + by eapply footprint_allocated.
    + rewrite lookup_insert_ne in Hx by done. eauto.
  - intros x _ Hx. apply lookup_insert_ne. intros ->. done.
  - intros x Hx. left. by apply Hfp.
Qed.

Lemma footprint_record (h : gmap loc Obj) l d :
  h !! l = Some (ORecord d) →
  footprint h l =
    {[l]} ∪ {[recentCycles d]}
    ∪ match currentRefTime d with RefArray a => {[a]} | RefNumber _ => ∅ end
    ∪ match h !! recentCycles d with
      | Some (OCycles cs) => list_to_set cs
      | _ => ∅
      end.
Proof. unfold footprint. by intros ->. Qed.

Lemma record_replace (h : gmap loc Obj) l d d' v x' :
  viewRecord h l = Some v →
  h !! l = Some (ORecord d) →
  recentCycles d' = recentCycles d →
  (currentRefTime d' = currentRefTime d ∨ ∃ z, currentRefTime d' = RefNumber z) →
  viewRefTime h (currentRefTime d') = Some x' →
  viewRecord (<[l := ORecord d']> h) l
    = Some {| vCurrentRefTime := x'; vTotalCycles := totalCycles d';
              vRecentCycles := vRecentCycles v |}
  ∧ footprint (<[l := ORecord d']> h) l ⊆ footprint h l.
Proof.
  intros Hv Hl Hrc Href Hx'.
  destruct (viewRecord_inv _ _ _ Hv) as (d0 & ls & Hl0 & Hx & Ht & Hls & Hcs).
  assert (d0 = d) as -> by congruence.
  assert (<[l := ORecord d']> h !! recentCycles d' = Some (OCycles ls)) as Hls'.
  { rewrite Hrc. eapply lookup_insert_other; [exact Hl|done|done]. }
  split.
  - apply viewRecord_intro with (ls := ls).
    + apply lookup_insert_eq.
    + unfold viewRefTime in *. destruct (currentRefTime d') as [z|a]; [done|].
      destruct (h !! a) as [[| | |]|] eqn:Ha; try done.
      by rewrite (lookup_insert_other h l a _ _ _ Hl Ha).
    + done.
    + apply mapM_viewCycle_insert; [done|]. intros c. by rewrite Hl.
  - rewrite (footprint_record _ _ d'), (footprint_record _ _ d) by
      (done || apply lookup_insert_eq).
    rewrite Hls', Hrc, Hls.
    destruct Href as [->|[z ->]]; set_solver.
Qed.

Lemma queue_replace (h : gmap loc Obj) l d a xs' v :
  viewRecord h l = Some v →
  h !! l = Some (ORecord d) →
  currentRefTime d = RefArray a →
  viewRecord (<[a := ONumbers xs']> h) l = Some (with_ref (VArray xs') v)
  ∧ footprint (<[a := ONumbers xs']> h) l ⊆ footprint h l.
Proof.
  intros Hv Hl Ha.
  destruct (viewRecord_inv _ _ _ Hv) as (d0 & ls & Hl0 & Hx & Ht & Hls & Hcs).
  assert (d0 = d) as -> by congruence.
  rewrite Ha in Hx. cbn in Hx.
  destruct (h !! a) as [[|xs| |]|] eqn:Hxs; try done.
  assert (<[a := ONumbers xs']> h !! l = Some (ORecord d)) as Hl'.
  { eapply lookup_insert_other; [exact Hxs|done|done]. }
  assert (<[a := ONumbers xs']> h !! recentCycles d = Some (OCycles ls)) as Hls'.
  { eapply lookup_insert_other; [exact Hxs|done|done]. }
  split.
  - unfold with_ref. rewrite Ht. apply viewRecord_intro with (ls := ls); try done.
    + rewrite Ha. cbn. by rewrite lookup_insert_eq.
    + apply mapM_viewCycle_insert; [done|]. intros c. by rewrite Hxs.
  - rewrite !(footprint_record _ _ d) by done. by rewrite Hls', Hls.
Qed.

Lemma cycles_replace (h : gmap loc Obj) l d ls ls' cs' v :
  viewRecord h l = Some v →
  h !! l = Some (ORecord d) →
  h !! recentCycles d = Some (OCycles ls) →
  ls' ⊆ ls →
  mapM (viewCycle h) ls' = Some cs' →
  viewRecord (<[recentCycles d := OCycles ls']> h) l = Some (with_recent cs' v)
  ∧ footprint (<[recentCycles d := OCycles ls']> h) l ⊆ footprint h l.
Proof.
  intros Hv Hl Hls Hsub Hcs'.
  destruct (viewRecord_inv _ _ _ Hv) as (d0 & ls0 & Hl0 & Hx & Ht & Hls0 & Hcs).
  assert (d0 = d) as -> by congruence.
  assert (<[recentCycles d := OCycles ls']> h !! l = Some (ORecord d)) as Hl'.
  { eapply lookup_insert_other; [exact Hls|done|done]. }
  split.
  - unfold with_recent. rewrite Ht. apply viewRecord_intro with (ls := ls'); try done.
    + unfold viewRefTime in *. destruct (currentRefTime d) as [z|a]; [done|].
      destruct (h !! a) as [[| | |]|] eqn:Ha; try done.
      by rewrite (lookup_insert_other h _ a _ _ _ Hls Ha).
    + apply lookup_insert_eq.
    + apply mapM_viewCycle_insert; [done|]. intros c. by rewrite Hls.
  - rewrite !(footprint_record _ _ d) by done.
    rewrite lookup_insert_eq, Hls. set_solver.
Qed.

Lemma allocated_fresh (w : World) x : wf w → is_Some (heap w !! x) → x ≠ next w.
Proof. intros Hwf Hx. pose proof (wf_fresh w Hwf x Hx). lia. Qed.

Lemma next_free (w : World) : wf w → heap w !! next w = None.
Proof.
  intros Hwf. destruct (heap w !! next w) eqn:H; [|done].
  pose proof (wf_fresh w Hwf (next w) (mk_is_Some _ _ H)). lia.
Qed.

(** The sync slot is assigned a number. *)
Lemma effect_slot (w : World) n l d v z :
  wf w →
  records (this w) !! n = Some l →
  cache (this w) !! n = Some sync →
  viewRecord (heap w) l = Some v →
  heap w !! l = Some (ORecord d) →
  effect n l w (set_heap <[l := ORecord (set_currentRefTime (RefNumber z) d)]> w)
         (with_ref (VNumber z) v).
Proof.
  intros Hwf Hl Hty Hv Hd.
  destruct (viewRecord_inv _ _ _ Hv) as (d0 & ls & Hl0 & Hx & Ht & Hls & Hcs).
  assert (d0 = d) as -> by congruence.
  destruct (record_replace (heap w) l d (set_currentRefTime (RefNumber z) d) v
              (VNumber z) Hv Hd) as [Hv' Hfp]; [done|right; by eexists|done|].
  cbn in Hv'. rewrite <- Ht in Hv'.
  eapply effect_store; try done.
  rewrite (footprint_record _ _ d) by done. set_solver.
Qed.

(** The lifetime counter is bumped. *)
Lemma effect_total (w : World) n l ty d v :
  wf w →
  records (this w) !! n = Some l →
  cache (this w) !! n = Some ty →
  viewRecord (heap w) l = Some v →
  shaped ty v →
  heap w !! l = Some (ORecord d) →
  effect n l w (set_heap <[l := ORecord (set_totalCycles (totalCycles d + 1) d)]> w)
         {| vCurrentRefTime := vCurrentRefTime v;
            vTotalCycles := vTotalCycles v + 1;
            vRecentCycles := vRecentCycles v |}.
Proof.
  intros Hwf Hl Hty Hv Hsh Hd.
  destruct (viewRecord_inv _ _ _ Hv) as (d0 & ls & Hl0 & Hx & Ht & Hls & Hcs).
  assert (d0 = d) as -> by congruence.
  destruct (record_replace (heap w) l d (set_totalCycles (totalCycles d + 1) d) v
              (vCurrentRefTime v) Hv Hd) as [Hv' Hfp]; [done|by left|done|].
  cbn in Hv'.
  eapply effect_store; try done; try exact Hsh; try (by rewrite Ht).
  rewrite (footprint_record _ _ d) by done. set_solver.
Qed.

(** The pending queue of an async stage is rewritten. *)
Lemma effect_queue (w : World) n l d a v xs' :
  wf w →
  records (this w) !! n = Some l →
  cache (this w) !! n = Some async →
  viewRecord (heap w) l = Some v →
  heap w !! l = Some (ORecord d) →
  currentRefTime d = RefArray a →
  effect n l w (set_heap <[a := ONumbers xs']> w) (with_ref (VArray xs') v).
Proof.
  intros Hwf Hl Hty Hv Hd Ha.
  destruct (queue_replace (heap w) l d a xs' v Hv Hd Ha) as [Hv' Hfp].
  eapply effect_store; try done.
  rewrite (footprint_record _ _ d), Ha by done. set_solver.
Qed.

(** The array of recent cycles loses entries. *)
Lemma effect_cycles (w : World) n l ty d ls ls' cs' v :
  wf w →
  records (this w) !! n = Some l →
  cache (this w) !! n = Some ty →
  viewRecord (heap w) l = Some v →
  shaped ty v →
  heap w !! l = Some (ORecord d) →
  heap w !! recentCycles d = Some (OCycles ls) →
  ls' ⊆ ls →
  mapM (viewCycle (heap w)) ls' = Some cs' →
  effect n l w (set_heap <[recentCycles d := OCycles ls']> w) (with_recent cs' v).
Proof.
  intros Hwf Hl Hty Hv Hsh Hd Hls Hsub Hcs'.
  destruct (cycles_replace (heap w) l d ls ls' cs' v Hv Hd Hls Hsub Hcs') as [Hv' Hfp].
  eapply effect_store; try done; try exact Hsh.
  rewrite (footprint_record _ _ d) by done. set_solver.
Qed.

Lemma wf_shaped (w : World) n l ty v :
  wf w → records (this w) !! n = Some l → cache (this w) !! n = Some ty →
  viewRecord (heap w) l = Some v → shaped ty v.
Proof.
  intros Hwf Hl Hty Hv.
  destruct (wf_stage w Hwf n l Hl) as (ty' & v' & Hty' & Hv' & Hsh). congruence.
Qed.

(** Allocation alone changes no stage. *)
Lemma effect_extend (w w' : World) n l ty v :
  wf w →
  records (this w) !! n = Some l →
  cache (this w) !! n = Some ty →
  viewRecord (heap w) l = Some v →
  this w' = this w →
  next w ≤ next w' →
  (∀ x, is_Some (heap w' !! x) → x < next w') →
  (∀ x, x < next w → heap w' !! x = heap w !! x) →
  effect n l w w' v.
Proof.
  intros Hwf Hl Hty Hv Hthis Hnext Hfresh Hold.
  assert (∀ x, x ∈ footprint (heap w) l → heap w' !! x = heap w !! x) as Hag.
  { intros x Hx. apply Hold, (wf_fresh w Hwf). by eapply footprint_allocated. }
  destruct (viewRecord_agree _ _ _ _ Hv Hag) as [Hv' Hfp].
  eapply effect_intro; try done.
  - intros x Hx _. by apply Hold.
  - intros x Hx. left. by rewrite <- Hfp.
  - by eapply wf_shaped.
Qed.

(** [recentCycles.push] of a cycle object made for the occasion. *)
Lemma effect_push (w : World) n l ty d ls v c :
  wf w →
  records (this w) !! n = Some l →
  cache (this w) !! n = Some ty →
  viewRecord (heap w) l = Some v →
  heap w !! l = Some (ORecord d) →
  heap w !! recentCycles d = Some (OCycles ls) →
  effect n l w
    (set_heap <[recentCycles d := OCycles (ls ++ [next w])]> (snd (alloc (OCycle c) w)))
    (with_recent (vRecentCycles v ++ [c]) v).
Proof.
  intros Hwf Hl Hty Hv Hd Hls.
  destruct (viewRecord_inv _ _ _ Hv) as (d0 & ls0 & Hl0 & Hx & Ht & Hls0 & Hcs).
  assert (d0 = d) as -> by congruence. assert (ls0 = ls) as -> by congruence.
  pose proof (next_free w Hwf) as Hnx.
  set (h1 := <[next w := OCycle c]> (heap w)).
  assert (h1 !! l = Some (ORecord d)) as Hd1.
  { eapply lookup_insert_other; [exact Hnx|done|done]. }
  assert (h1 !! recentCycles d = Some (OCycles ls)) as Hls1.
  { eapply lookup_insert_other; [exact Hnx|done|done]. }
  assert (<[recentCycles d := OCycles (ls ++ [next w])]> h1 !! l = Some (ORecord d)) as Hd2.
  { eapply lookup_insert_other; [exact Hls1|done|done]. }
  eapply effect_intro; try done; cbn; fold h1.
  - lia.
  - intros x [o Hx']. destruct (decide (x = recentCycles d)) as [->|Hne].
    + pose proof (wf_fresh w Hwf (recentCycles d) (mk_is_Some _ _ Hls)). lia.
    + rewrite lookup_insert_ne in Hx' by done. unfold h1 in Hx'.
      destruct (decide (x = next w)) as [->|Hne']; [lia|].
      rewrite lookup_insert_ne in Hx' by done.
      pose proof (wf_fresh w Hwf x (mk_is_Some _ _ Hx')). lia.
  - intros x Hlt Hx'. rewrite (footprint_record _ _ d) in Hx' by done.
    rewrite lookup_insert_ne by set_solver.
    unfold h1. rewrite lookup_insert_ne by lia. done.
  - intros x. rewrite !(footprint_record _ _ d) by done.
    rewrite lookup_insert_eq, Hls. rewrite list_to_set_app_L.
    intros Hin. destruct (decide (x = next w)) as [->|Hne]; [right; lia|left].
    set_solver.
  - unfold with_recent. rewrite Ht.
    apply viewRecord_intro with (ls := ls ++ [next w]); try done.
    + unfold viewRefTime in *. destruct (currentRefTime d) as [z|a]; [done|].
      destruct (heap w !! a) as [[| | |]|] eqn:Ha; try done.
      assert (h1 !! a = Some (ONumbers xs)) as Ha1.
      { eapply lookup_insert_other; [exact Hnx|done|done]. }
      by rewrite (lookup_insert_other h1 _ a _ _ _ Hls1 Ha1).
    + apply lookup_insert_eq.
    + apply mapM_viewCycle_insert; [|intros c'; by rewrite Hls1].
      apply mapM_Some, Forall2_app.
      * apply mapM_Some. apply mapM_viewCycle_insert; [done|]. intros c'. by rewrite Hnx.
      * constructor; [|constructor]. apply viewCycle_Some. apply lookup_insert_eq.
  - exact (wf_shaped w n l ty v Hwf Hl Hty Hv).
Qed.

(** [recentCycles = []]: the record is pointed at a new, empty array. *)
Lemma effect_clear (w : World) n l ty d v :
  wf w →
  records (this w) !! n = Some l →
  cache (this w) !! n = Some ty →
  viewRecord (heap w) l = Some v →
  heap w !! l = Some (ORecord d) →
  effect n l w
    (set_heap <[l := ORecord (set_recentCycles (next w) d)]> (snd (alloc (OCycles []) w)))
    (with_recent [] v).
Proof.
  intros Hwf Hl Hty Hv Hd.
  destruct (viewRecord_inv _ _ _ Hv) as (d0 & ls & Hl0 & Hx & Ht & Hls & Hcs).
  assert (d0 = d) as -> by congruence.
  pose proof (next_free w Hwf) as Hnx.
  set (h1 := <[next w := OCycles []]> (heap w)).
  assert (h1 !! l = Some (ORecord d)) as Hd1.
  { eapply lookup_insert_other; [exact Hnx|done|done]. }
  assert (<[l := ORecord (set_recentCycles (next w) d)]> h1 !! next w
          = Some (OCycles [])) as Hnew.
  { eapply lookup_insert_other; [exact Hd1|apply lookup_insert_eq|done]. }
  eapply effect_intro; try done; cbn; fold h1.
  - lia.
  - intros x [o Hx']. destruct (decide (x = l)) as [->|Hne].
    + pose proof (wf_fresh w Hwf l (mk_is_Some _ _ Hd)). lia.
    + rewrite lookup_insert_ne in Hx' by done. unfold h1 in Hx'.
      destruct (decide (x = next w)) as [->|Hne']; [lia|].
      rewrite lookup_insert_ne in Hx' by done.
      pose proof (wf_fresh w Hwf x (mk_is_Some _ _ Hx')). lia.
  - intros x Hlt Hx'. rewrite (footprint_record _ _ d) in Hx' by done.
    rewrite lookup_insert_ne by set_solver.
    unfold h1. rewrite lookup_insert_ne by lia. done.
  - intros x. rewrite (footprint_record _ _ (set_recentCycles (next w) d)) by
      apply lookup_insert_eq.
    rewrite (footprint_record _ _ d) by done. cbn. rewrite Hnew.
    intros Hin. destruct (decide (x = next w)) as [->|Hne]; [right; lia|left].
    set_solver.
  - unfold with_recent. rewrite Ht.
    apply (viewRecord_intro _ l (set_recentCycles (next w) d) []); try done.
    + apply lookup_insert_eq.
    + cbn. unfold viewRefTime in *. destruct (currentRefTime d) as [z|a]; [done|].
      destruct (heap w !! a) as [[| | |]|] eqn:Ha; try done.
      assert (h1 !! a = Some (ONumbers xs)) as Ha1.
      { eapply lookup_insert_other; [exact Hnx|done|done]. }
      by rewrite (lookup_insert_other h1 _ a _ _ _ Hd1 Ha1).
  - exact (wf_shaped w n l ty v Hwf Hl Hty Hv).
Qed.

(** [JSON.parse] only allocates. *)
Lemma parseCycles_spec (cs : list Cycle) (w : World) :
  (∀ x, is_Some (heap w !! x) → x < next w) →
  ∃ ls w', parseCycles cs w = (Return ls, w')
    ∧ this w' = this w ∧ purged w' = purged w ∧ next w ≤ next w'
    ∧ (∀ x, is_Some (heap w' !! x) → x < next w')
    ∧ (∀ x, x < next w → heap w' !! x = heap w !! x)
    ∧ mapM (viewCycle (heap w')) ls = Some cs
    ∧ (∀ x, x ∈ ls → next w ≤ x).
Proof.
  revert w. induction cs as [|c cs IH]; intros w Hb.
  - exists [], w. cbn. repeat split; auto. intros x Hx. by apply elem_of_nil in Hx.
  - cbn [parseCycles]. rewrite bind_unfold. cbn [alloc].
    set (w1 := {| this := this w; heap := <[next w := OCycle c]> (heap w);
                  next := S (next w); purged := purged w |}).
    assert (∀ x, is_Some (heap w1 !! x) → x < next w1) as Hb1.
    { intros x [o Hx]. cbn in *. destruct (decide (x = next w)) as [->|Hne]; [lia|].
      rewrite lookup_insert_ne in Hx by done.
      pose proof (Hb x (mk_is_Some _ _ Hx)). lia. }
    destruct (IH w1 Hb1) as (ls & w' & Hrun & Hthis & Hpur & Hnext & Hb' & Hold & Hview & Hge).
    rewrite bind_unfold, Hrun. cbn in Hnext.
    exists (next w :: ls), w'. cbn [ret]. repeat split; auto; try lia.
    + intros x Hx. rewrite Hold by (cbn; lia). cbn.
      apply lookup_insert_ne. lia.
    + cbn. assert (viewCycle (heap w') (next w) = Some c) as ->.
      { apply viewCycle_Some. rewrite Hold by (cbn; lia). cbn. apply lookup_insert_eq. }
      cbn. by rewrite Hview.
    + intros x Hx. apply elem_of_cons in Hx as [->|Hx]; [lia|].
      apply Hge in Hx. cbn in Hx. lia.
Qed.

Lemma JSON_stringify_eq (w : World) l v :
  viewRecord (heap w) l = Some v → JSON_stringify l w = (Return v, w).
Proof.
  intros Hv. unfold JSON_stringify. rewrite bind_unfold. cbn [gets]. by rewrite Hv.
Qed.

Lemma JSON_parse_spec (v : PerfView) (w : World) :
  (∀ x, is_Some (heap w !! x) → x < next w) →
  ∃ s w', JSON_parse v w = (Return s, w')
    ∧ this w' = this w ∧ purged w' = purged w ∧ next w ≤ next w'
    ∧ (∀ x, is_Some (heap w' !! x) → x < next w')
    ∧ (∀ x, x < next w → heap w' !! x = heap w !! x)
    ∧ viewRecord (heap w') s = Some v
    ∧ (∀ x, x ∈ footprint (heap w') s → next w ≤ x < next w').
Proof.
  intros Hb. unfold JSON_parse. rewrite bind_unfold.
  (* the pending reference *)
  assert (∃ x w1, (match vCurrentRefTime v with
                   | VNumber n => ret (RefNumber n)
                   | VArray xs => let* a := alloc (ONumbers xs) in ret (RefArray a)
                   end) w = (Return x, w1)
            ∧ this w1 = this w ∧ purged w1 = purged w ∧ next w ≤ next w1
            ∧ (∀ y, is_Some (heap w1 !! y) → y < next w1)
            ∧ (∀ y, y < next w → heap w1 !! y = heap w !! y)
            ∧ viewRefTime (heap w1) x = Some (vCurrentRefTime v)
            ∧ match x with RefArray a => next w ≤ a | RefNumber _ => True end)
    as (x & w1 & -> & Hthis1 & Hpur1 & Hnext1 & Hb1 & Hold1 & Hx & Hxge).
  { destruct (vCurrentRefTime v) as [z|xs].
    - exists (RefNumber z), w. repeat split; auto.
    - eexists (RefArray (next w)), _. split; [reflexivity|]. cbn.
      repeat split; auto.
      + intros y [o Hy]. destruct (decide (y = next w)) as [->|Hne]; [lia|].
        rewrite lookup_insert_ne in Hy by done.
        pose proof (Hb y (mk_is_Some _ _ Hy)). lia.
      + intros y Hy. apply lookup_insert_ne. lia.
      + by rewrite lookup_insert_eq. }
  destruct (parseCycles_spec (vRecentCycles v) w1 Hb1)
    as (ls & w2 & Hrun & Hthis2 & Hpur2 & Hnext2 & Hb2 & Hold2 & Hview2 & Hge2).
  rewrite bind_unfold, Hrun, bind_unfold. cbn [alloc].
  set (d := {| currentRefTime := x; totalCycles := vTotalCycles v;
               recentCycles := next w2 |}).
  set (h3 := <[next w2 := OCycles ls]> (heap w2)).
  set (h4 := <[S (next w2) := ORecord d]> h3).
  assert (heap w2 !! next w2 = None) as Hfree2.
  { destruct (heap w2 !! next w2) eqn:H; [|done].
    pose proof (Hb2 _ (mk_is_Some _ _ H)). lia. }
  assert (∀ y, y < next w2 → h4 !! y = heap w2 !! y) as Hold4.
  { intros y Hy. unfold h4, h3. rewrite !lookup_insert_ne by lia. done. }
  eexists (S (next w2)), _. split; [reflexivity|]. cbn. fold h3 d h4.
  split; [congruence|]. split; [congruence|]. split; [lia|]. split; [|split; [|split]].
  - intros y [o Hy]. unfold h4, h3 in Hy.
    destruct (decide (y = S (next w2))) as [->|Hne]; [lia|].
    rewrite lookup_insert_ne in Hy by done.
    destruct (decide (y = next w2)) as [->|Hne']; [lia|].
    rewrite lookup_insert_ne in Hy by done.
    pose proof (Hb2 y (mk_is_Some _ _ Hy)). lia.
  - intros y Hy. rewrite Hold4 by lia. rewrite Hold2 by lia. by apply Hold1.
  - assert (h4 !! S (next w2) = Some (ORecord d)) as Hd by apply lookup_insert_eq.
    assert (h4 !! next w2 = Some (OCycles ls)) as Hls.
    { unfold h4. rewrite lookup_insert_ne by lia. apply lookup_insert_eq. }
    destruct v as [vx vt vcs]. apply (viewRecord_intro h4 _ d ls); try done.
    + cbn in *. unfold viewRefTime in *. destruct x as [z|a]; [done|].
      assert (a < next w1).
      { destruct (heap w1 !! a) as [o|] eqn:Ha; [|done].
        exact (Hb1 a (mk_is_Some _ _ Ha)). }
      rewrite Hold4 by lia. rewrite Hold2 by lia. exact Hx.
    + cbn in *. rewrite <- Hview2. apply mapM_viewCycle_agree.
      intros c Hc. apply Hold4. apply mapM_Some in Hview2.
      apply list_elem_of_lookup in Hc as [i Hi].
      destruct (Forall2_lookup_l _ _ _ i c Hview2 Hi) as (y & _ & Hy).
      apply viewCycle_Some in Hy. apply Hb2. eauto.
  - intros y. rewrite (footprint_record h4 _ d) by apply lookup_insert_eq.
    cbn [recentCycles currentRefTime d].
    assert (h4 !! next w2 = Some (OCycles ls)) as ->.
    { unfold h4. rewrite lookup_insert_ne by lia. apply lookup_insert_eq. }
    intros Hy.
    apply elem_of_union in Hy as [Hy|Hy]; [apply elem_of_union in Hy as [Hy|Hy]|].
    + apply elem_of_union in Hy as [Hy|Hy]; apply elem_of_singleton in Hy; lia.
    + destruct x as [z|a]; [set_solver|]. apply elem_of_singleton in Hy. subst y.
      split; [lia|]. unfold viewRefTime in Hx.
      destruct (heap w1 !! a) as [o|] eqn:Ha; [|done].
      pose proof (Hb1 a (mk_is_Some _ _ Ha)). lia.
    + apply elem_of_list_to_set in Hy. pose proof (Hge2 y Hy).
      split; [lia|]. apply mapM_Some in Hview2.
      apply list_elem_of_lookup in Hy as [i Hi].
      destruct (Forall2_lookup_l _ _ _ i y Hview2 Hi) as (c & _ & Hc).
      apply viewCycle_Some in Hc. pose proof (Hb2 y (mk_is_Some _ _ Hc)). lia.
Qed.

Lemma live_below (w : World) n l x :
  wf w → records (this w) !! n = Some l → x ∈ footprint (heap w) l → x < next w.
Proof.
  intros Hwf Hl Hx. destruct (wf_stage w Hwf n l Hl) as (ty & v & _ & Hv & _).
  apply (wf_fresh w Hwf). by eapply footprint_allocated.
Qed.

Lemma effect_other (w w' : World) n l v' n' l' :
  wf w → effect n l w w' v' →
  records (this w) !! n = Some l → n' ≠ n → records (this w) !! n' = Some l' →
  viewRecord (heap w') l' = viewRecord (heap w) l'
  ∧ footprint (heap w') l' = footprint (heap w) l'.
Proof.
  intros Hwf Heff Hl Hne Hl'.
  destruct (wf_stage w Hwf n' l' Hl') as (ty & v & _ & Hv & _).
  rewrite Hv. apply viewRecord_agree; [done|].
  intros x Hx. apply (eff_frame _ _ _ _ _ Heff).
  - by eapply live_below.
  - pose proof (wf_sep w Hwf n' n l' l Hne Hl' Hl). set_solver.
Qed.

Lemma effect_stageView (w w' : World) n l v' :
  effect n l w w' v' → records (this w) !! n = Some l → stageView n w' = Some v'.
Proof.
  intros Heff Hl. unfold stageView. rewrite (eff_this _ _ _ _ _ Heff), Hl. cbn.
  apply (eff_view _ _ _ _ _ Heff).
Qed.

Lemma effect_stageView_other (w w' : World) n l v' n' :
  wf w → effect n l w w' v' → records (this w) !! n = Some l → n' ≠ n →
  stageView n' w' = stageView n' w.
Proof.
  intros Hwf Heff Hl Hne. unfold stageView. rewrite (eff_this _ _ _ _ _ Heff).
  destruct (records (this w) !! n') as [l'|] eqn:Hl'; [|done]. cbn.
  by eapply effect_other.
Qed.

Lemma getProperty_own (w : World) n l :
  records (this w) !! n = Some l → getProperty w n = JRecord l.
Proof. unfold getProperty. by intros ->. Qed.

Lemma getProperty_record (w : World) (n : StageNameType) l :
  getProperty w n = JRecord l → records (this w) !! n = Some l.
Proof.
  unfold getProperty. destruct (records (this w) !! n) as [l'|]; [by intros [= ->]|].
  destruct (inherited n); [done|].
  destruct (_ ≫= _) as [[d| | |]|]; try done.
  repeat case_bool_decide; try done. by destruct (currentRefTime d).
Qed.

Lemma getProperty_inherited (w : World) (n : StageNameType) :
  records (this w) !! n = None → inherited n = true → getProperty w n = JInherited.
Proof. unfold getProperty. by intros -> ->. Qed.

Lemma wf_proto (w : World) : wf w → records (this w) !! "__proto__" = None.
Proof.
  intros Hwf. destruct (records (this w) !! "__proto__") as [l|] eqn:Hl; [|done].
  by pose proof (wf_own w Hwf "__proto__" (mk_is_Some _ _ Hl)).
Qed.

Lemma getProperty_undefined (w : World) (n : StageNameType) :
  wf w → records (this w) !! n = None → inherited n = false →
  getProperty w n = JUndefined.
Proof.
  intros Hwf Hn Hi. unfold getProperty. by rewrite Hn, Hi, (wf_proto w Hwf).
Qed.

(** In a well-formed world a name reads as its record, as an inherited
    property, or as nothing. *)
Lemma getProperty_cases (w : World) (n : StageNameType) :
  wf w →
  (∃ l, records (this w) !! n = Some l ∧ inherited n = false
        ∧ getProperty w n = JRecord l)
  ∨ (records (this w) !! n = None ∧ inherited n = true
     ∧ getProperty w n = JInherited)
  ∨ (records (this w) !! n = None ∧ inherited n = false
     ∧ getProperty w n = JUndefined).
Proof.
  intros Hwf. destruct (records (this w) !! n) as [l|] eqn:Hl.
  - left. exists l. split; [done|]. split; [|by apply getProperty_own].
    apply (wf_own w Hwf). by rewrite Hl.
  - right. destruct (inherited n) eqn:Hi.
    + left. by rewrite (getProperty_inherited w n Hl Hi).
    + right. by rewrite (getProperty_undefined w n Hwf Hl Hi).
Qed.

Lemma get_currentRefTime_eq {B} (w : World) l d (k : option RefTime → M B) :
  heap w !! l = Some (ORecord d) →
  bind (get_currentRefTime (JRecord l)) k w = k (Some (currentRefTime d)) w.
Proof.
  intros Hd. cbn [get_currentRefTime].
  by rewrite bind_unfold, bind_unfold, (loadRecord_eq _ _ _ Hd).
Qed.

Lemma recordOf_eq (w : World) n l :
  records (this w) !! n = Some l → recordOf n w = (Return l, w).
Proof.
  intros H. unfold recordOf. rewrite bind_unfold. cbn [gets].
  by rewrite (getProperty_own w n l H).
Qed.

Lemma markTime_spec (w : World) n l ty v a b :
  wf w →
  records (this w) !! n = Some l →
  cache (this w) !! n = Some ty →
  viewRecord (heap w) l = Some v →
  ∃ w', markTime n a b w = (Return tt, w')
        ∧ effect n l w w' (marked {| r := a; t := b |} v)
        ∧ purged w' = purged w.
Proof.
  intros Hwf Hl Hty Hv.
  destruct (viewRecord_inv _ _ _ Hv) as (d & ls & Hd & Hx & Ht & Hls & Hcs).
  pose proof (effect_push w n l ty d ls v {| r := a; t := b |} Hwf Hl Hty Hv Hd Hls) as E1.
  set (w2 := set_heap <[recentCycles d := OCycles (ls ++ [next w])]>
               (snd (alloc (OCycle {| r := a; t := b |}) w))) in *.
  pose proof (next_free w Hwf) as Hnx.
  assert (heap (snd (alloc (OCycle {| r := a; t := b |}) w)) !! recentCycles d
          = Some (OCycles ls)) as Hls1.
  { cbn. eapply lookup_insert_other; [exact Hnx|done|done]. }
  assert (heap w2 !! l = Some (ORecord d)) as Hd2.
  { cbn. eapply lookup_insert_other; [exact Hls1| |done].
    eapply lookup_insert_other; [exact Hnx|done|done]. }
  pose proof (eff_wf _ _ _ _ _ E1) as Hwf2.
  pose proof (eff_this _ _ _ _ _ E1) as Hthis2.
  assert (effect n l w2 (set_heap <[l := ORecord (set_totalCycles (totalCycles d + 1) d)]> w2)
            (marked {| r := a; t := b |} v)) as E2.
  { apply (effect_total w2 n l ty d (with_recent (vRecentCycles v ++ [{| r := a; t := b |}]) v));
      try done; try congruence.
    - apply (eff_view _ _ _ _ _ E1).
    - exact (wf_shaped w n l ty v Hwf Hl Hty Hv). }
  eexists. split; [|split; [exact (effect_trans _ _ _ _ _ _ _ E1 E2)|done]].
  unfold markTime. rewrite bind_unfold, (recordOf_eq _ _ _ Hl).
  rewrite bind_unfold, (loadRecord_eq _ _ _ Hd).
  rewrite bind_unfold. cbn [alloc].
  rewrite bind_unfold, (pushCycle_eq _ _ ls) by exact Hls1.
  by rewrite (updateRecord_eq _ _ d).
Qed.

Lemma purgeArena_silent (w : World) n l ty v :
  wf w →
  records (this w) !! n = Some l →
  cache (this w) !! n = Some ty →
  viewRecord (heap w) l = Some v →
  onPurgeCallback (this w) = false →
  ∃ w', purgeArena n w = (Return tt, w')
        ∧ effect n l w w' (with_recent [] v)
        ∧ purged w' = purged w.
Proof.
  intros Hwf Hl Hty Hv Hcb.
  destruct (viewRecord_inv _ _ _ Hv) as (d & ls & Hd & _).
  pose proof (effect_clear w n l ty d v Hwf Hl Hty Hv Hd) as E.
  eexists. split; [|split; [exact E|done]].
  unfold purgeArena. rewrite bind_unfold. cbn [gets]. rewrite Hcb.
  rewrite bind_unfold. cbn [ret].
  rewrite bind_unfold, (recordOf_eq _ _ _ Hl).
  rewrite bind_unfold. cbn [alloc].
  rewrite (updateRecord_eq _ _ d); [done|].
  cbn. eapply lookup_insert_other; [exact (next_free w Hwf)|done|done].
Qed.

Lemma purgeArena_sink (w : World) n l ty v :
  wf w →
  records (this w) !! n = Some l →
  cache (this w) !! n = Some ty →
  viewRecord (heap w) l = Some v →
  onPurgeCallback (this w) = true →
  ∃ s w', purgeArena n w = (Return tt, w')
        ∧ effect n l w w' (with_recent [] v)
        ∧ purged w' = purged w ++ [(n, s)]
        ∧ viewRecord (heap w') s = Some v
        ∧ (∀ n' l', records (this w') !! n' = Some l' →
             footprint (heap w') l' ## footprint (heap w') s).
Proof.
  intros Hwf Hl Hty Hv Hcb.
  destruct (viewRecord_inv _ _ _ Hv) as (d & ls & Hd & _).
  destruct (JSON_parse_spec v w (wf_fresh w Hwf))
    as (s & w1 & Hrun & Hthis1 & Hpur1 & Hnext1 & Hb1 & Hold1 & Hs & Hsfp).
  set (w2 := {| this := this w1; heap := heap w1; next := next w1;
                purged := purged w1 ++ [(n, s)] |}).
  assert (effect n l w w2 v) as E1.
  { eapply effect_extend; done. }
  pose proof (eff_wf _ _ _ _ _ E1) as Hwf2.
  assert (heap w2 !! l = Some (ORecord d)) as Hd2.
  { cbn. rewrite Hold1; [done|]. apply (wf_fresh w Hwf). eauto. }
  assert (records (this w2) !! n = Some l) as Hl2 by (cbn; congruence).
  assert (cache (this w2) !! n = Some ty) as Hty2 by (cbn; congruence).
  pose proof (effect_clear w2 n l ty d v Hwf2 Hl2 Hty2 (eff_view _ _ _ _ _ E1) Hd2) as E2.
  set (w3 := set_heap <[l := ORecord (set_recentCycles (next w2) d)]>
               (snd (alloc (OCycles []) w2))) in *.
  pose proof (effect_trans _ _ _ _ _ _ _ E1 E2) as E.
  assert (l < next w) as Hlb by (apply (wf_fresh w Hwf); eauto).
  assert (∀ x, x ∈ footprint (heap w1) s → heap w3 !! x = heap w1 !! x) as Hag.
  { intros x Hx. apply Hsfp in Hx. cbn.
    rewrite !lookup_insert_ne by lia. done. }
  destruct (viewRecord_agree _ _ _ _ Hs Hag) as [Hs3 Hfp3].
  exists s, w3. split; [|split; [exact E|split; [|split; [exact Hs3|]]]].
  - unfold purgeArena. rewrite bind_unfold. cbn [gets]. rewrite Hcb.
    rewrite bind_unfold, bind_unfold, (recordOf_eq _ _ _ Hl).
    rewrite bind_unfold, (JSON_stringify_eq _ _ _ Hv).
    rewrite bind_unfold, Hrun. cbn [modify]. fold w2.
    rewrite bind_unfold, (recordOf_eq _ _ _ Hl2).
    rewrite bind_unfold. cbn [alloc].
    rewrite (updateRecord_eq _ _ d); [done|].
    cbn. eapply lookup_insert_other; [exact (next_free w2 Hwf2)|exact Hd2|done].
  - cbn. by rewrite Hpur1.
  - intros n' l' Hl' x Hx1 Hx2. rewrite Hfp3 in Hx2. apply Hsfp in Hx2.
    rewrite (eff_this _ _ _ _ _ E) in Hl'.
    destruct (decide (n' = n)) as [->|Hne].
    + assert (l' = l) as -> by congruence.
      destruct (eff_fp _ _ _ _ _ E2 x Hx1) as [Hin|Hge]; [|cbn in Hge; lia].
      destruct (viewRecord_agree (heap w) (heap w2) l v Hv) as [_ Hfpeq].
      { intros y Hy. cbn. apply Hold1. by eapply live_below. }
      rewrite Hfpeq in Hin. pose proof (live_below w n l x Hwf Hl Hin). lia.
    + destruct (effect_other w w3 n l _ n' l' Hwf E Hl Hne Hl') as [_ Hfpeq].
      rewrite Hfpeq in Hx1. pose proof (live_below w n' l' x Hwf Hl' Hx1). lia.
Qed.

Lemma retention_live (w : World) n l ty v :
  wf w →
  records (this w) !! n = Some l →
  cache (this w) !! n = Some ty →
  viewRecord (heap w) l = Some v →
  ∃ w', (let* d := loadRecord l in
         let* cs := loadCycles (recentCycles d) in
         let* cap := gets (λ w, inMemCycles (this w)) in
         if bool_decide (cap ≤ Z.of_nat (length cs))%Z then
           shiftCycle (recentCycles d) >> ret tt
         else ret tt) w = (Return tt, w')
        ∧ effect n l w w' (with_recent (evict (inMemCycles (this w)) (vRecentCycles v)) v)
        ∧ purged w' = purged w.
Proof.
  intros Hwf Hl Hty Hv.
  destruct (viewRecord_inv _ _ _ Hv) as (d & ls & Hd & Hx & Ht & Hls & Hcs).
  pose proof (length_mapM _ _ _ Hcs) as Hlen.
  rewrite bind_unfold, (loadRecord_eq _ _ _ Hd).
  rewrite bind_unfold, (loadCycles_eq _ _ _ Hls).
  rewrite bind_unfold. cbn [gets]. unfold evict. rewrite <- Hlen.
  assert (with_recent (vRecentCycles v) v = v) as Hid by (by destruct v).
  case_bool_decide as Hcap.
  - destruct ls as [|c ls'].
    + rewrite bind_unfold, (shiftCycle_nil _ _ Hls). cbn [ret].
      apply mapM_Some in Hcs. apply Forall2_nil_inv_l in Hcs. rewrite Hcs in *.
      exists w. cbn [tail]. rewrite Hid. split; [done|]. split; [|done].
      by apply effect_refl.
    + rewrite bind_unfold, (shiftCycle_cons _ _ _ _ Hls). cbn [ret].
      eexists. split; [done|]. split; [|done].
      apply mapM_Some in Hcs. apply Forall2_cons_inv_l in Hcs as (y & cs' & Hy & Hcs' & Heq).
      rewrite Heq. cbn [tail].
      eapply effect_cycles; try done.
      * by eapply wf_shaped.
      * set_solver.
      * by apply mapM_Some.
  - exists w. cbn [ret]. rewrite Hid. split; [done|]. split; [|done].
    by apply effect_refl.
Qed.

Lemma viewRefTime_array (h : gmap loc Obj) x xs :
  viewRefTime h x = Some (VArray xs) →
  ∃ a, x = RefArray a ∧ h !! a = Some (ONumbers xs).
Proof.
  unfold viewRefTime. destruct x as [z|a]; [done|].
  destruct (h !! a) as [[| | |]|] eqn:Ha; try done. intros [= ->]. eauto.
Qed.

Lemma viewRefTime_number (h : gmap loc Obj) x z :
  viewRefTime h x = Some (VNumber z) → x = RefNumber z.
Proof.
  unfold viewRefTime. destruct x as [z'|a]; [by intros [= ->]|].
  by destruct (h !! a) as [[| | |]|].
Qed.

Lemma startStage_spec (w : World) n l ty v perfNow :
  wf w →
  skipRecording (this w) = false →
  records (this w) !! n = Some l →
  cache (this w) !! n = Some ty →
  viewRecord (heap w) l = Some v →
  ∃ w', startStage perfNow n w = (Return tt, w')
        ∧ effect n l w w' (started ty perfNow v)
        ∧ purged w' = purged w.
Proof.
  intros Hwf Hskip Hl Hty Hv.
  destruct (viewRecord_inv _ _ _ Hv) as (d & ls & Hd & Hx & Ht & Hls & Hcs).
  pose proof (wf_shaped w n l ty v Hwf Hl Hty Hv) as Hsh.
  unfold startStage. rewrite bind_unfold. cbn [gets]. rewrite Hskip.
  rewrite bind_unfold. cbn [gets]. rewrite (getProperty_own w n l Hl).
  cbn [negb andb truthy].
  rewrite bind_unfold. cbn [gets]. rewrite Hty.
  destruct ty.
  - rewrite decide_True by done. cbn [assign_currentRefTime].
    rewrite (updateRecord_eq _ _ d) by done.
    eexists. split; [done|]. split; [|done].
    unfold started. by eapply effect_slot.
  - rewrite decide_False by done.
    unfold shaped in Hsh. destruct (vCurrentRefTime v) as [z|xs] eqn:Hvx; [done|].
    destruct (viewRefTime_array _ _ _ Hx) as (a & Ha & Hxs).
    rewrite (get_currentRefTime_eq _ _ _ _ Hd). rewrite Ha.
    rewrite (pushNumber_eq _ _ xs) by done.
    eexists. split; [done|]. split; [|done].
    unfold started. rewrite Hvx. by eapply effect_queue.
Qed.

(** [endStage] from [markTime] on. *)
Lemma endStage_finish (w : World) n l ty v (perfNow : Z) (event : option Z) (x : Z) :
  wf w →
  records (this w) !! n = Some l →
  cache (this w) !! n = Some ty →
  viewRecord (heap w) l = Some v →
  let v' := match event, ty with
            | None, sync => with_ref (VNumber 0) (marked {| r := x; t := (perfNow - x)%Z |} v)
            | _, _ => marked {| r := x; t := (perfNow - x)%Z |} v
            end in
  ∃ w', (markTime n x (perfNow - x) >>
         (if bool_decide (event = None) && bool_decide (Some ty = Some sync) then
            assign_currentRefTime (JRecord l) (RefNumber 0)
          else ret tt) >>
         let* live := gets (λ w, enableLiveDebug (this w)) in
         if live then
           let* l := asRecord (JRecord l) in
           let* d := loadRecord l in
           let* cs := loadCycles (recentCycles d) in
           let* cap := gets (λ w, inMemCycles (this w)) in
           if bool_decide (cap ≤ Z.of_nat (length cs))%Z then
             shiftCycle (recentCycles d) >> ret tt
           else ret tt
         else purgeArena n) w = (Return tt, w')
        ∧ effect n l w w' (retained (enableLiveDebug (this w)) (inMemCycles (this w)) v')
        ∧ if enableLiveDebug (this w) then purged w' = purged w
          else if onPurgeCallback (this w) then
            ∃ s, purged w' = purged w ++ [(n, s)]
                 ∧ viewRecord (heap w') s = Some v'
                 ∧ (∀ n' l', records (this w') !! n' = Some l' →
                      footprint (heap w') l' ## footprint (heap w') s)
          else purged w' = purged w.
Proof.
  intros Hwf Hl Hty Hv v'.
  (* markTime *)
  destruct (markTime_spec w n l ty v x (perfNow - x) Hwf Hl Hty Hv)
    as (w1 & Hrun1 & E1 & Hpur1).
  rewrite bind_unfold, Hrun1.
  pose proof (eff_wf _ _ _ _ _ E1) as Hwf1.
  pose proof (eff_this _ _ _ _ _ E1) as Hthis1.
  assert (records (this w1) !! n = Some l) as Hl1 by congruence.
  assert (cache (this w1) !! n = Some ty) as Hty1 by congruence.
  (* the sync slot *)
  assert (∃ w2, (if bool_decide (event = None) && bool_decide (Some ty = Some sync) then
                   assign_currentRefTime (JRecord l) (RefNumber 0)
                 else ret tt) w1 = (Return tt, w2)
                ∧ effect n l w1 w2 v' ∧ purged w2 = purged w1)
    as (w2 & Hrun2 & E2 & Hpur2).
  { destruct (viewRecord_inv _ _ _ (eff_view _ _ _ _ _ E1)) as (d1 & ? & Hd1 & _).
    subst v'. destruct event as [ts|], ty; cbn [bool_decide andb].
    - rewrite bool_decide_eq_false_2 by done. cbn.
      eexists. split; [done|]. split; [|done].
      apply effect_refl; [done|]. apply (eff_view _ _ _ _ _ E1).
    - rewrite bool_decide_eq_false_2 by done. cbn.
      eexists. split; [done|]. split; [|done].
      apply effect_refl; [done|]. apply (eff_view _ _ _ _ _ E1).
    - rewrite !bool_decide_eq_true_2 by done. cbn [andb assign_currentRefTime].
      rewrite (updateRecord_eq _ _ d1) by done.
      eexists. split; [done|]. split; [|done].
      eapply effect_slot; try done. apply (eff_view _ _ _ _ _ E1).
    - rewrite bool_decide_eq_true_2 by done.
      rewrite (bool_decide_eq_false_2 (Some async = Some sync)) by done. cbn.
      eexists. split; [done|]. split; [|done].
      apply effect_refl; [done|]. apply (eff_view _ _ _ _ _ E1). }
  rewrite bind_unfold, Hrun2.
  pose proof (eff_wf _ _ _ _ _ E2) as Hwf2.
  pose proof (eff_this _ _ _ _ _ E2) as Hthis2.
  assert (records (this w2) !! n = Some l) as Hl2 by congruence.
  assert (cache (this w2) !! n = Some ty) as Hty2 by congruence.
  pose proof (effect_trans _ _ _ _ _ _ _ E1 E2) as E12.
  rewrite bind_unfold. cbn [gets]. rewrite Hthis2, Hthis1.
  destruct (enableLiveDebug (this w)) eqn:Hlive.
  - destruct (retention_live w2 n l ty v' Hwf2 Hl2 Hty2 (eff_view _ _ _ _ _ E2))
      as (w3 & Hrun3 & E3 & Hpur3).
    rewrite bind_unfold. cbn [asRecord ret].
    rewrite Hrun3. exists w3. split; [done|]. split; [|congruence].
    unfold retained. rewrite Hthis2, Hthis1 in E3.
    exact (effect_trans _ _ _ _ _ _ _ E12 E3).
  - destruct (onPurgeCallback (this w)) eqn:Hcb.
    + destruct (purgeArena_sink w2 n l ty v' Hwf2 Hl2 Hty2 (eff_view _ _ _ _ _ E2))
        as (s & w3 & Hrun3 & E3 & Hpur3 & Hs & Hdisj); [congruence|].
      rewrite Hrun3. exists w3. split; [done|]. split.
      * exact (effect_trans _ _ _ _ _ _ _ E12 E3).
      * exists s. split; [congruence|]. done.
    + destruct (purgeArena_silent w2 n l ty v' Hwf2 Hl2 Hty2 (eff_view _ _ _ _ _ E2))
        as (w3 & Hrun3 & E3 & Hpur3); [congruence|].
      rewrite Hrun3. exists w3. split; [done|]. split; [|congruence].
      exact (effect_trans _ _ _ _ _ _ _ E12 E3).
Qed.

Lemma endStage_spec (w : World) n l ty v (perfNow : Z) (event : option Z) :
  wf w →
  skipRecording (this w) = false →
  records (this w) !! n = Some l →
  cache (this w) !! n = Some ty →
  viewRecord (heap w) l = Some v →
  ∃ w', endStage perfNow n event w = (Return tt, w')
    ∧ match cycleOf perfNow event v with
      | None => effect n l w w' (dequeued event v) ∧ purged w' = purged w
      | Some c =>
          effect n l w w'
            (retained (enableLiveDebug (this w)) (inMemCycles (this w))
                      (closed ty event c v))
          ∧ if enableLiveDebug (this w) then purged w' = purged w
            else if onPurgeCallback (this w) then
              ∃ s, purged w' = purged w ++ [(n, s)]
                   ∧ viewRecord (heap w') s = Some (closed ty event c v)
                   ∧ (∀ n' l', records (this w') !! n' = Some l' →
                        footprint (heap w') l' ## footprint (heap w') s)
            else purged w' = purged w
      end.
Proof.
  intros Hwf Hskip Hl Hty Hv.
  destruct (viewRecord_inv _ _ _ Hv) as (d & ls & Hd & Hx & Ht & Hls & Hcs).
  pose proof (wf_shaped w n l ty v Hwf Hl Hty Hv) as Hsh.
  unfold endStage. rewrite bind_unfold. cbn [gets]. rewrite Hskip.
  rewrite bind_unfold. cbn [gets]. rewrite (getProperty_own w n l Hl).
  cbn [negb andb truthy].
  rewrite bind_unfold. cbn [gets]. rewrite Hty.
  rewrite bind_unfold.
  destruct event as [ts|].
  - (* an event: its time stamp is the reference *)
    cbn [ret]. unfold cycleOf, resolved. case_bool_decide as Hts.
    + exists w. split; [done|]. split; [|done]. by apply effect_refl.
    + destruct (endStage_finish w n l ty v perfNow (Some ts) ts Hwf Hl Hty Hv)
        as (w' & Hrun & E & Hp).
      exists w'. split; [exact Hrun|]. unfold closed, dequeued.
      destruct ty; done.
  - rewrite (get_currentRefTime_eq _ _ _ _ Hd).
    destruct ty.
    + (* sync: the slot *)
      rewrite decide_True by done.
      unfold shaped in Hsh. destruct (vCurrentRefTime v) as [z|xs] eqn:Hvx; [|done].
      rewrite (viewRefTime_number _ _ _ Hx). cbn [ret].
      unfold cycleOf, resolved. rewrite Hvx. case_bool_decide as Hz.
      * exists w. split; [done|]. split; [|done].
        unfold dequeued. rewrite Hvx. by apply effect_refl.
      * destruct (endStage_finish w n l sync v perfNow None z Hwf Hl Hty Hv)
          as (w' & Hrun & E & Hp).
        exists w'. split; [exact Hrun|]. unfold closed, dequeued. by rewrite Hvx.
    + (* async: the queue *)
      rewrite decide_False by done.
      unfold shaped in Hsh. destruct (vCurrentRefTime v) as [z|xs] eqn:Hvx; [done|].
      destruct (viewRefTime_array _ _ _ Hx) as (a & Ha & Hxs). rewrite Ha.
      unfold cycleOf, resolved. rewrite Hvx.
      destruct xs as [|z xs].
      * rewrite (shiftNumber_nil _ _ Hxs). cbn.
        exists w. split; [done|]. split; [|done].
        unfold dequeued. rewrite Hvx. by apply effect_refl.
      * rewrite (shiftNumber_cons _ _ _ _ Hxs). cbn [head].
        pose proof (effect_queue w n l d a v xs Hwf Hl Hty Hv Hd Ha) as E0.
        set (w0 := set_heap <[a := ONumbers xs]> w) in *.
        assert (dequeued None v = with_ref (VArray xs) v) as Hdq.
        { unfold dequeued. by rewrite Hvx. }
        case_bool_decide as Hz.
        -- exists w0. split; [done|]. split; [|done]. by rewrite Hdq.
        -- pose proof (eff_wf _ _ _ _ _ E0) as Hwf0.
           destruct (endStage_finish w0 n l async (with_ref (VArray xs) v) perfNow None z
                       Hwf0 Hl Hty (eff_view _ _ _ _ _ E0))
             as (w' & Hrun & E & Hp).
           exists w'. split; [exact Hrun|]. unfold closed. rewrite Hdq.
           split; [exact (effect_trans _ _ _ _ _ _ _ E0 E)|exact Hp].
Qed.

Lemma setCache_own (n : StageNameType) ty c :
  inherited n = false → setCache n ty c = <[n := ty]> c.
Proof. intros Hn. unfold setCache. case_bool_decide as H; [by subst n|done]. Qed.

(** Registering a record built from fresh objects. *)
Lemma wf_register (w w' : World) s l ty v :
  wf w →
  inherited (name s) = false →
  this w' = register s l ty (this w) →
  next w ≤ next w' →
  (∀ x, is_Some (heap w' !! x) → x < next w') →
  (∀ x, x < next w → heap w' !! x = heap w !! x) →
  viewRecord (heap w') l = Some v →
  shaped ty v →
  (∀ x, x ∈ footprint (heap w') l → next w ≤ x) →
  wf w' ∧ (∀ n', n' ≠ name s → stageView n' w' = stageView n' w).
Proof.
  intros Hwf Hcl Hthis Hnext Hb Hold Hv Hsh Hfp.
  assert (∀ n' l', records (this w) !! n' = Some l' →
            viewRecord (heap w') l' = viewRecord (heap w) l'
            ∧ footprint (heap w') l' = footprint (heap w) l') as Hother.
  { intros n' l' Hl'.
    destruct (wf_stage w Hwf n' l' Hl') as (ty' & v' & _ & Hv' & _).
    rewrite Hv'. apply viewRecord_agree; [done|].
    intros x Hx. apply Hold. by eapply live_below. }
  split; [split|].
  - intros n' l'. rewrite Hthis. cbn. rewrite (setCache_own _ _ _ Hcl).
    destruct (decide (n' = name s)) as [->|Hne].
    + rewrite !lookup_insert_eq. intros [= <-]. by exists ty, v.
    + rewrite !lookup_insert_ne by done. intros Hl'.
      destruct (wf_stage w Hwf n' l' Hl') as (ty' & v' & Hc & Hv' & Hs).
      exists ty', v'. split; [done|]. split; [|done].
      by rewrite (proj1 (Hother n' l' Hl')).
  - done.
  - assert (∀ m lm, records (this w) !! m = Some lm →
              footprint (heap w') l ## footprint (heap w) lm) as Hdisj.
    { intros m lm Hlm x Hx1 Hx2. apply Hfp in Hx1.
      pose proof (live_below w m lm x Hwf Hlm Hx2). lia. }
    intros n1 n2 l1 l2 Hne. rewrite Hthis. cbn.
    destruct (decide (n1 = name s)) as [->|Hne1];
      destruct (decide (n2 = name s)) as [->|Hne2]; [done|..].
    + rewrite lookup_insert_eq, lookup_insert_ne by done. intros [= <-] Hl2.
      rewrite (proj2 (Hother n2 l2 Hl2)). exact (Hdisj n2 l2 Hl2).
    + rewrite lookup_insert_eq, lookup_insert_ne by done. intros Hl1 [= <-].
      rewrite (proj2 (Hother n1 l1 Hl1)). symmetry. exact (Hdisj n1 l1 Hl1).
    + rewrite !lookup_insert_ne by done. intros Hl1 Hl2.
      rewrite (proj2 (Hother n1 l1 Hl1)), (proj2 (Hother n2 l2 Hl2)).
      exact (wf_sep w Hwf n1 n2 l1 l2 Hne Hl1 Hl2).
  - intros n'. rewrite Hthis. cbn. rewrite fmap_app, elem_of_app. cbn.
    rewrite list_elem_of_singleton, <- (wf_stages w Hwf n').
    destruct (decide (n' = name s)) as [->|Hne].
    + rewrite lookup_insert_eq. split; [by right|eauto].
    + rewrite lookup_insert_ne by done. split; [by left|]. by intros [?|?].
  - intros n'. rewrite Hthis. cbn.
    destruct (decide (n' = name s)) as [->|Hne]; [done|].
    rewrite lookup_insert_ne by done. apply (wf_own w Hwf).
  - intros n'. rewrite Hthis. cbn. rewrite (setCache_own _ _ _ Hcl).
    destruct (decide (n' = name s)) as [->|Hne].
    + rewrite !lookup_insert_eq. eauto.
    + rewrite !lookup_insert_ne by done. apply (wf_cache w Hwf).
  - intros n' Hne. unfold stageView. rewrite Hthis. cbn.
    rewrite lookup_insert_ne by done.
    destruct (records (this w) !! n') as [l'|] eqn:Hl'; [|done]. cbn.
    apply (Hother n' l' Hl').
Qed.

Lemma initializeStage_spec (w : World) (forceInitialize : bool) (stage : Stage) :
  wf w →
  inherited (stageName stage) = false →
  forceInitialize = true ∨ records (this w) !! stageName stage = None →
  ∃ w', initializeStage forceInitialize stage w = (Return tt, w')
    ∧ wf w'
    ∧ stageView (stageName stage) w' = Some (freshView (stageType stage))
    ∧ cache (this w') !! stageName stage = Some (stageType stage)
    ∧ (∀ n', n' ≠ stageName stage → stageView n' w' = stageView n' w)
    ∧ (∃ l, this w' = register {| name := stageName stage;
                                   type := Some (stageType stage) |} l
                                (stageType stage) (this w))
    ∧ purged w' = purged w.
Proof.
  intros Hwf Hcl Hok. unfold initializeStage.
  set (s := match stage with
            | StageName n => {| name := n; type := Some sync |}
            | StageExtened s => s
            end).
  assert (name s = stageName stage) as Hname by (by destruct stage).
  assert (default sync (type s) = stageType stage) as Hty by (by destruct stage).
  rewrite Hname, Hty. clearbody s. clear Hname Hty s.
  set (n := stageName stage) in *. set (ty := stageType stage).
  rewrite bind_unfold. cbn [gets].
  assert (truthy (getProperty w n) && negb forceInitialize = false) as ->.
  { destruct Hok as [->|Hn]; [by rewrite andb_false_r|].
    by rewrite (getProperty_undefined w n Hwf Hn Hcl). }
  pose proof (next_free w Hwf) as Hnx.
  destruct ty.
  - (* sync *)
    rewrite bind_unfold. cbn [ret]. rewrite bind_unfold. cbn [alloc].
    rewrite bind_unfold. cbn [alloc modify].
    set (h1 := <[next w := OCycles []]> (heap w)).
    set (d := {| currentRefTime := RefNumber 0; totalCycles := 0; recentCycles := next w |}).
    set (h2 := <[S (next w) := ORecord d]> h1).
    set (w' := set_this (register {| name := n; type := Some sync |} (S (next w)) sync)
                 {| this := this w; heap := h2; next := S (S (next w));
                    purged := purged w |}).
    exists w'. split; [reflexivity|].
    assert (h2 !! S (next w) = Some (ORecord d)) as Hd by apply lookup_insert_eq.
    assert (h2 !! next w = Some (OCycles [])) as Hrc.
    { unfold h2. rewrite lookup_insert_ne by lia. apply lookup_insert_eq. }
    assert (viewRecord h2 (S (next w)) = Some (freshView sync)) as Hv.
    { by apply (viewRecord_intro h2 _ d [] (VNumber 0) []). }
    destruct (wf_register w w' {| name := n; type := Some sync |} (S (next w)) sync
                (freshView sync) Hwf Hcl eq_refl) as [Hwf' Hoth].
    + cbn. lia.
    + cbn. intros x [o Hx]. unfold h2, h1 in Hx.
      destruct (decide (x = S (next w))) as [->|?]; [lia|].
      rewrite lookup_insert_ne in Hx by done.
      destruct (decide (x = next w)) as [->|?]; [lia|].
      rewrite lookup_insert_ne in Hx by done.
      pose proof (wf_fresh w Hwf x (mk_is_Some _ _ Hx)). lia.
    + cbn. intros x Hx. unfold h2, h1.
      rewrite !lookup_insert_ne by lia. done.
    + exact Hv.
    + done.
    + cbn. intros x. rewrite (footprint_record _ _ d) by done.
      change (recentCycles d) with (next w).
      change (currentRefTime d) with (RefNumber 0%Z).
      rewrite Hrc. cbn. intros Hx.
      assert (x = S (next w) ∨ x = next w) as [->| ->] by set_solver; lia.
    + split; [exact Hwf'|]. split; [|split; [|split; [exact Hoth|split; [by eexists|done]]]].
      * unfold stageView. cbn. rewrite lookup_insert_eq. cbn. exact Hv.
      * cbn. rewrite (setCache_own _ _ _ Hcl). apply lookup_insert_eq.
  - (* async *)
    rewrite bind_unfold, bind_unfold. cbn [alloc ret]. rewrite bind_unfold. cbn [alloc].
    rewrite bind_unfold. cbn [alloc modify].
    set (h0 := <[next w := ONumbers []]> (heap w)).
    set (h1 := <[S (next w) := OCycles []]> h0).
    set (d := {| currentRefTime := RefArray (next w); totalCycles := 0;
                 recentCycles := S (next w) |}).
    set (h2 := <[S (S (next w)) := ORecord d]> h1).
    set (w' := set_this (register {| name := n; type := Some async |} (S (S (next w))) async)
                 {| this := this w; heap := h2; next := S (S (S (next w)));
                    purged := purged w |}).
    exists w'. split; [reflexivity|].
    assert (h2 !! S (S (next w)) = Some (ORecord d)) as Hd by apply lookup_insert_eq.
    assert (h2 !! S (next w) = Some (OCycles [])) as Hrc.
    { unfold h2. rewrite lookup_insert_ne by lia. apply lookup_insert_eq. }
    assert (h2 !! next w = Some (ONumbers [])) as Ha.
    { unfold h2, h1. rewrite !lookup_insert_ne by lia. apply lookup_insert_eq. }
    assert (viewRecord h2 (S (S (next w))) = Some (freshView async)) as Hv.
    { apply (viewRecord_intro h2 _ d [] (VArray []) []); try done. cbn. by rewrite Ha. }
    destruct (wf_register w w' {| name := n; type := Some async |} (S (S (next w))) async
                (freshView async) Hwf Hcl eq_refl) as [Hwf' Hoth].
    + cbn. lia.
    + cbn. intros x [o Hx]. unfold h2, h1, h0 in Hx.
      destruct (decide (x = S (S (next w)))) as [->|?]; [lia|].
      rewrite lookup_insert_ne in Hx by done.
      destruct (decide (x = S (next w))) as [->|?]; [lia|].
      rewrite lookup_insert_ne in Hx by done.
      destruct (decide (x = next w)) as [->|?]; [lia|].
      rewrite lookup_insert_ne in Hx by done.
      pose proof (wf_fresh w Hwf x (mk_is_Some _ _ Hx)). lia.
    + cbn. intros x Hx. unfold h2, h1, h0.
      rewrite !lookup_insert_ne by lia. done.
    + exact Hv.
    + done.
    + cbn. intros x. rewrite (footprint_record _ _ d) by done.
      assert (h2 !! recentCycles d = Some (OCycles [])) as -> by exact Hrc.
      change (recentCycles d) with (S (next w)).
      change (currentRefTime d) with (RefArray (next w)).
      cbn. intros Hx.
      assert (x = S (S (next w)) ∨ x = S (next w) ∨ x = next w) as [->|[->| ->]]
        by set_solver; lia.
    + split; [exact Hwf'|]. split; [|split; [|split; [exact Hoth|split; [by eexists|done]]]].
      * unfold stageView. cbn. rewrite lookup_insert_eq. cbn. exact Hv.
      * cbn. rewrite (setCache_own _ _ _ Hcl). apply lookup_insert_eq.
Qed.

(** The duplicate test passes on whatever the name reads as, if truthy. *)
Lemma initializeStage_truthy (w : World) (stage : Stage) :
  truthy (getProperty w (stageName stage)) = true →
  initializeStage false stage w = (Throw (DuplicateStage (stageName stage)), w).
Proof.
  intros Hreg. unfold initializeStage.
  set (s := match stage with
            | StageName n => {| name := n; type := Some sync |}
            | StageExtened s => s
            end).
  assert (name s = stageName stage) as -> by (by destruct stage).
  rewrite bind_unfold. cbn [gets].
  by rewrite Hreg.
Qed.

Lemma initializeStage_duplicate (w : World) (stage : Stage) :
  is_Some (records (this w) !! stageName stage) →
  initializeStage false stage w = (Throw (DuplicateStage (stageName stage)), w).
Proof.
  intros [l Hl]. apply initializeStage_truthy.
  by rewrite (getProperty_own w _ l Hl).
Qed.

Lemma getProperty_truthy_inherited (w : World) (n : StageNameType) :
  inherited n = true → truthy (getProperty w n) = true.
Proof.
  intros Hn. destruct (records (this w) !! n) as [l|] eqn:Hl.
  - by rewrite (getProperty_own w n l Hl).
  - by rewrite (getProperty_inherited w n Hl Hn).
Qed.

(** A name of [Object.prototype] is turned down as a duplicate, although
    no stage has it. *)
Lemma initializeStage_inherited (w : World) (stage : Stage) :
  inherited (stageName stage) = true →
  initializeStage false stage w = (Throw (DuplicateStage (stageName stage)), w).
Proof.
  intros Hn. apply initializeStage_truthy. by apply getProperty_truthy_inherited.
Qed.

Lemma initializeStage_cases (w : World) (force : bool) (st : Stage) :
  force = false ∨ inherited (stageName st) = false →
  (∃ e, initializeStage force st w = (Throw e, w))
  ∨ (inherited (stageName st) = false
     ∧ (force = true ∨ records (this w) !! stageName st = None)).
Proof.
  intros Hcl. destruct (inherited (stageName st)) eqn:Hi.
  - destruct Hcl as [->|?]; [|done]. left.
    rewrite initializeStage_inherited by done. eauto.
  - destruct force; [right; eauto|].
    destruct (records (this w) !! stageName st) as [l|] eqn:Hl.
    + left. rewrite initializeStage_duplicate by eauto. eauto.
    + right. eauto.
Qed.

Lemma admissible_cons force st sts :
  admissible force (st :: sts) →
  (force = false ∨ inherited (stageName st) = false) ∧ admissible force sts.
Proof.
  intros [?|H]; [split; by left|]. inversion H; subst. split; by right.
Qed.

Lemma initializePerformanceData_post (sts : list Stage) (force : bool) (w w' : World) :
  wf w →
  admissible force sts →
  initializePerformanceData sts force w = (Return tt, w') →
  wf w'
  ∧ (∀ n, n ∈ stageName <$> sts →
       ∃ ty, stageView n w' = Some (freshView ty) ∧ cache (this w') !! n = Some ty)
  ∧ (∀ n, n ∉ stageName <$> sts → stageView n w' = stageView n w)
  ∧ (∀ n, is_Some (records (this w') !! n)
          ↔ is_Some (records (this w) !! n) ∨ n ∈ stageName <$> sts)
  ∧ static w w'
  ∧ skipRecording (this w') = skipRecording (this w)
  ∧ purged w' = purged w.
Proof.
  unfold initializePerformanceData.
  revert w. induction sts as [|st sts IH]; intros w Hwf Hcl Hrun.
  - cbn in Hrun. injection Hrun as <-. unfold static.
    split; [done|]. split; [intros n Hn; by apply elem_of_nil in Hn|].
    split; [done|]. split; [|done]. intros n. split; [by left|].
    intros [?|Hn]; [done|by apply elem_of_nil in Hn].
  - cbn [forEach] in Hrun. rewrite bind_unfold in Hrun.
    apply admissible_cons in Hcl as [Hcl1 Hcl2].
    destruct (initializeStage_cases w force st Hcl1) as [[e He]|[Hi Hok]].
    { by rewrite He in Hrun. }
    destruct (initializeStage_spec w force st Hwf Hi Hok)
      as (w1 & Hrun1 & Hwf1 & Hv1 & Hc1 & Hoth1 & [l Hthis1] & Hpur1).
    rewrite Hrun1 in Hrun.
    destruct (IH w1 Hwf1 Hcl2 Hrun) as (Hwf' & Hin & Hout & Hdom & Hst & Hskip & Hpur).
    split; [done|]. split; [|split; [|split; [|split; [|split]]]].
    + intros n Hn. cbn in Hn. apply elem_of_cons in Hn.
      destruct (decide (n ∈ stageName <$> sts)) as [Hn'|Hn'].
      { by apply Hin. }
      destruct Hn as [->|Hn]; [|done].
      exists (stageType st). rewrite (Hout _ Hn'). split; [done|].
      clear - Hrun Hwf1 Hc1 Hn' Hcl2. revert Hn' Hcl2 w1 Hrun Hwf1 Hc1.
      induction sts as [|st' sts IH']; intros Hn' Hcl2 w1 Hrun Hwf1 Hc1.
      { cbn in Hrun. by injection Hrun as <-. }
      cbn [forEach] in Hrun. rewrite bind_unfold in Hrun.
      cbn in Hn'. apply not_elem_of_cons in Hn' as [Hne Hn'].
      apply admissible_cons in Hcl2 as [Hcl1' Hcl2'].
      destruct (initializeStage_cases w1 force st' Hcl1') as [[e He]|[Hi' Hok]].
      { by rewrite He in Hrun. }
      destruct (initializeStage_spec w1 force st' Hwf1 Hi' Hok)
        as (w2 & Hrun2 & Hwf2 & _ & _ & _ & [l Hthis2] & _).
      rewrite Hrun2 in Hrun. apply (IH' Hn' Hcl2' w2 Hrun Hwf2).
      rewrite Hthis2. cbn. rewrite (setCache_own _ _ _ Hi').
      by rewrite lookup_insert_ne.
    + intros n Hn. cbn in Hn. apply not_elem_of_cons in Hn as [Hne Hn].
      rewrite (Hout n Hn). by apply Hoth1.
    + intros n. rewrite Hdom, Hthis1. cbn. rewrite elem_of_cons.
      destruct (decide (n = stageName st)) as [->|Hne].
      * rewrite lookup_insert_eq. split; [by right; left|intros _; left; eauto].
      * rewrite lookup_insert_ne by done. tauto.
    + destruct Hst as (? & ? & ?). unfold static. rewrite Hthis1 in *. cbn in *. done.
    + rewrite Hskip, Hthis1. done.
    + congruence.
Qed.

(** With force no round of the loop throws. *)
Lemma initializeStage_force (st : Stage) (w : World) :
  ∃ w', initializeStage true st w = (Return tt, w').
Proof.
  unfold initializeStage. rewrite bind_unfold. cbn [gets]. rewrite andb_false_r.
  destruct (default sync _); eexists; reflexivity.
Qed.

Lemma initializePerformanceData_force (sts : list Stage) (w : World) :
  ∃ w', initializePerformanceData sts true w = (Return tt, w').
Proof.
  unfold initializePerformanceData.
  revert w. induction sts as [|st sts IH]; intros w.
  - by exists w.
  - cbn [forEach]. rewrite bind_unfold.
    destruct (initializeStage_force st w) as (w1 & ->).
    by apply IH.
Qed.

Lemma initializePerformanceData_duplicate (sts : list Stage) (w : World) s :
  wf w → s ∈ sts → is_Some (records (this w) !! stageName s) →
  ∃ n w', initializePerformanceData sts false w = (Throw (DuplicateStage n), w').
Proof.
  unfold initializePerformanceData.
  revert w. induction sts as [|st sts IH]; intros w Hwf Hs Hreg.
  - by apply elem_of_nil in Hs.
  - cbn [forEach]. rewrite bind_unfold.
    destruct (records (this w) !! stageName st) as [l|] eqn:Hst.
    + rewrite initializeStage_duplicate by eauto. eauto.
    + destruct (inherited (stageName st)) eqn:Hi.
      { rewrite initializeStage_inherited by done. eauto. }
      destruct (initializeStage_spec w false st Hwf Hi (or_intror Hst))
        as (w1 & -> & Hwf1 & _ & _ & _ & [l Hthis1] & _).
      apply elem_of_cons in Hs as [->|Hs].
      { rewrite Hst in Hreg. by destruct Hreg. }
      apply IH; [done..|]. rewrite Hthis1. cbn.
      destruct (decide (stageName s = stageName st)) as [->|Hne].
      * rewrite lookup_insert_eq. eauto.
      * by rewrite lookup_insert_ne.
Qed.

(** ** The calls that do nothing, and those that raise *)

Lemma startStage_skip (w : World) perfNow n :
  skipRecording (this w) = true → startStage perfNow n w = (Return tt, w).
Proof.
  intros H. unfold startStage. rewrite bind_unfold. cbn [gets]. rewrite H.
  by rewrite bind_unfold.
Qed.

Lemma startStage_falsy (w : World) perfNow n :
  truthy (getProperty w n) = false → startStage perfNow n w = (Return tt, w).
Proof.
  intros H. unfold startStage. rewrite bind_unfold. cbn [gets].
  rewrite bind_unfold. cbn [gets]. by rewrite H, andb_false_r.
Qed.

Lemma startStage_unregistered (w : World) perfNow (n : StageNameType) :
  wf w → records (this w) !! n = None → inherited n = false →
  startStage perfNow n w = (Return tt, w).
Proof.
  intros Hwf Hn Hi. apply startStage_falsy.
  by rewrite (getProperty_undefined w n Hwf Hn Hi).
Qed.

Lemma cache_unregistered (w : World) (n : StageNameType) :
  wf w → records (this w) !! n = None → cache (this w) !! n = None.
Proof.
  intros Hwf Hn. destruct (cache (this w) !! n) as [ty|] eqn:Hc; [|done].
  destruct (wf_cache w Hwf n (mk_is_Some _ _ Hc)) as [l Hl]. congruence.
Qed.

(** On a name that only [Object.prototype] has, [startStage] finds a value
    without [currentRefTime] and raises at [push]. *)
Lemma startStage_inherited (w : World) perfNow (n : StageNameType) :
  wf w → skipRecording (this w) = false →
  records (this w) !! n = None → inherited n = true →
  startStage perfNow n w = (Throw TypeError, w).
Proof.
  intros Hwf Hskip Hn Hi. unfold startStage. rewrite bind_unfold. cbn [gets].
  rewrite Hskip. rewrite bind_unfold. cbn [gets].
  rewrite (getProperty_inherited w n Hn Hi). cbn [negb andb truthy].
  rewrite bind_unfold. cbn [gets]. rewrite (cache_unregistered w n Hwf Hn).
  by rewrite decide_False.
Qed.

Lemma endStage_skip (w : World) perfNow n event :
  skipRecording (this w) = true → endStage perfNow n event w = (Return tt, w).
Proof.
  intros H. unfold endStage. rewrite bind_unfold. cbn [gets]. rewrite H.
  by rewrite bind_unfold.
Qed.

Lemma endStage_falsy (w : World) perfNow n event :
  truthy (getProperty w n) = false → endStage perfNow n event w = (Return tt, w).
Proof.
  intros H. unfold endStage. rewrite bind_unfold. cbn [gets].
  rewrite bind_unfold. cbn [gets]. by rewrite H, andb_false_r.
Qed.

Lemma endStage_unregistered (w : World) perfNow (n : StageNameType) event :
  wf w → records (this w) !! n = None → inherited n = false →
  endStage perfNow n event w = (Return tt, w).
Proof.
  intros Hwf Hn Hi. apply endStage_falsy.
  by rewrite (getProperty_undefined w n Hwf Hn Hi).
Qed.

(** An event stamped zero stops at the guard, whatever the name and the
    state of the arena. *)
Lemma endStage_event_zero (w : World) perfNow n :
  endStage perfNow n (Some 0%Z) w = (Return tt, w).
Proof.
  unfold endStage. rewrite bind_unfold. cbn [gets].
  rewrite bind_unfold. cbn [gets].
  destruct (negb (skipRecording (this w)) && truthy (getProperty w n)); [|done].
  rewrite bind_unfold. cbn [gets]. by rewrite bind_unfold.
Qed.

(** On a name that only [Object.prototype] has, [endStage] raises: at
    [shift] without an event, in [markTime] with one. *)
Lemma endStage_inherited (w : World) perfNow (n : StageNameType) (event : option Z) :
  wf w → skipRecording (this w) = false →
  records (this w) !! n = None → inherited n = true →
  event ≠ Some 0%Z →
  endStage perfNow n event w = (Throw TypeError, w).
Proof.
  intros Hwf Hskip Hn Hi Hev. unfold endStage. rewrite bind_unfold. cbn [gets].
  rewrite Hskip. rewrite bind_unfold. cbn [gets].
  rewrite (getProperty_inherited w n Hn Hi). cbn [negb andb truthy].
  rewrite bind_unfold. cbn [gets]. rewrite (cache_unregistered w n Hwf Hn).
  rewrite bind_unfold. destruct event as [ts|].
  - cbn [ret]. rewrite bool_decide_eq_false_2 by congruence.
    rewrite bind_unfold. unfold markTime. rewrite bind_unfold.
    unfold recordOf. rewrite bind_unfold. cbn [gets].
    by rewrite (getProperty_inherited w n Hn Hi).
  - rewrite bind_unfold. cbn [get_currentRefTime ret]. by rewrite decide_False.
Qed.

(** On a name without a record a call that returns has changed nothing. *)
Lemma startStage_unregistered_inv (w w' : World) perfNow (n : StageNameType) :
  wf w → records (this w) !! n = None →
  startStage perfNow n w = (Return tt, w') → w' = w.
Proof.
  intros Hwf Hn Hrun.
  destruct (skipRecording (this w)) eqn:Hskip.
  { rewrite startStage_skip in Hrun by done. by injection Hrun. }
  destruct (inherited n) eqn:Hi.
  - by rewrite startStage_inherited in Hrun.
  - rewrite startStage_unregistered in Hrun by done. by injection Hrun.
Qed.

Lemma endStage_unregistered_inv (w w' : World) perfNow (n : StageNameType) event :
  wf w → records (this w) !! n = None →
  endStage perfNow n event w = (Return tt, w') → w' = w.
Proof.
  intros Hwf Hn Hrun.
  destruct (skipRecording (this w)) eqn:Hskip.
  { rewrite endStage_skip in Hrun by done. by injection Hrun. }
  destruct (inherited n) eqn:Hi.
  - destruct (decide (event = Some 0%Z)) as [->|Hev].
    + rewrite endStage_event_zero in Hrun. by injection Hrun.
    + by rewrite endStage_inherited in Hrun.
  - rewrite endStage_unregistered in Hrun by done. by injection Hrun.
Qed.

(** No pending reference, no event: the guard returns before any write. *)
Lemma endStage_unmatched (w : World) perfNow n v :
  wf w →
  stageView n w = Some v →
  vCurrentRefTime v = VNumber 0 ∨ vCurrentRefTime v = VArray [] →
  endStage perfNow n None w = (Return tt, w).
Proof.
  intros Hwf Hv Hnone. unfold stageView in Hv.
  destruct (records (this w) !! n) as [l|] eqn:Hl; [|done]. cbn in Hv.
  destruct (wf_stage w Hwf n l Hl) as (ty & v' & Hty & Hv' & Hsh).
  assert (v' = v) as -> by congruence.
  destruct (viewRecord_inv _ _ _ Hv) as (d & ls & Hd & Hx & _).
  destruct (skipRecording (this w)) eqn:Hskip; [by apply endStage_skip|].
  unfold endStage. rewrite bind_unfold. cbn [gets]. rewrite Hskip.
  rewrite bind_unfold. cbn [gets]. rewrite (getProperty_own w n l Hl).
  cbn [negb andb truthy].
  rewrite bind_unfold. cbn [gets]. rewrite Hty.
  rewrite bind_unfold, (get_currentRefTime_eq _ _ _ _ Hd).
  unfold shaped in Hsh. destruct ty, Hnone as [Hz|Hz]; rewrite Hz in Hsh, Hx; try done.
  - rewrite decide_True by done. by rewrite (viewRefTime_number _ _ _ Hx).
  - rewrite decide_False by done.
    destruct (viewRefTime_array _ _ _ Hx) as (a & -> & Ha).
    by rewrite (shiftNumber_nil _ _ Ha).
Qed.

(** ** Worlds reached from the constructor *)

Lemma wf_set_skipRecording (w : World) b :
  wf w → wf (set_this (set_skipRecording b) w).
Proof. intros [H1 H2 H3 H4 H5 H6]. by split. Qed.

Lemma wf_admissible (w : World) :
  wf w → admissible true (StageExtened <$> stages (this w)).
Proof.
  intros Hwf. right. apply Forall_fmap, Forall_forall. intros s Hs. cbn.
  apply (wf_own w Hwf), (wf_stages w Hwf), list_elem_of_fmap. eauto.
Qed.

(** A call raises a [TypeError] before any write, or returns and keeps the
    arena well formed. *)
Lemma call_spec (c : Call) (w : World) :
  wf w →
  if raises w c then call c w = (Throw TypeError, w)
  else ∃ w', call c w = (Return tt, w')
    ∧ wf w'
    ∧ static w w'
    ∧ (∀ n, is_Some (records (this w') !! n) ↔ is_Some (records (this w) !! n)).
Proof.
  intros Hwf.
  assert (∃ w', ret tt w = (Return tt, w') ∧ wf w' ∧ static w w'
            ∧ (∀ n, is_Some (records (this w') !! n) ↔ is_Some (records (this w) !! n)))
    as Hsame by (exists w; unfold static; done).
  assert (∀ n l w' v', records (this w) !! n = Some l → effect n l w w' v' →
            wf w' ∧ static w w'
            ∧ (∀ n, is_Some (records (this w') !! n) ↔ is_Some (records (this w) !! n)))
    as Heff.
  { intros n l w' v' Hl E. split; [apply (eff_wf _ _ _ _ _ E)|].
    unfold static. by rewrite (eff_this _ _ _ _ _ E). }
  destruct c as [perfNow n|perfNow n event|n| |detail]; cbn [call raises].
  - destruct (skipRecording (this w)) eqn:Hskip; cbn [negb andb].
    { by rewrite startStage_skip. }
    destruct (getProperty_cases w n Hwf)
      as [(l & Hl & Hi & _)|[(Hl & Hi & _)|(Hl & Hi & _)]]; rewrite Hi.
    + destruct (wf_stage w Hwf n l Hl) as (ty & v & Hty & Hv & _).
      destruct (startStage_spec w n l ty v perfNow Hwf Hskip Hl Hty Hv)
        as (w' & -> & E & _).
      exists w'. split; [done|]. by eapply Heff.
    + by apply startStage_inherited.
    + by rewrite startStage_unregistered.
  - destruct (skipRecording (this w)) eqn:Hskip; cbn [negb andb].
    { by rewrite endStage_skip. }
    destruct (getProperty_cases w n Hwf)
      as [(l & Hl & Hi & _)|[(Hl & Hi & _)|(Hl & Hi & _)]]; rewrite Hi; cbn [andb].
    + destruct (wf_stage w Hwf n l Hl) as (ty & v & Hty & Hv & _).
      destruct (endStage_spec w n l ty v perfNow event Hwf Hskip Hl Hty Hv)
        as (w' & -> & E).
      exists w'. split; [done|].
      destruct (cycleOf perfNow event v); destruct E as [E _]; by eapply Heff.
    + case_bool_decide as Hev; cbn [negb].
      * subst event. by rewrite endStage_event_zero.
      * by apply endStage_inherited.
    + by rewrite endStage_unregistered.
  - exact Hsame.
  - unfold on_reset_performance_data. rewrite bind_unfold. cbn [gets].
    destruct (enableLiveDebug (this w)); [|exact Hsame].
    rewrite bind_unfold. cbn [gets].
    destruct (initializePerformanceData_force (StageExtened <$> stages (this w)) w)
      as (w' & Hrun).
    destruct (initializePerformanceData_post _ _ _ _ Hwf (wf_admissible w Hwf) Hrun)
      as (Hwf' & _ & _ & Hdom & Hst & _).
    exists w'. split; [done|]. split; [done|]. split; [done|].
    intros n. rewrite Hdom. rewrite <- list_fmap_compose.
    change (stageName ∘ StageExtened) with name.
    rewrite <- (wf_stages w Hwf n). tauto.
  - unfold on_init_performance_data. rewrite bind_unfold. cbn [gets].
    destruct detail as [skip|], (enableLiveDebug (this w)) eqn:Hlive;
      [|exact Hsame|done|exact Hsame].
    cbn [modify]. eexists. split; [done|].
    split; [by apply wf_set_skipRecording|]. done.
Qed.

(** A call that has returned was not one of those that raise. *)
Lemma call_returns (c : Call) (w w' : World) :
  wf w →
  call c w = (Return tt, w') →
  raises w c = false
  ∧ wf w'
  ∧ static w w'
  ∧ (∀ n, is_Some (records (this w') !! n) ↔ is_Some (records (this w) !! n)).
Proof.
  intros Hwf Hc. pose proof (call_spec c w Hwf) as H.
  destruct (raises w c); [congruence|].
  destruct H as (w1 & Hc1 & H). by assert (w1 = w') as -> by congruence.
Qed.

Lemma run_spec (cs : list Call) (w w' : World) :
  wf w →
  run cs w = (Return tt, w') →
  wf w'
  ∧ static w w'
  ∧ (∀ n, is_Some (records (this w') !! n) ↔ is_Some (records (this w) !! n)).
Proof.
  unfold run. revert w. induction cs as [|c cs IH]; intros w Hwf Hrun.
  - cbn in Hrun. injection Hrun as <-. unfold static. done.
  - cbn [forEach] in Hrun. rewrite bind_unfold in Hrun.
    destruct (call c w) as [[[]|e] w1] eqn:Hc; [|done].
    destruct (call_returns c w w1 Hwf Hc) as (_ & Hwf1 & Hst1 & Hdom1).
    destruct (IH w1 Hwf1 Hrun) as (Hwf' & Hst' & Hdom').
    split; [done|]. split.
    + unfold static in *. destruct Hst1 as (? & ? & ?), Hst' as (? & ? & ?).
      repeat split; congruence.
    + intros n. by rewrite Hdom', Hdom1.
Qed.

Lemma wf_empty (p : PerformanceArena) :
  stages p = [] → records p = ∅ → cache p = ∅ →
  wf {| this := p; heap := ∅; next := 0; purged := [] |}.
Proof.
  intros Hst Hrec Hc. split; cbn.
  - intros n l. by rewrite Hrec, lookup_empty.
  - intros l [o Ho]. by rewrite lookup_empty in Ho.
  - intros n1 n2 l1 l2 _. by rewrite Hrec, lookup_empty.
  - intros n. rewrite Hrec, Hst, lookup_empty. cbn. split.
    + by intros [? ?].
    + intros H. by apply elem_of_nil in H.
  - intros n. rewrite Hrec, lookup_empty. by intros [? ?].
  - intros n. rewrite Hc, lookup_empty. by intros [? ?].
Qed.

Lemma constructor_spec sts skip cap live cb (w0 : World) :
  constructor sts skip cap live cb = (Return tt, w0) →
  wf w0
  ∧ (∀ n, is_Some (records (this w0) !! n) ↔ n ∈ stageName <$> sts)
  ∧ (∀ n, n ∈ stageName <$> sts →
       ∃ ty, stageView n w0 = Some (freshView ty) ∧ cache (this w0) !! n = Some ty)
  ∧ enableLiveDebug (this w0) = default false live
  ∧ onPurgeCallback (this w0) = cb
  ∧ skipRecording (this w0) = default false skip
  ∧ purged w0 = [].
Proof.
  unfold constructor. intros Hrun.
  apply initializePerformanceData_post in Hrun; [|by apply wf_empty|by left].
  destruct Hrun as (Hwf & Hin & _ & Hdom & (Hlive & _ & Hcb) & Hskip & Hpur).
  cbn in *. split; [done|]. split; [|done].
  intros n. rewrite Hdom, lookup_empty. split; [|by right].
  intros [[? ?]|?]; done.
Qed.

Lemma reached_spec sts skip cap live cb cs (w : World) :
  reached sts skip cap live cb cs w →
  wf w
  ∧ (∀ n, is_Some (records (this w) !! n) ↔ n ∈ stageName <$> sts)
  ∧ enableLiveDebug (this w) = default false live
  ∧ onPurgeCallback (this w) = cb.
Proof.
  intros (w0 & Hnew & Hrun).
  destruct (constructor_spec _ _ _ _ _ _ Hnew) as (Hwf0 & Hdom0 & _ & Hlive0 & Hcb0 & _).
  destruct (run_spec cs w0 w Hwf0 Hrun) as (Hwf & (Hlive & _ & Hcb) & Hdom).
  split; [done|]. split; [|split; congruence].
  intros n. by rewrite Hdom, Hdom0.
Qed.

(** A call that does not raise returns, and each stage moves by
    [stageStep]. *)
Lemma call_stage (c : Call) (w : World) n ty v :
  wf w →
  stageView n w = Some v →
  cache (this w) !! n = Some ty →
  raises w c = false →
  ∃ w' v', call c w = (Return tt, w')
    ∧ stageView n w' = Some v'
    ∧ stageStep w n ty v c v'.
Proof.
  intros Hwf Hv Hty Hnr.
  assert (∃ l, records (this w) !! n = Some l ∧ viewRecord (heap w) l = Some v)
    as (l & Hl & Hvl).
  { unfold stageView in Hv. destruct (records (this w) !! n) as [l|]; [|done]. eauto. }
  destruct c as [perfNow m|perfNow m event|m| |detail]; cbn [call]; cbn [raises] in Hnr.
  - destruct (skipRecording (this w)) eqn:Hskip.
    { rewrite startStage_skip by done. exists w, v. split; [done|]. split; [done|].
      apply step_untouched. by right. }
    destruct (decide (m = n)) as [->|Hne].
    + destruct (startStage_spec w n l ty v perfNow Hwf Hskip Hl Hty Hvl) as (w' & -> & E & _).
      exists w', (started ty perfNow v). split; [done|].
      split; [by eapply effect_stageView|by constructor].
    + destruct (records (this w) !! m) as [lm|] eqn:Hlm.
      2:{ rewrite startStage_unregistered by done. exists w, v. split; [done|].
          split; [done|]. apply step_untouched. by left. }
      destruct (wf_stage w Hwf m lm Hlm) as (tym & vm & Htym & Hvm & _).
      destruct (startStage_spec w m lm tym vm perfNow Hwf Hskip Hlm Htym Hvm)
        as (w' & -> & E & _).
      exists w', v. split; [done|]. split.
      * rewrite <- Hv. by eapply effect_stageView_other.
      * apply step_untouched. by left.
  - destruct (skipRecording (this w)) eqn:Hskip.
    { rewrite endStage_skip by done. exists w, v. split; [done|]. split; [done|].
      apply step_untouched. by right. }
    destruct (decide (m = n)) as [->|Hne].
    + destruct (endStage_spec w n l ty v perfNow event Hwf Hskip Hl Hty Hvl) as (w' & -> & E).
      destruct (cycleOf perfNow event v) as [c|] eqn:Hc; destruct E as [E _].
      * eexists w', _. split; [done|].
        split; [by eapply effect_stageView|by constructor].
      * eexists w', _. split; [done|].
        split; [by eapply effect_stageView|by constructor].
    + destruct (records (this w) !! m) as [lm|] eqn:Hlm.
      2:{ assert (endStage perfNow m event w = (Return tt, w)) as ->.
          { destruct (inherited m) eqn:Hi; [|by apply endStage_unregistered].
            cbn in Hnr. apply negb_false_iff, bool_decide_eq_true_1 in Hnr as ->.
            apply endStage_event_zero. }
          exists w, v. split; [done|].
          split; [done|]. apply step_untouched. by left. }
      destruct (wf_stage w Hwf m lm Hlm) as (tym & vm & Htym & Hvm & _).
      destruct (endStage_spec w m lm tym vm perfNow event Hwf Hskip Hlm Htym Hvm)
        as (w' & -> & E).
      exists w', v. split; [done|]. split.
      * rewrite <- Hv.
        destruct (cycleOf perfNow event vm); destruct E as [E _];
          by eapply effect_stageView_other.
      * apply step_untouched. by left.
  - exists w, v. split; [done|]. split; [done|]. by apply step_untouched.
  - unfold on_reset_performance_data. rewrite bind_unfold. cbn [gets].
    destruct (enableLiveDebug (this w)) eqn:Hlive.
    2:{ exists w, v. split; [done|]. split; [done|]. by apply step_untouched. }
    rewrite bind_unfold. cbn [gets].
    destruct (initializePerformanceData_force (StageExtened <$> stages (this w)) w)
      as (w' & Hrun).
    destruct (initializePerformanceData_post _ _ _ _ Hwf (wf_admissible w Hwf) Hrun)
      as (_ & Hin & _).
    destruct (Hin n) as (ty' & Hv' & _).
    { rewrite <- list_fmap_compose. change (stageName ∘ StageExtened) with name.
      apply (wf_stages w Hwf). eauto. }
    exists w', (freshView ty'). split; [done|]. split; [done|]. by constructor.
  - unfold on_init_performance_data. rewrite bind_unfold. cbn [gets].
    destruct (enableLiveDebug (this w)) eqn:Hlive.
    + destruct detail as [skip|]; [|done].
      cbn [modify]. eexists _, v. split; [done|]. split; [exact Hv|].
      by apply step_untouched.
    + exists w, v. split; [done|]. split; [done|]. by apply step_untouched.
Qed.

Lemma static_trans (w1 w2 w3 : World) : static w1 w2 → static w2 w3 → static w1 w3.
Proof. unfold static. intros (? & ? & ?) (? & ? & ?). repeat split; congruence. Qed.

(** Induction along the calls of a run. *)
Lemma run_invariant (P : World → Prop) (cs : list Call) (w0 w : World) :
  wf w0 →
  P w0 →
  (∀ c w1 w2, wf w1 → static w0 w1 → P w1 → call c w1 = (Return tt, w2) → P w2) →
  run cs w0 = (Return tt, w) →
  P w.
Proof.
  unfold run. revert w0. induction cs as [|c cs IH]; intros w0 Hwf H0 Hstep Hrun.
  - cbn in Hrun. by injection Hrun as <-.
  - cbn [forEach] in Hrun. rewrite bind_unfold in Hrun.
    destruct (call c w0) as [[[]|e] w1] eqn:Hc; [|done].
    destruct (call_returns c w0 w1 Hwf Hc) as (_ & Hwf1 & Hst1 & _).
    apply (IH w1 Hwf1); [| |exact Hrun].
    + apply (Hstep c w0 w1); try done.
    + intros c' w2 w3 Hwf2 Hst2. apply Hstep; [done|]. by eapply static_trans.
Qed.

Lemma stageView_registered (w : World) n v :
  stageView n w = Some v → is_Some (records (this w) !! n).
Proof. unfold stageView. destruct (records (this w) !! n); [eauto|done]. Qed.

Lemma registered_stageView (w : World) n :
  wf w → is_Some (records (this w) !! n) →
  ∃ ty v, cache (this w) !! n = Some ty ∧ stageView n w = Some v.
Proof.
  intros Hwf [l Hl]. destruct (wf_stage w Hwf n l Hl) as (ty & v & Hty & Hv & _).
  exists ty, v. split; [done|]. unfold stageView. by rewrite Hl.
Qed.

(** The stage a call leaves behind, read back from the one it found. *)
Lemma call_stage_back (c : Call) (w w' : World) n v' :
  wf w →
  call c w = (Return tt, w') →
  stageView n w' = Some v' →
  ∃ ty v, cache (this w) !! n = Some ty ∧ stageView n w = Some v
          ∧ stageStep w n ty v c v'.
Proof.
  intros Hwf Hc Hv'.
  destruct (call_returns c w w' Hwf Hc) as (Hnr & _ & _ & Hdom).
  destruct (registered_stageView w n Hwf) as (ty & v & Hty & Hv).
  { apply Hdom. by eapply stageView_registered. }
  destruct (call_stage c w n ty v Hwf Hv Hty Hnr) as (w2 & v2 & Hc2 & Hv2 & Hstep).
  assert (w2 = w') as -> by congruence.
  assert (v2 = v') as -> by congruence.
  by exists ty, v.
Qed.

(** In steady-state mode no cycle outlives the call that recorded it. *)
Lemma steady_state_recent_empty sts skip cap live cb cs (w : World) n v :
  reached sts skip cap live cb cs w →
  enableLiveDebug (this w) = false →
  stageView n w = Some v →
  vRecentCycles v = [].
Proof.
  intros (w0 & Hnew & Hrun) Hlive. revert n v.
  destruct (constructor_spec _ _ _ _ _ _ Hnew) as (Hwf0 & Hdom0 & Hfresh0 & Hlive0 & _).
  destruct (run_spec cs w0 w Hwf0 Hrun) as (_ & (Hst & _) & _).
  apply (run_invariant (λ w, ∀ n v, stageView n w = Some v → vRecentCycles v = [])
           cs w0 w Hwf0); [| |done].
  - intros n v Hv. destruct (Hfresh0 n) as (ty & Hf & _).
    { apply Hdom0. by eapply stageView_registered. }
    assert (v = freshView ty) as -> by congruence. done.
  - intros c w1 w2 Hwf1 (Hst1 & _) IH Hc n v' Hv'.
    destruct (call_stage_back c w1 w2 n v' Hwf1 Hc Hv') as (ty & v & Hty & Hv & Hstep).
    specialize (IH n v Hv).
    assert (enableLiveDebug (this w1) = false) as Hl1 by congruence.
    inversion Hstep; subst; try done.
    + unfold started. destruct ty, (vCurrentRefTime v); done.
    + unfold dequeued. destruct event, (vCurrentRefTime v) as [|[|]]; done.
    + by rewrite Hl1.
Qed.

(** What a call does to the lifetime counter. *)
Lemma stageStep_total (w : World) n ty v c v' :
  stageStep w n ty v c v' →
  vTotalCycles v' =
    match c with
    | CEnd perfNow m event =>
        if bool_decide (m = n)
           && (negb (skipRecording (this w))
               && bool_decide (is_Some (cycleOf perfNow event v)))
        then (vTotalCycles v + 1)%Z else vTotalCycles v
    | CReset => if enableLiveDebug (this w) then 0%Z else vTotalCycles v
    | _ => vTotalCycles v
    end.
Proof.
  intros Hstep. inversion Hstep as [p Hs|p e Hs Hc|p e c0 Hs Hc|ty' Hl|c0 Hu]; subst.
  - unfold started. destruct ty, (vCurrentRefTime v); done.
  - rewrite bool_decide_eq_true_2 by done. rewrite Hs, Hc. cbn.
    unfold dequeued. destruct e, (vCurrentRefTime v) as [|[|]]; done.
  - rewrite bool_decide_eq_true_2 by done. rewrite Hs, Hc. cbn.
    unfold closed, dequeued. destruct e, ty, (vCurrentRefTime v) as [|[|]]; done.
  - by rewrite Hl.
  - destruct c as [p m|p m e|m| |b]; cbn in Hu; try done.
    + destruct Hu as [Hne|Hs].
      * by rewrite bool_decide_eq_false_2.
      * rewrite Hs. cbn. by rewrite andb_false_r.
    + by rewrite Hu.
Qed.

(** ** The claims *)

Lemma reached_stage sts skip cap live cb cs (w : World) n v :
  reached sts skip cap live cb cs w →
  stageView n w = Some v →
  wf w ∧ ∃ l ty, records (this w) !! n = Some l ∧ cache (this w) !! n = Some ty
                 ∧ viewRecord (heap w) l = Some v.
Proof.
  intros Hreach Hv. destruct (reached_spec _ _ _ _ _ _ _ Hreach) as (Hwf & _).
  split; [done|]. unfold stageView in Hv.
  destruct (records (this w) !! n) as [l|] eqn:Hl; [|done]. cbn in Hv.
  destruct (wf_stage w Hwf n l Hl) as (ty & v' & Hty & _). by exists l, ty.
Qed.

(** A sync start at a clock reading of zero is lost in every mode: the
    guard of [endStage] takes the zero for an empty slot. *)
Lemma sync_start_at_zero_lost sts skip cap live cb cs (w : World) n v perfNow :
  reached sts skip cap live cb cs w →
  skipRecording (this w) = false →
  cache (this w) !! n = Some sync →
  stageView n w = Some v →
  ∃ w', (startStage 0 n >> endStage perfNow n None) w = (Return tt, w')
        ∧ stageView n w' = Some (with_ref (VNumber 0) v)
        ∧ purged w' = purged w.
Proof.
  intros Hreach Hskip Hty Hv.
  destruct (reached_stage _ _ _ _ _ _ _ _ _ Hreach Hv) as (Hwf & l & ty & Hl & Hty' & Hvl).
  assert (ty = sync) as -> by congruence.
  destruct (startStage_spec w n l sync v 0 Hwf Hskip Hl Hty Hvl) as (w1 & Hrun1 & E1 & Hp1).
  rewrite bind_unfold, Hrun1.
  assert (stageView n w1 = Some (with_ref (VNumber 0) v)) as Hv1.
  { by eapply effect_stageView. }
  rewrite (endStage_unmatched w1 perfNow n _ (eff_wf _ _ _ _ _ E1) Hv1); [|by left].
  by exists w1.
Qed.

(** C1.  A registered sync stage with recording enabled, [startStage] at
    clock time 0 and [endStage] (no event) at clock time 5: the code records
    no cycle and leaves [totalCycles] at 0, where the claim has one cycle
    [{r: 0, t: 5}] and a counter of 1.  The same calls one tick later, at 1
    and 6, record the cycle [{r: 1, t: 5}].  In steady-state mode the
    callback is not invoked either. *)
Theorem C1_start_at_zero_records_nothing :
  let w0 := snd (constructor [StageName "render"] None None (Some true) false) in
  let s0 := snd (constructor [StageName "render"] None None None true) in
  fst (constructor [StageName "render"] None None (Some true) false) = Return tt
  ∧ skipRecording (this w0) = false
  ∧ (let w := snd ((startStage 0 "render" >> endStage 5 "render" None) w0) in
     stageView "render" w
     = Some {| vCurrentRefTime := VNumber 0; vTotalCycles := 0; vRecentCycles := [] |})
  ∧ (let w := snd ((startStage 1 "render" >> endStage 6 "render" None) w0) in
     stageView "render" w
     = Some {| vCurrentRefTime := VNumber 0; vTotalCycles := 1;
               vRecentCycles := [{| r := 1; t := 5 |}] |})
  ∧ (let w := snd ((startStage 0 "render" >> endStage 5 "render" None) s0) in
     stageView "render" w
     = Some {| vCurrentRefTime := VNumber 0; vTotalCycles := 0; vRecentCycles := [] |}
     ∧ purged w = []).
Proof. repeat split; vm_compute; reflexivity. Qed.

(** C2, as stated, fails.  A sync stage started at 1 and ended at clock
    time 10 with an event stamped 4: the claim has the cycle
    [{r: 1, t: 3}] and the slot cleared; the code records [{r: 4, t: 6}] and
    leaves the slot at 1. *)
Lemma C2_counterexample :
  let w0 := snd (constructor [StageName "render"] None None (Some true) false) in
  let w := snd ((startStage 1 "render" >> endStage 10 "render" (Some 4%Z)) w0) in
  stageView "render" w
  = Some {| vCurrentRefTime := VNumber 1; vTotalCycles := 1;
            vRecentCycles := [{| r := 4; t := 6 |}] |}
  ∧ stageView "render" w
    ≠ Some {| vCurrentRefTime := VNumber 0; vTotalCycles := 1;
              vRecentCycles := [{| r := 1; t := 4 - 1 |}] |}.
Proof. split; [vm_compute; reflexivity|]. vm_compute. discriminate. Qed.

(** C2, amended.  When [endStage] is given an event, the event's time stamp
    is the reference time of the cycle: the pending reference of the stage
    is neither read nor cleared, and, the time stamp not being zero, the
    cycle recorded is [{r: timeStamp, t: perfNow - timeStamp}].  In
    live-inspection mode it joins [recentCycles], subject to eviction; in
    steady-state mode it is in the snapshot handed to the callback. *)
Theorem C2_event_time_stamp_is_the_reference
    sts skip cap live cb cs (w : World) n v (perfNow timeStamp : Z) :
  reached sts skip cap live cb cs w →
  skipRecording (this w) = false →
  stageView n w = Some v →
  timeStamp ≠ 0%Z →
  let c := {| r := timeStamp; t := perfNow - timeStamp |} in
  ∃ w', endStage perfNow n (Some timeStamp) w = (Return tt, w')
    ∧ stageView n w'
      = Some {| vCurrentRefTime := vCurrentRefTime v;
                vTotalCycles := vTotalCycles v + 1;
                vRecentCycles :=
                  if enableLiveDebug (this w)
                  then evict (inMemCycles (this w)) (vRecentCycles v ++ [c])
                  else [] |}
    ∧ (enableLiveDebug (this w) = false → onPurgeCallback (this w) = true →
       ∃ s, purged w' = purged w ++ [(n, s)]
            ∧ viewRecord (heap w') s
              = Some {| vCurrentRefTime := vCurrentRefTime v;
                        vTotalCycles := vTotalCycles v + 1;
                        vRecentCycles := vRecentCycles v ++ [c] |}).
Proof.
  intros Hreach Hskip Hv Hts c.
  destruct (reached_stage _ _ _ _ _ _ _ _ _ Hreach Hv) as (Hwf & l & ty & Hl & Hty & Hvl).
  destruct (endStage_spec w n l ty v perfNow (Some timeStamp) Hwf Hskip Hl Hty Hvl)
    as (w' & Hrun & Hpost).
  unfold cycleOf, resolved in Hpost. rewrite bool_decide_eq_false_2 in Hpost by done.
  fold c in Hpost. destruct Hpost as [E Hp].
  assert (closed ty (Some timeStamp) c v = marked c v) as Hcl by (by destruct ty).
  rewrite Hcl in *.
  exists w'. split; [done|]. split.
  - rewrite (effect_stageView _ _ _ _ _ E Hl). unfold retained, with_recent. cbn.
    by destruct (enableLiveDebug (this w)).
  - intros Hlive Hcb. rewrite Hlive, Hcb in Hp.
    destruct Hp as (s & Hpur & Hs & _). by exists s.
Qed.

Lemma C2_witness :
  let w0 := snd (constructor [StageName "render"] None None (Some true) false) in
  let w := snd (run [CStart 1 "render"] w0) in
  ∃ w', endStage 10 "render" (Some 4%Z) w = (Return tt, w')
    ∧ stageView "render" w'
      = Some {| vCurrentRefTime := VNumber 1; vTotalCycles := 1;
                vRecentCycles := [{| r := 4; t := 6 |}] |}.
Proof.
  intros w0 w.
  destruct (C2_event_time_stamp_is_the_reference
              [StageName "render"] None None (Some true) false [CStart 1 "render"] w
              "render" {| vCurrentRefTime := VNumber 1; vTotalCycles := 0;
                          vRecentCycles := [] |} 10 4)
    as (w' & Hrun & Hview & _).
  - exists w0. split; vm_compute; reflexivity.
  - vm_compute; reflexivity.
  - vm_compute; reflexivity.
  - lia.
  - exists w'. split; [exact Hrun|]. rewrite Hview. vm_compute. reflexivity.
Defined.

(** C3, as stated, fails.  A registered sync stage with no pending
    reference, and [endStage] at clock time 5 with an event stamped 3: the
    claim has the call change nothing; the code records the cycle
    [{r: 3, t: 2}] and counts it. *)
Lemma C3_counterexample :
  let w0 := snd (constructor [StageName "render"] None None (Some true) false) in
  let w := snd (endStage 5 "render" (Some 3%Z) w0) in
  stageView "render" w0
  = Some {| vCurrentRefTime := VNumber 0; vTotalCycles := 0; vRecentCycles := [] |}
  ∧ stageView "render" w
    = Some {| vCurrentRefTime := VNumber 0; vTotalCycles := 1;
              vRecentCycles := [{| r := 3; t := 2 |}] |}
  ∧ endStage 5 "render" (Some 3%Z) w0 ≠ (Return tt, w0).
Proof.
  split; [vm_compute; reflexivity|]. split; [vm_compute; reflexivity|].
  intros H. apply (f_equal (λ x, stageView "render" (snd x))) in H.
  vm_compute in H. discriminate.
Qed.

(** C3, amended.  A call of [startStage] or [endStage] while recording is
    off or on a name that is neither registered nor a property name of
    [Object.prototype], with or without an event, and a call of [endStage]
    without event that finds no pending reference, returns without error
    and leaves the whole world as it was: pending references,
    [recentCycles], counters, and the trace of callback invocations. *)
Theorem C3_inert_calls_change_nothing
    sts skip cap live cb cs (w : World) (c : Call) :
  reached sts skip cap live cb cs w →
  inert w c →
  call c w = (Return tt, w).
Proof.
  intros Hreach Hin. destruct (reached_spec _ _ _ _ _ _ _ Hreach) as (Hwf & _).
  destruct c as [perfNow n|perfNow n event|n| |b]; cbn in Hin; try done; cbn [call].
  - destruct Hin as [[Hn Hi]|Hs].
    + by apply startStage_unregistered.
    + by apply startStage_skip.
  - destruct Hin as [[Hn Hi]|[Hs|(-> & v & Hv & Hidle)]].
    + by apply endStage_unregistered.
    + by apply endStage_skip.
    + by eapply endStage_unmatched.
Qed.

Lemma C3_witness :
  let w0 := snd (constructor [StageName "render"] None None (Some true) false) in
  call (CEnd 5 "render" None) w0 = (Return tt, w0).
Proof.
  intros w0.
  apply (C3_inert_calls_change_nothing [StageName "render"] None None (Some true) false []).
  - exists w0. split; vm_compute; reflexivity.
  - right. right. split; [reflexivity|].
    exists {| vCurrentRefTime := VNumber 0; vTotalCycles := 0; vRecentCycles := [] |}.
    split; [vm_compute; reflexivity|]. left. reflexivity.
Defined.

(** The example of section 8: two starts at 1 and 2, then ends at 10 and 12,
    pair 1 with 10 and 2 with 12. *)
Example async_two_starts_two_ends :
  let w0 := snd (constructor [StageExtened {| name := "load"; type := Some async |}]
                   None None (Some true) false) in
  let w := snd (run [CStart 1 "load"; CStart 2 "load";
                     CEnd 10 "load" None; CEnd 12 "load" None] w0) in
  stageView "load" w
  = Some {| vCurrentRefTime := VArray []; vTotalCycles := 2;
            vRecentCycles := [{| r := 1; t := 9 |}; {| r := 2; t := 10 |}] |}.
Proof. vm_compute. reflexivity. Qed.

(** C4, as stated, fails.  An async stage started at 1 and at 2, and
    [endStage] at clock time 10 with an event stamped 4: the claim has the
    call resolve against the oldest pending start, 1, and take it off the
    queue; the code records the cycle [{r: 4, t: 6}] against the time stamp
    of the event and leaves both starts pending. *)
Lemma C4_counterexample :
  let w0 := snd (constructor [StageExtened {| name := "load"; type := Some async |}]
                   None None (Some true) false) in
  let w := snd (run [CStart 1 "load"; CStart 2 "load";
                     CEnd 10 "load" (Some 4%Z)] w0) in
  stageView "load" w
  = Some {| vCurrentRefTime := VArray [1%Z; 2%Z]; vTotalCycles := 1;
            vRecentCycles := [{| r := 4; t := 6 |}] |}
  ∧ stageView "load" w
    ≠ Some {| vCurrentRefTime := VArray [2%Z]; vTotalCycles := 1;
              vRecentCycles := [{| r := 1; t := 9 |}] |}.
Proof. split; [vm_compute; reflexivity|]. vm_compute. discriminate. Qed.

(** C4, amended.  On an async stage [startStage] puts the clock reading at
    the back of the queue of pending reference times, and [endStage] called
    without an event takes the front of the queue, the oldest, and leaves
    the others in order.  When that call completes a cycle, the cycle has the
    oldest reference time as [r]: it joins [recentCycles] in live-inspection
    mode, subject to eviction, and is in the snapshot handed to the callback
    in steady-state mode. *)
Theorem C4_async_end_takes_the_oldest_start
    sts skip cap live cb cs (w : World) n v (q : list Z) :
  reached sts skip cap live cb cs w →
  skipRecording (this w) = false →
  cache (this w) !! n = Some async →
  stageView n w = Some v →
  vCurrentRefTime v = VArray q →
  (∀ perfNow, ∃ w', startStage perfNow n w = (Return tt, w')
      ∧ stageView n w' = Some (with_ref (VArray (q ++ [perfNow])) v))
  ∧ (∀ perfNow x q', q = x :: q' → x ≠ 0%Z →
      let c := {| r := x; t := perfNow - x |} in
      ∃ w', endStage perfNow n None w = (Return tt, w')
        ∧ stageView n w'
          = Some {| vCurrentRefTime := VArray q';
                    vTotalCycles := vTotalCycles v + 1;
                    vRecentCycles :=
                      if enableLiveDebug (this w)
                      then evict (inMemCycles (this w)) (vRecentCycles v ++ [c])
                      else [] |}
        ∧ (enableLiveDebug (this w) = false → onPurgeCallback (this w) = true →
           ∃ s, purged w' = purged w ++ [(n, s)]
                ∧ viewRecord (heap w') s
                  = Some {| vCurrentRefTime := VArray q';
                            vTotalCycles := vTotalCycles v + 1;
                            vRecentCycles := vRecentCycles v ++ [c] |})).
Proof.
  intros Hreach Hskip Hty Hv Hq.
  destruct (reached_stage _ _ _ _ _ _ _ _ _ Hreach Hv) as (Hwf & l & ty & Hl & Hty' & Hvl).
  assert (ty = async) as -> by congruence.
  split.
  - intros perfNow.
    destruct (startStage_spec w n l async v perfNow Hwf Hskip Hl Hty Hvl) as (w' & Hrun & E & _).
    exists w'. split; [done|]. rewrite (effect_stageView _ _ _ _ _ E Hl).
    unfold started. by rewrite Hq.
  - intros perfNow x q' -> Hx c.
    destruct (endStage_spec w n l async v perfNow None Hwf Hskip Hl Hty Hvl)
      as (w' & Hrun & Hpost).
    unfold cycleOf, resolved in Hpost. rewrite Hq in Hpost. cbn [head] in Hpost.
    rewrite bool_decide_eq_false_2 in Hpost by done.
    fold c in Hpost. destruct Hpost as [E Hp].
    assert (closed async None c v
            = {| vCurrentRefTime := VArray q'; vTotalCycles := vTotalCycles v + 1;
                 vRecentCycles := vRecentCycles v ++ [c] |}) as Hcl.
    { unfold closed, dequeued. by rewrite Hq. }
    rewrite Hcl in *.
    exists w'. split; [done|]. split.
    + rewrite (effect_stageView _ _ _ _ _ E Hl). unfold retained, with_recent. cbn.
      by destruct (enableLiveDebug (this w)).
    + intros Hlive Hcb. rewrite Hlive, Hcb in Hp.
      destruct Hp as (s & Hpur & Hs & _). by exists s.
Qed.

Lemma C4_witness :
  let w0 := snd (constructor [StageExtened {| name := "load"; type := Some async |}]
                   None None (Some true) false) in
  let w := snd (run [CStart 1 "load"; CStart 2 "load"] w0) in
  ∃ w', endStage 10 "load" None w = (Return tt, w')
    ∧ stageView "load" w'
      = Some {| vCurrentRefTime := VArray [2%Z]; vTotalCycles := 1;
                vRecentCycles := [{| r := 1; t := 9 |}] |}.
Proof.
  intros w0 w.
  destruct (C4_async_end_takes_the_oldest_start
              [StageExtened {| name := "load"; type := Some async |}]
              None None (Some true) false [CStart 1 "load"; CStart 2 "load"] w "load"
              {| vCurrentRefTime := VArray [1%Z; 2%Z]; vTotalCycles := 0;
                 vRecentCycles := [] |} [1%Z; 2%Z]) as [_ Hend].
  - exists w0. split; vm_compute; reflexivity.
  - vm_compute; reflexivity.
  - vm_compute; reflexivity.
  - vm_compute; reflexivity.
  - reflexivity.
  - destruct (Hend 10%Z 1%Z [2%Z] eq_refl) as (w' & Hrun & Hview & _); [lia|].
    exists w'. split; [exact Hrun|]. rewrite Hview. vm_compute. reflexivity.
Defined.

Lemma length_evict_lt (cap : Z) (cs : list Cycle) (c : Cycle) :
  (Z.of_nat (length cs) < cap)%Z →
  (Z.of_nat (length (evict cap (cs ++ [c]))) < cap)%Z.
Proof.
  intros Hlt. unfold evict. rewrite length_app. cbn [length].
  case_bool_decide as Hcap.
  - destruct cs as [|c' cs']; cbn [app tail length] in *; [lia|].
    rewrite length_app. cbn [length]. lia.
  - rewrite length_app. cbn [length]. lia.
Qed.

(** In live-inspection mode the window kept between calls stays strictly
    below the capacity: the test [length >= inMemCycles] runs after the
    push, so the entry that fills the window evicts the oldest one. *)
Lemma live_window_below_capacity sts skip cap live cb cs (w : World) n v :
  reached sts skip cap live cb cs w →
  enableLiveDebug (this w) = true →
  (1 ≤ inMemCycles (this w))%Z →
  stageView n w = Some v →
  (Z.of_nat (length (vRecentCycles v)) < inMemCycles (this w))%Z.
Proof.
  intros (w0 & Hnew & Hrun) Hlive Hcap. revert n v.
  destruct (constructor_spec _ _ _ _ _ _ Hnew) as (Hwf0 & Hdom0 & Hfresh0 & _).
  destruct (run_spec cs w0 w Hwf0 Hrun) as (_ & (Hst & Hst' & _) & _).
  rewrite Hst' in *. assert (enableLiveDebug (this w0) = true) as Hlive0 by congruence.
  apply (run_invariant
           (λ w, ∀ n v, stageView n w = Some v →
                        (Z.of_nat (length (vRecentCycles v)) < inMemCycles (this w0))%Z)
           cs w0 w Hwf0); [| |done].
  - intros n v Hv. destruct (Hfresh0 n) as (ty & Hf & _).
    { apply Hdom0. by eapply stageView_registered. }
    assert (v = freshView ty) as -> by congruence. cbn. lia.
  - intros c w1 w2 Hwf1 (Hl1 & Hc1 & _) IH Hc n v' Hv'.
    destruct (call_stage_back c w1 w2 n v' Hwf1 Hc Hv') as (ty & v & Hty & Hv & Hstep).
    specialize (IH n v Hv).
    inversion Hstep; subst; try done.
    + unfold started. destruct ty, (vCurrentRefTime v); done.
    + unfold dequeued. destruct event, (vCurrentRefTime v) as [|[|]]; done.
    + rewrite Hl1, Hlive0, Hc1. unfold retained. cbn [with_recent vRecentCycles].
      assert (vRecentCycles (closed ty event c0 v) = vRecentCycles v ++ [c0]) as ->.
      { unfold closed, dequeued. destruct event, ty, (vCurrentRefTime v) as [|[|]]; done. }
      by apply length_evict_lt.
    + cbn. lia.
Qed.

(** C5.  Live-inspection mode with capacity 2 and two completed cycles of a
    sync stage: the code keeps only the last one, where the claim has
    [recentCycles] hold the two most recent cycles and evict only when the
    length exceeds 2. *)
Theorem C5_window_holds_one_less_than_capacity :
  let w0 := snd (constructor [StageName "render"] None (Some 2%Z) (Some true) false) in
  let w := snd (run [CStart 1 "render"; CEnd 2 "render" None;
                     CStart 3 "render"; CEnd 4 "render" None] w0) in
  inMemCycles (this w) = 2%Z
  ∧ stageView "render" w
    = Some {| vCurrentRefTime := VNumber 0; vTotalCycles := 2;
              vRecentCycles := [{| r := 3; t := 1 |}] |}.
Proof. split; vm_compute; reflexivity. Qed.

Lemma closed_fields ty event c v :
  vTotalCycles (closed ty event c v) = (vTotalCycles v + 1)%Z
  ∧ vRecentCycles (closed ty event c v) = vRecentCycles v ++ [c].
Proof.
  unfold closed, dequeued. destruct event, ty, (vCurrentRefTime v) as [|[|]]; done.
Qed.

(** C6.  In steady-state mode with a callback, a call of [endStage] that
    completes a cycle invokes the callback once, with the stage name and a
    snapshot that holds the cycle and the bumped counter; on return the
    [recentCycles] of the stage is empty; and the snapshot shares no object
    with the records of the arena: however the objects of the snapshot are
    rewritten afterwards, every stage reads as before. *)
Theorem C6_steady_state_purge
    sts skip cap live cb cs (w : World) n v (perfNow : Z) (event : option Z) c :
  reached sts skip cap live cb cs w →
  enableLiveDebug (this w) = false →
  onPurgeCallback (this w) = true →
  skipRecording (this w) = false →
  stageView n w = Some v →
  cycleOf perfNow event v = Some c →
  ∃ w' s snapshot,
    endStage perfNow n event w = (Return tt, w')
    ∧ purged w' = purged w ++ [(n, s)]
    ∧ viewRecord (heap w') s = Some snapshot
    ∧ vTotalCycles snapshot = (vTotalCycles v + 1)%Z
    ∧ vRecentCycles snapshot = [c]
    ∧ (∃ v', stageView n w' = Some v' ∧ vRecentCycles v' = []
             ∧ vTotalCycles v' = (vTotalCycles v + 1)%Z)
    ∧ (∀ h : gmap loc Obj,
         (∀ x, x ∉ footprint (heap w') s → h !! x = heap w' !! x) →
         ∀ m, records (this w') !! m ≫= viewRecord h = stageView m w').
Proof.
  intros Hreach Hlive Hcb Hskip Hv Hc.
  destruct (reached_stage _ _ _ _ _ _ _ _ _ Hreach Hv) as (Hwf & l & ty & Hl & Hty & Hvl).
  pose proof (steady_state_recent_empty _ _ _ _ _ _ _ _ _ Hreach Hlive Hv) as Hempty.
  destruct (endStage_spec w n l ty v perfNow event Hwf Hskip Hl Hty Hvl)
    as (w' & Hrun & Hpost).
  rewrite Hc, Hlive, Hcb in Hpost. destruct Hpost as (E & s & Hpur & Hs & Hdisj).
  destruct (closed_fields ty event c v) as [Htot Hrec]. rewrite Hempty in Hrec.
  exists w', s, (closed ty event c v).
  split; [done|]. split; [done|]. split; [done|]. split; [done|]. split; [done|].
  split.
  - eexists. split; [by eapply effect_stageView|]. done.
  - intros h Hag m. unfold stageView.
    destruct (records (this w') !! m) as [lm|] eqn:Hlm; [|done]. cbn.
    destruct (wf_stage w' (eff_wf _ _ _ _ _ E) m lm Hlm) as (tym & vm & _ & Hvm & _).
    rewrite Hvm. apply (viewRecord_agree (heap w') h lm vm Hvm).
    intros y Hy. apply Hag. pose proof (Hdisj m lm Hlm). set_solver.
Qed.

Lemma C6_witness :
  let w0 := snd (constructor [StageName "render"] None None None true) in
  let w := snd (run [CStart 1 "render"] w0) in
  ∃ w' s snapshot,
    endStage 6 "render" None w = (Return tt, w')
    ∧ purged w' = [("render", s)]
    ∧ viewRecord (heap w') s = Some snapshot
    ∧ vTotalCycles snapshot = 1%Z
    ∧ vRecentCycles snapshot = [{| r := 1; t := 5 |}].
Proof.
  intros w0 w.
  destruct (C6_steady_state_purge
              [StageName "render"] None None None true [CStart 1 "render"] w "render"
              {| vCurrentRefTime := VNumber 1; vTotalCycles := 0; vRecentCycles := [] |}
              6 None {| r := 1; t := 5 |})
    as (w' & s & snapshot & Hrun & Hpur & Hs & Htot & Hrec & _).
  - exists w0. split; vm_compute; reflexivity.
  - vm_compute; reflexivity.
  - vm_compute; reflexivity.
  - vm_compute; reflexivity.
  - vm_compute; reflexivity.
  - vm_compute; reflexivity.
  - exists w', s, snapshot. repeat split; assumption.
Defined.

Lemma purgeArena_total (w : World) n v :
  wf w → stageView n w = Some v →
  ∃ w' v', purgeArena n w = (Return tt, w') ∧ stageView n w' = Some v'
           ∧ vTotalCycles v' = vTotalCycles v.
Proof.
  intros Hwf Hv. unfold stageView in Hv.
  destruct (records (this w) !! n) as [l|] eqn:Hl; [|done]. cbn in Hv.
  destruct (wf_stage w Hwf n l Hl) as (ty & v0 & Hty & _).
  destruct (onPurgeCallback (this w)) eqn:Hcb.
  - destruct (purgeArena_sink w n l ty v Hwf Hl Hty Hv Hcb) as (s & w' & Hrun & E & _).
    exists w', (with_recent [] v). split; [done|]. split; [|done].
    by eapply effect_stageView.
  - destruct (purgeArena_silent w n l ty v Hwf Hl Hty Hv Hcb) as (w' & Hrun & E & _).
    exists w', (with_recent [] v). split; [done|]. split; [|done].
    by eapply effect_stageView.
Qed.

(** A name given twice in the list is found registered the second time. *)
Lemma initializePerformanceData_repeated (sts : list Stage) (w : World) :
  wf w → ¬ NoDup (stageName <$> sts) →
  ∃ n w', initializePerformanceData sts false w = (Throw (DuplicateStage n), w').
Proof.
  revert w. induction sts as [|st sts IH]; intros w Hwf Hdup.
  - destruct Hdup. constructor.
  - destruct (records (this w) !! stageName st) as [l|] eqn:Hst.
    { apply (initializePerformanceData_duplicate (st :: sts) w st); [done|left|eauto]. }
    unfold initializePerformanceData. cbn [forEach]. rewrite bind_unfold.
    destruct (inherited (stageName st)) eqn:Hi.
    { rewrite initializeStage_inherited by done. eauto. }
    destruct (initializeStage_spec w false st Hwf Hi (or_intror Hst))
      as (w1 & -> & Hwf1 & _ & _ & _ & [l Hthis1] & _).
    destruct (decide (stageName st ∈ stageName <$> sts)) as [Hin|Hnin].
    + apply list_elem_of_fmap in Hin as (s & Hs & Hin).
      apply (initializePerformanceData_duplicate sts w1 s); [done..|].
      rewrite Hthis1. cbn. rewrite <- Hs, lookup_insert_eq. eauto.
    + apply IH; [done|]. intros Hnd. apply Hdup. cbn. by constructor.
Qed.

(** A round of the loop that returns has registered a new record, out of
    fresh objects, whatever the name. *)
Lemma initializeStage_fresh (w w' : World) (force : bool) (stage : Stage) :
  bounded w →
  initializeStage force stage w = (Return tt, w') →
  bounded w'
  ∧ stageView (stageName stage) w' = Some (freshView (stageType stage))
  ∧ (∀ n, n ≠ stageName stage → records (this w') !! n = records (this w) !! n)
  ∧ (∀ x, x < next w → heap w' !! x = heap w !! x).
Proof.
  intros Hb. unfold initializeStage.
  set (s := match stage with
            | StageName n => {| name := n; type := Some sync |}
            | StageExtened s => s
            end).
  assert (name s = stageName stage) as Hname by (by destruct stage).
  assert (default sync (type s) = stageType stage) as Hty by (by destruct stage).
  rewrite Hname, Hty. clearbody s. clear Hname Hty s.
  set (n := stageName stage) in *. set (ty := stageType stage).
  rewrite bind_unfold. cbn [gets].
  destruct (truthy (getProperty w n) && negb force); [done|].
  assert (heap w !! next w = None) as Hnx.
  { destruct (heap w !! next w) eqn:H; [|done].
    pose proof (Hb (next w) (mk_is_Some _ _ H)). lia. }
  destruct ty.
  - rewrite bind_unfold. cbn [ret]. rewrite bind_unfold. cbn [alloc].
    rewrite bind_unfold. cbn [alloc modify].
    set (h1 := <[next w := OCycles []]> (heap w)).
    set (d := {| currentRefTime := RefNumber 0; totalCycles := 0; recentCycles := next w |}).
    set (h2 := <[S (next w) := ORecord d]> h1).
    intros [= <-]. cbn.
    assert (h2 !! S (next w) = Some (ORecord d)) as Hd by apply lookup_insert_eq.
    assert (h2 !! next w = Some (OCycles [])) as Hrc.
    { unfold h2. rewrite lookup_insert_ne by lia. apply lookup_insert_eq. }
    split; [|split; [|split]].
    + intros x [o Hx]. cbn in *. unfold h2, h1 in Hx.
      destruct (decide (x = S (next w))) as [->|?]; [lia|].
      rewrite lookup_insert_ne in Hx by done.
      destruct (decide (x = next w)) as [->|?]; [lia|].
      rewrite lookup_insert_ne in Hx by done.
      pose proof (Hb x (mk_is_Some _ _ Hx)). lia.
    + unfold stageView. cbn. rewrite lookup_insert_eq. cbn.
      by apply (viewRecord_intro h2 _ d [] (VNumber 0) []).
    + intros m Hm. by rewrite lookup_insert_ne.
    + intros x Hx. unfold h2, h1. by rewrite !lookup_insert_ne by lia.
  - rewrite bind_unfold, bind_unfold. cbn [alloc ret]. rewrite bind_unfold. cbn [alloc].
    rewrite bind_unfold. cbn [alloc modify].
    set (h0 := <[next w := ONumbers []]> (heap w)).
    set (h1 := <[S (next w) := OCycles []]> h0).
    set (d := {| currentRefTime := RefArray (next w); totalCycles := 0;
                 recentCycles := S (next w) |}).
    set (h2 := <[S (S (next w)) := ORecord d]> h1).
    intros [= <-]. cbn.
    assert (h2 !! S (S (next w)) = Some (ORecord d)) as Hd by apply lookup_insert_eq.
    assert (h2 !! S (next w) = Some (OCycles [])) as Hrc.
    { unfold h2. rewrite lookup_insert_ne by lia. apply lookup_insert_eq. }
    assert (h2 !! next w = Some (ONumbers [])) as Ha.
    { unfold h2, h1. rewrite !lookup_insert_ne by lia. apply lookup_insert_eq. }
    split; [|split; [|split]].
    + intros x [o Hx]. cbn in *. unfold h2, h1, h0 in Hx.
      destruct (decide (x = S (S (next w)))) as [->|?]; [lia|].
      rewrite lookup_insert_ne in Hx by done.
      destruct (decide (x = S (next w))) as [->|?]; [lia|].
      rewrite lookup_insert_ne in Hx by done.
      destruct (decide (x = next w)) as [->|?]; [lia|].
      rewrite lookup_insert_ne in Hx by done.
      pose proof (Hb x (mk_is_Some _ _ Hx)). lia.
    + unfold stageView. cbn. rewrite lookup_insert_eq. cbn.
      apply (viewRecord_intro h2 _ d [] (VArray []) []); try done.
      cbn. by rewrite Ha.
    + intros m Hm. by rewrite lookup_insert_ne.
    + intros x Hx. unfold h2, h1, h0. by rewrite !lookup_insert_ne by lia.
Qed.

(** The stages a registration does not name read as before. *)
Lemma initializePerformanceData_keeps (sts : list Stage) (force : bool)
    (w w' : World) n v :
  bounded w →
  initializePerformanceData sts force w = (Return tt, w') →
  n ∉ stageName <$> sts →
  stageView n w = Some v →
  bounded w' ∧ stageView n w' = Some v.
Proof.
  unfold initializePerformanceData.
  revert w. induction sts as [|st sts IH]; intros w Hb Hrun Hn Hv.
  - cbn in Hrun. by injection Hrun as <-.
  - cbn [forEach] in Hrun. rewrite bind_unfold in Hrun.
    destruct (initializeStage force st w) as [[[]|e] w1] eqn:H1; [|done].
    cbn in Hn. apply not_elem_of_cons in Hn as [Hne Hn].
    destruct (initializeStage_fresh w w1 force st Hb H1) as (Hb1 & _ & Hrec & Hag).
    apply (IH w1 Hb1 Hrun Hn).
    unfold stageView in *. rewrite (Hrec n Hne).
    destruct (records (this w) !! n) as [l|] eqn:Hl; [|done]. cbn in *.
    apply (viewRecord_agree (heap w) (heap w1) l v Hv).
    intros x Hx. apply Hag, Hb. by eapply footprint_allocated.
Qed.

(** With force the registration returns, whatever the names, and every
    stage of the list is new. *)
Lemma initializePerformanceData_forced (sts : list Stage) (w : World) :
  bounded w →
  ∃ w', initializePerformanceData sts true w = (Return tt, w')
    ∧ bounded w'
    ∧ ∀ n, n ∈ stageName <$> sts → ∃ ty, stageView n w' = Some (freshView ty).
Proof.
  revert w. induction sts as [|st sts IH]; intros w Hb.
  - exists w. split; [done|]. split; [done|]. intros n Hn. by apply elem_of_nil in Hn.
  - destruct (initializeStage_force st w) as (w1 & H1).
    destruct (initializeStage_fresh w w1 true st Hb H1) as (Hb1 & Hv1 & _).
    destruct (IH w1 Hb1) as (w' & Hrun & Hb' & Hin).
    exists w'. split; [|split; [done|]].
    + unfold initializePerformanceData in *. cbn [forEach].
      by rewrite bind_unfold, H1.
    + intros n Hn. cbn in Hn. apply elem_of_cons in Hn.
      destruct (decide (n ∈ stageName <$> sts)) as [Hn'|Hn']; [by apply Hin|].
      destruct Hn as [->|Hn]; [|done].
      exists (stageType st).
      by apply (initializePerformanceData_keeps sts true w1 w' _ _ Hb1 Hrun Hn').
Qed.

(** C8.  Without the force flag, initialising a list of stages one of
    whose names is already registered throws, and so does a list that
    names a stage twice, which fails the constructor.  With the flag the
    call returns, and every stage of the list reads as new: counter zero,
    no recent cycle, no pending reference, whatever it held before. *)
Theorem C8_duplicate_registration
    sts skip cap live cb cs (w : World) (stages' : list Stage) :
  reached sts skip cap live cb cs w →
  (∀ s, s ∈ stages' → is_Some (records (this w) !! stageName s) →
     ∃ n w', initializePerformanceData stages' false w = (Throw (DuplicateStage n), w'))
  ∧ (¬ NoDup (stageName <$> stages') →
     ∃ n w', constructor stages' skip cap live cb = (Throw (DuplicateStage n), w'))
  ∧ (∃ w', initializePerformanceData stages' true w = (Return tt, w')
       ∧ ∀ n, n ∈ stageName <$> stages' →
           ∃ ty, stageView n w' = Some (freshView ty)).
Proof.
  intros Hreach. destruct (reached_spec _ _ _ _ _ _ _ Hreach) as (Hwf & _).
  split; [|split].
  - intros s Hs Hreg. by eapply initializePerformanceData_duplicate.
  - intros Hdup. unfold constructor.
    apply initializePerformanceData_repeated; [|done]. by apply wf_empty.
  - destruct (initializePerformanceData_forced stages' w (wf_fresh w Hwf))
      as (w' & Hrun & _ & Hin).
    by exists w'.
Qed.

Lemma C8_witness :
  let w0 := snd (constructor [StageName "render"] None None (Some true) false) in
  let w := snd (run [CStart 1 "render"; CEnd 6 "render" None; CStart 7 "render"] w0) in
  (∃ n w', initializePerformanceData [StageName "render"] false w
           = (Throw (DuplicateStage n), w'))
  ∧ (∃ w', initializePerformanceData [StageName "render"] true w = (Return tt, w')
           ∧ ∃ ty, stageView "render" w' = Some (freshView ty)).
Proof.
  intros w0 w.
  destruct (C8_duplicate_registration [StageName "render"] None None (Some true) false
              [CStart 1 "render"; CEnd 6 "render" None; CStart 7 "render"] w
              [StageName "render"]) as (Hdup & _ & w' & Hrun & Hfresh).
  - exists w0. split; vm_compute; reflexivity.
  - split.
    + apply (Hdup (StageName "render")); [left|]. vm_compute. eauto.
    + exists w'. split; [exact Hrun|]. apply Hfresh. left.
Defined.

(** C9.  [getStageArena] on a name that was never registered raises
    nothing and changes nothing, but what it returns depends on the name:
    [undefined], as the claim has it, unless the name is a property name of
    [Object.prototype], for which it returns what the prototype holds under
    that name, a function for [toString]. *)
Theorem C9_getStageArena_never_registered
    sts skip cap live cb cs (w : World) (n : StageNameType) :
  reached sts skip cap live cb cs w →
  n ∉ stageName <$> sts →
  getStageArena n w
  = (Return (if inherited n then JInherited else JUndefined), w).
Proof.
  intros Hreach Hn. destruct (reached_spec _ _ _ _ _ _ _ Hreach) as (Hwf & Hdom & _).
  unfold getStageArena, gets.
  destruct (getProperty_cases w n Hwf)
    as [(l & Hl & _)|[(_ & -> & ->)|(_ & -> & ->)]]; [|done..].
  destruct Hn. apply Hdom. eauto.
Qed.

Lemma C9_witness :
  let w0 := snd (constructor [StageName "render"] None None (Some true) false) in
  let w := snd (run [CStart 1 "render"; CEnd 6 "render" None] w0) in
  getStageArena "toString" w = (Return JInherited, w)
  ∧ getStageArena "paint" w = (Return JUndefined, w).
Proof.
  intros w0 w.
  assert (reached [StageName "render"] None None (Some true) false
            [CStart 1 "render"; CEnd 6 "render" None] w) as Hreach.
  { exists w0. split; vm_compute; reflexivity. }
  split.
  - apply (C9_getStageArena_never_registered _ _ _ _ _ _ w "toString" Hreach).
    cbn. intros H. apply list_elem_of_singleton in H. discriminate.
  - apply (C9_getStageArena_never_registered _ _ _ _ _ _ w "paint" Hreach).
    cbn. intros H. apply list_elem_of_singleton in H. discriminate.
Defined.

(** C10.  In steady-state mode without a callback, a call of [endStage]
    that completes a cycle returns without error: the counter is bumped,
    [recentCycles] is empty on return, and nothing is handed to anyone. *)
Theorem C10_steady_state_without_callback
    sts skip cap live cb cs (w : World) n v (perfNow : Z) (event : option Z) c :
  reached sts skip cap live cb cs w →
  enableLiveDebug (this w) = false →
  onPurgeCallback (this w) = false →
  skipRecording (this w) = false →
  stageView n w = Some v →
  cycleOf perfNow event v = Some c →
  ∃ w' v', endStage perfNow n event w = (Return tt, w')
    ∧ stageView n w' = Some v'
    ∧ vTotalCycles v' = (vTotalCycles v + 1)%Z
    ∧ vRecentCycles v' = []
    ∧ purged w' = purged w.
Proof.
  intros Hreach Hlive Hcb Hskip Hv Hc.
  destruct (reached_stage _ _ _ _ _ _ _ _ _ Hreach Hv) as (Hwf & l & ty & Hl & Hty & Hvl).
  destruct (endStage_spec w n l ty v perfNow event Hwf Hskip Hl Hty Hvl)
    as (w' & Hrun & Hpost).
  rewrite Hc, Hlive, Hcb in Hpost. destruct Hpost as (E & Hpur).
  destruct (closed_fields ty event c v) as [Htot _].
  eexists w', _. split; [done|]. split; [by eapply effect_stageView|]. done.
Qed.

Lemma C10_witness :
  let w0 := snd (constructor [StageName "render"] None None None false) in
  let w := snd (run [CStart 1 "render"] w0) in
  ∃ w' v', endStage 6 "render" None w = (Return tt, w')
    ∧ stageView "render" w' = Some v'
    ∧ vTotalCycles v' = 1%Z
    ∧ vRecentCycles v' = []
    ∧ purged w' = [].
Proof.
  intros w0 w.
  destruct (C10_steady_state_without_callback
              [StageName "render"] None None None false [CStart 1 "render"] w "render"
              {| vCurrentRefTime := VNumber 1; vTotalCycles := 0; vRecentCycles := [] |}
              6 None {| r := 1; t := 5 |})
    as (w' & v' & Hrun & Hv' & Htot & Hrec & Hpur).
  - exists w0. split; vm_compute; reflexivity.
  - vm_compute; reflexivity.
  - vm_compute; reflexivity.
  - vm_compute; reflexivity.
  - vm_compute; reflexivity.
  - vm_compute; reflexivity.
  - exists w', v'. repeat split; assumption.
Defined.

(** ** Further properties of the arena *)

Lemma run_app (cs cs' : list Call) (w w1 : World) :
  run cs w = (Return tt, w1) → run (cs ++ cs') w = run cs' w1.
Proof.
  unfold run. revert w. induction cs as [|c cs IH]; intros w Hrun.
  - cbn in Hrun. by injection Hrun as <-.
  - cbn [forEach app] in *. rewrite bind_unfold in *.
    destruct (call c w) as [[[]|e] w2]; [|done]. by apply IH.
Qed.






(** A list of stages none of which is registered and whose names differ
    is taken in whole; each stage ends with the type it asked for. *)
Lemma initializePerformanceData_distinct (sts : list Stage) (w : World) :
  wf w →
  NoDup (stageName <$> sts) →
  Forall (λ s, inherited (stageName s) = false) sts →
  (∀ s, s ∈ sts → records (this w) !! stageName s = None) →
  ∃ w', initializePerformanceData sts false w = (Return tt, w')
    ∧ wf w'
    ∧ (∀ s, s ∈ sts →
         cache (this w') !! stageName s = Some (stageType s)
         ∧ stageView (stageName s) w' = Some (freshView (stageType s)))
    ∧ (∀ n, n ∉ stageName <$> sts →
         cache (this w') !! n = cache (this w) !! n
         ∧ stageView n w' = stageView n w)
    ∧ stages (this w')
      = stages (this w)
        ++ ((λ s, {| name := stageName s; type := Some (stageType s) |}) <$> sts).
Proof.
  unfold initializePerformanceData.
  revert w. induction sts as [|st sts IH]; intros w Hwf Hnd Hcl Hnew.
  - exists w. cbn. rewrite app_nil_r. split; [done|]. split; [done|].
    split; [intros s Hs; by apply elem_of_nil in Hs|]. done.
  - cbn in Hnd. apply NoDup_cons in Hnd as [Hnin Hnd].
    apply Forall_cons in Hcl as [Hi Hcl].
    cbn [forEach]. rewrite bind_unfold.
    destruct (initializeStage_spec w false st Hwf Hi
                (or_intror (Hnew st (list_elem_of_here _ _))))
      as (w1 & -> & Hwf1 & Hv1 & Hc1 & Hoth1 & [l Hthis1] & _).
    destruct (IH w1 Hwf1 Hnd Hcl) as (w' & Hrun & Hwf' & Hin & Hout & Hst).
    { intros s Hs. rewrite Hthis1. cbn. rewrite lookup_insert_ne.
      - apply Hnew. by right.
      - intros Heq. apply Hnin. rewrite Heq. by apply list_elem_of_fmap_2. }
    exists w'. split; [done|]. split; [done|]. split; [|split].
    + intros s Hs. apply elem_of_cons in Hs as [->|Hs]; [|by apply Hin].
      destruct (Hout _ Hnin) as [-> ->]. done.
    + intros n Hn. cbn in Hn. apply not_elem_of_cons in Hn as [Hne Hn].
      destruct (Hout n Hn) as [-> ->]. split; [|by apply Hoth1].
      rewrite Hthis1. cbn. rewrite (setCache_own _ _ _ Hi).
      by rewrite lookup_insert_ne.
    + rewrite Hst, Hthis1. cbn. by rewrite <- app_assoc.
Qed.

(** The constructor returns when the names of the stages differ and none
    is a property name of [Object.prototype], and then every stage is
    registered with an empty history and the type it was given; a stage
    given as a bare name, or without a type, is sync. *)
Theorem constructor_registers_distinct_names
    (sts : list Stage) skip cap live cb :
  NoDup (stageName <$> sts) →
  Forall (λ s, inherited (stageName s) = false) sts →
  ∃ w0, constructor sts skip cap live cb = (Return tt, w0)
    ∧ (∀ s, s ∈ sts →
         cache (this w0) !! stageName s = Some (stageType s)
         ∧ stageView (stageName s) w0 = Some (freshView (stageType s)))
    ∧ (∀ n, n ∉ stageName <$> sts → stageView n w0 = None)
    ∧ skipRecording (this w0) = default false skip
    ∧ purged w0 = [].
Proof.
  intros Hnd Hcl. unfold constructor.
  match goal with |- ∃ w0, initializePerformanceData _ _ ?w = _ ∧ _ => set (e := w) end.
  assert (wf e) as Hwf by (by apply wf_empty).
  destruct (initializePerformanceData_distinct sts e Hwf Hnd Hcl)
    as (w0 & Hrun & Hwf0 & Hin & Hout & _); [done|].
  exists w0. split; [done|]. split; [done|].
  destruct (initializePerformanceData_post _ _ _ _ Hwf (or_introl eq_refl) Hrun)
    as (_ & _ & _ & _ & _ & Hskip & Hpur).
  split; [|done]. intros n Hn. by destruct (Hout n Hn) as [_ ->].
Qed.

Lemma constructor_registers_distinct_names_witness :
  ∃ w0, constructor [StageName "render";
                     StageExtened {| name := "load"; type := Some async |};
                     StageExtened {| name := "paint"; type := None |}]
          None None None false = (Return tt, w0)
    ∧ cache (this w0) !! "paint" = Some sync
    ∧ stageView "load" w0 = Some (freshView async).
Proof.
  destruct (constructor_registers_distinct_names
              [StageName "render";
               StageExtened {| name := "load"; type := Some async |};
               StageExtened {| name := "paint"; type := None |}]
              None None None false) as (w0 & Hrun & Hin & _).
  - cbn. repeat constructor; set_solver.
  - repeat constructor.
  - exists w0. split; [exact Hrun|]. split.
    + apply (Hin (StageExtened {| name := "paint"; type := None |})). set_solver.
    + apply (Hin (StageExtened {| name := "load"; type := Some async |})). set_solver.
Defined.

Lemma startStage_sync_eq (w : World) n l d perfNow :
  skipRecording (this w) = false →
  records (this w) !! n = Some l →
  cache (this w) !! n = Some sync →
  heap w !! l = Some (ORecord d) →
  startStage perfNow n w
  = (Return tt, set_heap <[l := ORecord (set_currentRefTime (RefNumber perfNow) d)]> w).
Proof.
  intros Hskip Hl Hty Hd. unfold startStage.
  rewrite bind_unfold. cbn [gets]. rewrite Hskip.
  rewrite bind_unfold. cbn [gets]. rewrite (getProperty_own w n l Hl).
  cbn [negb andb truthy].
  rewrite bind_unfold. cbn [gets]. rewrite Hty.
  rewrite decide_True by done. cbn [assign_currentRefTime].
  by rewrite (updateRecord_eq _ _ d).
Qed.

(** A sync stage has one slot: a second [startStage] before the end
    replaces the first, which leaves no trace at all. *)
Theorem sync_restart_forgets_the_first_start
    sts skip cap live cb cs (w : World) n v (a b : Z) :
  reached sts skip cap live cb cs w →
  skipRecording (this w) = false →
  cache (this w) !! n = Some sync →
  stageView n w = Some v →
  (startStage a n >> startStage b n) w = startStage b n w.
Proof.
  intros Hreach Hskip Hty Hv.
  destruct (reached_stage _ _ _ _ _ _ _ _ _ Hreach Hv) as (Hwf & l & ty & Hl & _ & Hvl).
  destruct (viewRecord_inv _ _ _ Hvl) as (d & ls & Hd & _).
  rewrite bind_unfold, (startStage_sync_eq w n l d a Hskip Hl Hty Hd).
  rewrite (startStage_sync_eq w n l d b Hskip Hl Hty Hd).
  rewrite (startStage_sync_eq _ n l (set_currentRefTime (RefNumber a) d) b);
    try done; [|cbn; apply lookup_insert_eq].
  unfold set_heap. cbn. by rewrite insert_insert_eq.
Qed.

Lemma sync_restart_forgets_the_first_start_witness :
  let w0 := snd (constructor [StageName "render"] None None (Some true) false) in
  (startStage 3 "render" >> startStage 7 "render") w0 = startStage 7 "render" w0.
Proof.
  intros w0.
  apply (sync_restart_forgets_the_first_start
           [StageName "render"] None None (Some true) false [] w0 "render"
           {| vCurrentRefTime := VNumber 0; vTotalCycles := 0; vRecentCycles := [] |}).
  - exists w0. split; vm_compute; reflexivity.
  - vm_compute; reflexivity.
  - vm_compute; reflexivity.
  - vm_compute; reflexivity.
Defined.

(** On a sync stage [endStage] without event leaves the slot empty, whether
    it recorded a cycle or not, so a start is matched by one end at most: a
    second end right after changes nothing. *)
Theorem sync_end_consumes_the_start
    sts skip cap live cb cs (w : World) n v (perfNow : Z) :
  reached sts skip cap live cb cs w →
  skipRecording (this w) = false →
  cache (this w) !! n = Some sync →
  stageView n w = Some v →
  ∃ w' v', endStage perfNow n None w = (Return tt, w')
    ∧ stageView n w' = Some v'
    ∧ vCurrentRefTime v' = VNumber 0
    ∧ ∀ perfNow', endStage perfNow' n None w' = (Return tt, w').
Proof.
  intros Hreach Hskip Hty Hv.
  destruct (reached_stage _ _ _ _ _ _ _ _ _ Hreach Hv) as (Hwf & l & ty & Hl & Hty' & Hvl).
  assert (ty = sync) as -> by congruence.
  pose proof (wf_shaped w n l sync v Hwf Hl Hty Hvl) as Hsh.
  destruct (endStage_spec w n l sync v perfNow None Hwf Hskip Hl Hty Hvl)
    as (w' & Hrun & Hpost).
  unfold shaped in Hsh. destruct (vCurrentRefTime v) as [z|] eqn:Hz; [|done].
  assert (∃ v', effect n l w w' v' ∧ vCurrentRefTime v' = VNumber 0) as (v' & E & Hidle).
  { unfold cycleOf, resolved in Hpost. rewrite Hz in Hpost.
    case_bool_decide as Hzero.
    - destruct Hpost as [E _]. eexists. split; [exact E|].
      unfold dequeued. rewrite Hz. by subst.
    - destruct Hpost as [E _]. eexists. split; [exact E|]. done. }
  exists w', v'. split; [done|].
  pose proof (effect_stageView _ _ _ _ _ E Hl) as Hv'.
  split; [done|]. split; [done|]. intros perfNow'.
  apply (endStage_unmatched w' perfNow' n v' (eff_wf _ _ _ _ _ E) Hv'). by left.
Qed.

Lemma sync_end_consumes_the_start_witness :
  let w0 := snd (constructor [StageName "render"] None None (Some true) false) in
  let w := snd (run [CStart 1 "render"] w0) in
  ∃ w', endStage 6 "render" None w = (Return tt, w')
        ∧ endStage 9 "render" None w' = (Return tt, w').
Proof.
  intros w0 w.
  destruct (sync_end_consumes_the_start
              [StageName "render"] None None (Some true) false [CStart 1 "render"] w
              "render" {| vCurrentRefTime := VNumber 1; vTotalCycles := 0;
                          vRecentCycles := [] |} 6)
    as (w' & v' & Hrun & _ & _ & Hagain).
  - exists w0. split; vm_compute; reflexivity.
  - vm_compute; reflexivity.
  - vm_compute; reflexivity.
  - vm_compute; reflexivity.
  - exists w'. split; [exact Hrun|apply Hagain].
Defined.

(** A reference time of zero never makes a cycle.  An event stamped zero
    leaves the world as it is: in every state of the arena, for every name,
    registered or not, sync or async.  On an async stage a start made at
    clock reading zero is taken off the queue by the next [endStage] and
    thrown away: the queue moves on, yet no cycle is recorded, the counter
    stands and the callback is not invoked. *)
Theorem zero_reference_time_is_dropped :
  (∀ (w : World) (perfNow : Z) (n : StageNameType),
     endStage perfNow n (Some 0%Z) w = (Return tt, w))
  ∧ (∀ sts skip cap live cb cs (w : World) n v (perfNow : Z) (q : list Z),
       reached sts skip cap live cb cs w →
       skipRecording (this w) = false →
       cache (this w) !! n = Some async →
       stageView n w = Some v →
       vCurrentRefTime v = VArray (0%Z :: q) →
       ∃ w', endStage perfNow n None w = (Return tt, w')
         ∧ stageView n w' = Some (with_ref (VArray q) v)
         ∧ purged w' = purged w).
Proof.
  split; [intros w perfNow n; apply endStage_event_zero|].
  intros sts skip cap live cb cs w n v perfNow q Hreach Hskip Hty Hv Hq.
  destruct (reached_stage _ _ _ _ _ _ _ _ _ Hreach Hv) as (Hwf & l & ty & Hl & Hty' & Hvl).
  assert (ty = async) as -> by congruence.
  destruct (endStage_spec w n l async v perfNow None Hwf Hskip Hl Hty Hvl)
    as (w' & Hrun & Hpost).
  unfold cycleOf, resolved in Hpost. rewrite Hq in Hpost. cbn in Hpost.
  destruct Hpost as [E Hpur]. exists w'. split; [done|]. split; [|done].
  rewrite (effect_stageView _ _ _ _ _ E Hl). unfold dequeued. by rewrite Hq.
Qed.

Lemma zero_reference_time_is_dropped_witness :
  let w0 := snd (constructor [StageExtened {| name := "load"; type := Some async |}]
                   None None (Some true) false) in
  let w := snd (run [CStart 0 "load"; CStart 2 "load"] w0) in
  endStage 5 "load" (Some 0%Z) w = (Return tt, w)
  ∧ endStage 5 "render" (Some 0%Z) w = (Return tt, w)
  ∧ ∃ w', endStage 5 "load" None w = (Return tt, w')
      ∧ stageView "load" w'
        = Some {| vCurrentRefTime := VArray [2%Z]; vTotalCycles := 0;
                  vRecentCycles := [] |}.
Proof.
  intros w0 w.
  split; [apply (proj1 zero_reference_time_is_dropped)|].
  split; [apply (proj1 zero_reference_time_is_dropped)|].
  destruct (proj2 zero_reference_time_is_dropped
              [StageExtened {| name := "load"; type := Some async |}]
              None None (Some true) false [CStart 0 "load"; CStart 2 "load"] w "load"
              {| vCurrentRefTime := VArray [0%Z; 2%Z]; vTotalCycles := 0;
                 vRecentCycles := [] |} 5%Z [2%Z]) as (w' & Hrun & Hview & _).
  - exists w0. split; vm_compute; reflexivity.
  - vm_compute; reflexivity.
  - vm_compute; reflexivity.
  - vm_compute; reflexivity.
  - reflexivity.
  - exists w'. split; [exact Hrun|exact Hview].
Defined.

(** What is done to one stage is not seen on another: [startStage] and
    [endStage] on [m], whatever they do there, return or raise, leave every
    other name reading as before; and they return unless [m] is a property
    name of [Object.prototype]. *)
Theorem stages_do_not_interfere
    sts skip cap live cb cs (w : World) (m n : StageNameType) (perfNow : Z)
    (event : option Z) :
  reached sts skip cap live cb cs w →
  m ≠ n →
  stageView n (snd (startStage perfNow m w)) = stageView n w
  ∧ stageView n (snd (endStage perfNow m event w)) = stageView n w
  ∧ (inherited m = false →
     (∃ w', startStage perfNow m w = (Return tt, w') ∧ stageView n w' = stageView n w)
     ∧ (∃ w', endStage perfNow m event w = (Return tt, w')
              ∧ stageView n w' = stageView n w)).
Proof.
  intros Hreach Hne. destruct (reached_spec _ _ _ _ _ _ _ Hreach) as (Hwf & _).
  assert (∀ c, (c = CStart perfNow m ∨ c = CEnd perfNow m event) →
            stageView n (snd (call c w)) = stageView n w
            ∧ (inherited m = false → ∃ w', call c w = (Return tt, w'))) as Hboth.
  { intros c Hc. pose proof (call_spec c w Hwf) as H.
    destruct (raises w c) eqn:Hr.
    { rewrite H. split; [done|]. intros Hi.
      destruct Hc as [-> | ->]; cbn in Hr; rewrite Hi, andb_false_r in Hr; done. }
    destruct H as (w' & Hrun & Hwf' & _ & Hdom). rewrite Hrun.
    split; [|by eauto]. cbn [snd].
    destruct (stageView n w) as [v|] eqn:Hv.
    - destruct (registered_stageView w n Hwf (stageView_registered _ _ _ Hv))
        as (ty & v0 & Hty & _).
      destruct (call_stage c w n ty v Hwf Hv Hty Hr) as (w1 & v' & Hrun1 & Hv' & Hstep).
      assert (w1 = w') as -> by congruence.
      rewrite Hv'. f_equal.
      destruct Hc as [-> | ->]; inversion Hstep; subst; done.
    - destruct (stageView n w') as [v'|] eqn:Hv'; [|done].
      apply stageView_registered, Hdom in Hv'.
      destruct (registered_stageView w n Hwf Hv') as (? & ? & _ & ?). congruence. }
  destruct (Hboth (CStart perfNow m) (or_introl eq_refl)) as [Hs1 Hs2].
  destruct (Hboth (CEnd perfNow m event) (or_intror eq_refl)) as [He1 He2].
  cbn [call] in *.
  split; [done|]. split; [done|]. intros Hi.
  destruct (Hs2 Hi) as (w1 & H1). destruct (He2 Hi) as (w2 & H2).
  rewrite H1 in Hs1. rewrite H2 in He1. split; eauto.
Qed.

Lemma stages_do_not_interfere_witness :
  let w0 := snd (constructor [StageName "render"; StageName "paint"]
                   None None (Some true) false) in
  let w := snd (run [CStart 1 "paint"] w0) in
  ∃ w', endStage 5 "render" (Some 2%Z) w = (Return tt, w')
        ∧ stageView "paint" w' = stageView "paint" w.
Proof.
  intros w0 w.
  destruct (stages_do_not_interfere
              [StageName "render"; StageName "paint"] None None (Some true) false
              [CStart 1 "paint"] w "render" "paint" 5 (Some 2%Z)) as (_ & _ & Hret).
  - exists w0. split; vm_compute; reflexivity.
  - discriminate.
  - apply Hret. reflexivity.
Defined.

Lemma run_paused (cs : list Call) (w : World) :
  skipRecording (this w) = true → Forall probe cs → run cs w = (Return tt, w).
Proof.
  intros Hskip Hcs. unfold run. induction Hcs as [|c cs Hc _ IH]; [done|].
  cbn [forEach]. rewrite bind_unfold.
  destruct c as [p n|p n e|n| |b]; cbn in Hc; try done; cbn [call].
  - by rewrite startStage_skip.
  - by rewrite endStage_skip.
Qed.

(** Switching recording off and on again around any calls of the
    instrumented code is not seen afterwards: what was pending before the
    pause is still pending, and nothing of what happened meanwhile was
    kept. *)
Theorem pause_and_resume_leave_no_trace (cs : list Call) (w : World) :
  enableLiveDebug (this w) = true →
  skipRecording (this w) = false →
  Forall probe cs →
  run (CInit (Some true) :: cs ++ [CInit (Some false)]) w = (Return tt, w).
Proof.
  intros Hlive Hskip Hcs.
  assert (call (CInit (Some true)) w = (Return tt, set_this (set_skipRecording true) w)) as H1.
  { cbn [call]. unfold on_init_performance_data. rewrite bind_unfold. cbn [gets].
    by rewrite Hlive. }
  change (CInit (Some true) :: cs ++ [CInit (Some false)]) with ([CInit (Some true)] ++ cs ++ [CInit (Some false)]).
  rewrite (run_app [CInit (Some true)] _ w (set_this (set_skipRecording true) w)).
  2:{ unfold run. cbn [forEach]. by rewrite bind_unfold, H1. }
  rewrite (run_app cs _ _ (set_this (set_skipRecording true) w)) by (by apply run_paused).
  unfold run. cbn [forEach call]. rewrite bind_unfold.
  unfold on_init_performance_data. rewrite bind_unfold. cbn [gets set_this this].
  cbn [set_skipRecording enableLiveDebug]. rewrite Hlive. cbn.
  destruct w as [[sts recs cch sk lv cap cb] h nx pg]. cbn in *. by subst.
Qed.

Lemma pause_and_resume_leave_no_trace_witness :
  let w0 := snd (constructor [StageName "render"] None None (Some true) false) in
  let w := snd (run [CStart 1 "render"] w0) in
  run [CInit (Some true); CEnd 5 "render" None; CStart 6 "render"; CInit (Some false)] w = (Return tt, w).
Proof.
  intros w0 w.
  apply (pause_and_resume_leave_no_trace [CEnd 5 "render" None; CStart 6 "render"] w).
  - vm_compute; reflexivity.
  - vm_compute; reflexivity.
  - repeat constructor.
Defined.

(** [startStage], [endStage] and [getStageArena] assign no field of
    [this]. *)
Lemma probe_this (c : Call) (w w' : World) :
  wf w → probe c → call c w = (Return tt, w') → this w' = this w.
Proof.
  intros Hwf Hc Hrun.
  destruct c as [p n|p n e|n| |b]; cbn in Hc; try done; cbn [call] in Hrun.
  - destruct (skipRecording (this w)) eqn:Hskip.
    { rewrite startStage_skip in Hrun by done. by injection Hrun as <-. }
    destruct (records (this w) !! n) as [l|] eqn:Hl.
    2:{ by apply (startStage_unregistered_inv _ _ _ _ Hwf Hl) in Hrun as ->. }
    destruct (wf_stage w Hwf n l Hl) as (ty & v & Hty & Hv & _).
    destruct (startStage_spec w n l ty v p Hwf Hskip Hl Hty Hv) as (w1 & Hrun1 & E & _).
    assert (w1 = w') as -> by congruence. apply (eff_this _ _ _ _ _ E).
  - destruct (skipRecording (this w)) eqn:Hskip.
    { rewrite endStage_skip in Hrun by done. by injection Hrun as <-. }
    destruct (records (this w) !! n) as [l|] eqn:Hl.
    2:{ by apply (endStage_unregistered_inv _ _ _ _ _ Hwf Hl) in Hrun as ->. }
    destruct (wf_stage w Hwf n l Hl) as (ty & v & Hty & Hv & _).
    destruct (endStage_spec w n l ty v p e Hwf Hskip Hl Hty Hv) as (w1 & Hrun1 & E).
    assert (w1 = w') as -> by congruence.
    destruct (cycleOf p e v); destruct E as [E _]; apply (eff_this _ _ _ _ _ E).
  - unfold getStageArena in Hrun. rewrite bind_unfold in Hrun. cbn in Hrun.
    by injection Hrun as <-.
Qed.

Lemma initializeStage_this (w w' : World) (force : bool) (stage : Stage) :
  initializeStage force stage w = (Return tt, w') →
  ∃ l, this w' = register {| name := stageName stage;
                              type := Some (stageType stage) |} l
                   (stageType stage) (this w).
Proof.
  unfold initializeStage.
  set (s := match stage with
            | StageName n => {| name := n; type := Some sync |}
            | StageExtened s => s
            end).
  assert (name s = stageName stage) as Hname by (by destruct stage).
  assert (default sync (type s) = stageType stage) as Hty by (by destruct stage).
  rewrite Hname, Hty. clearbody s. clear Hname Hty s.
  rewrite bind_unfold. cbn [gets].
  destruct (truthy _ && negb force); [done|].
  destruct (stageType stage).
  - rewrite bind_unfold. cbn [ret]. rewrite bind_unfold. cbn [alloc].
    rewrite bind_unfold. cbn [alloc modify]. intros [= <-]. by eexists.
  - rewrite bind_unfold, bind_unfold. cbn [alloc ret]. rewrite bind_unfold. cbn [alloc].
    rewrite bind_unfold. cbn [alloc modify]. intros [= <-]. by eexists.
Qed.

Lemma initializePerformanceData_stages (sts : list Stage) force (w w' : World) :
  initializePerformanceData sts force w = (Return tt, w') →
  length (stages (this w')) = length (stages (this w)) + length sts.
Proof.
  unfold initializePerformanceData.
  revert w. induction sts as [|st sts IH]; intros w Hrun.
  - cbn in Hrun. injection Hrun as <-. cbn. lia.
  - cbn [forEach] in Hrun. rewrite bind_unfold in Hrun.
    destruct (initializeStage force st w) as [[[]|e] w1] eqn:H1; [|done].
    destruct (initializeStage_this w w1 force st H1) as [l Hthis1].
    rewrite (IH w1 Hrun), Hthis1. cbn.
    rewrite length_app. cbn. lia.
Qed.

Lemma call_stages_length (c : Call) (w w' : World) :
  wf w → call c w = (Return tt, w') →
  length (stages (this w'))
  = length (stages (this w))
    * match c with
      | CReset => if enableLiveDebug (this w) then 2 else 1
      | _ => 1
      end.
Proof.
  intros Hwf Hrun.
  destruct c as [p n|p n e|n| |b].
  - rewrite (probe_this (CStart p n) w w' Hwf I Hrun). lia.
  - rewrite (probe_this (CEnd p n e) w w' Hwf I Hrun). lia.
  - rewrite (probe_this (CGet n) w w' Hwf I Hrun). lia.
  - cbn [call] in Hrun. unfold on_reset_performance_data in Hrun.
    rewrite bind_unfold in Hrun. cbn [gets] in Hrun.
    destruct (enableLiveDebug (this w)).
    + rewrite bind_unfold in Hrun. cbn [gets] in Hrun.
      rewrite (initializePerformanceData_stages _ _ _ _ Hrun), length_fmap. lia.
    + cbn in Hrun. injection Hrun as <-. lia.
  - cbn [call] in Hrun. unfold on_init_performance_data in Hrun.
    rewrite bind_unfold in Hrun. cbn [gets] in Hrun.
    destruct (enableLiveDebug (this w)), b as [b|]; cbn in Hrun; try done;
      injection Hrun as <-; cbn; lia.
Qed.

(** [initializePerformanceData] pushes every stage it handles onto
    [this.stages], also when it is called by the reset listener with
    [this.stages] itself: each reset event doubles the list. *)
Theorem stage_list_doubles_on_reset sts skip cap live cb cs (w : World) :
  reached sts skip cap live cb cs w →
  length (stages (this w))
  = length sts * 2 ^ (if default false live then resets cs else 0).
Proof.
  intros (w0 & Hnew & Hrun).
  destruct (constructor_spec _ _ _ _ _ _ Hnew) as (Hwf0 & _ & _ & Hlive0 & _).
  assert (length (stages (this w0)) = length sts) as Hlen0.
  { unfold constructor in Hnew.
    apply initializePerformanceData_stages in Hnew. done. }
  rewrite <- Hlen0, <- Hlive0. clear Hnew Hlen0 Hlive0.
  revert w0 Hwf0 Hrun. unfold run. induction cs as [|c cs IH]; intros w0 Hwf0 Hrun.
  - cbn in Hrun. injection Hrun as <-. destruct (enableLiveDebug (this w0)); cbn; lia.
  - cbn [forEach] in Hrun. rewrite bind_unfold in Hrun.
    destruct (call c w0) as [[[]|e] w1] eqn:Hc; [|done].
    destruct (call_returns c w0 w1 Hwf0 Hc) as (_ & Hwf1 & (Hlive1 & _) & _).
    rewrite (IH w1 Hwf1 Hrun), Hlive1.
    rewrite (call_stages_length c w0 w1 Hwf0 Hc).
    destruct c, (enableLiveDebug (this w0)); cbn [resets]; rewrite ?Nat.pow_succ_r'; lia.
Qed.

Lemma stage_list_doubles_on_reset_witness :
  let w0 := snd (constructor [StageName "render"; StageName "paint"]
                   None None (Some true) false) in
  let w := snd (run [CReset; CStart 1 "render"; CReset; CReset] w0) in
  length (stages (this w)) = 16.
Proof.
  intros w0 w.
  rewrite (stage_list_doubles_on_reset
             [StageName "render"; StageName "paint"] None None (Some true) false
             [CReset; CStart 1 "render"; CReset; CReset] w).
  - reflexivity.
  - exists w0. split; vm_compute; reflexivity.
Defined.

Lemma typed_register (w : World) (st : Stage) l (p' : PerformanceArena) :
  wf w → typed w →
  inherited (stageName st) = false →
  records (this w) !! stageName st = None →
  p' = register {| name := stageName st; type := Some (stageType st) |} l
                (stageType st) (this w) →
  ∀ s, s ∈ stages p' → cache p' !! name s = type s.
Proof.
  intros Hwf Hty Hcl Hnew -> s. cbn.
  rewrite (setCache_own _ _ _ Hcl), elem_of_app, list_elem_of_singleton.
  intros [Hs| ->].
  - rewrite lookup_insert_ne; [by apply Hty|].
    intros Heq. assert (is_Some (records (this w) !! name s)) as [? Hreg].
    { apply (wf_stages w Hwf). by apply list_elem_of_fmap_2. }
    congruence.
  - cbn. apply lookup_insert_eq.
Qed.

Lemma initializePerformanceData_typed (sts : list Stage) (w w' : World) :
  wf w → typed w →
  initializePerformanceData sts false w = (Return tt, w') →
  typed w'.
Proof.
  unfold initializePerformanceData.
  revert w. induction sts as [|st sts IH]; intros w Hwf Hty Hrun.
  - cbn in Hrun. by injection Hrun as <-.
  - cbn [forEach] in Hrun. rewrite bind_unfold in Hrun.
    destruct (records (this w) !! stageName st) as [l|] eqn:Hst.
    { rewrite initializeStage_duplicate in Hrun by eauto. done. }
    destruct (inherited (stageName st)) eqn:Hi.
    { rewrite initializeStage_inherited in Hrun by done. done. }
    destruct (initializeStage_spec w false st Hwf Hi (or_intror Hst))
      as (w1 & Hrun1 & Hwf1 & _ & _ & _ & [l Hthis1] & _).
    rewrite Hrun1 in Hrun. apply (IH w1 Hwf1); [|done].
    intros s. by apply (typed_register w st l).
Qed.

(** The forced pass over entries of [this.stages]: each is registered
    again under the type it has, and pushed once more. *)
Lemma initializePerformanceData_again (sts' : list StageExtenedType) (w : World) :
  wf w → typed w →
  (∀ s, s ∈ sts' → s ∈ stages (this w)) →
  ∃ w', initializePerformanceData (StageExtened <$> sts') true w = (Return tt, w')
    ∧ typed w'
    ∧ cache (this w') = cache (this w)
    ∧ stages (this w') = stages (this w) ++ sts'.
Proof.
  unfold initializePerformanceData.
  revert w. induction sts' as [|s sts' IH]; intros w Hwf Hty Hsub.
  - exists w. cbn. by rewrite app_nil_r.
  - cbn [fmap list_fmap forEach]. rewrite bind_unfold.
    assert (s ∈ stages (this w)) as Hs by (apply Hsub; left).
    assert (is_Some (records (this w) !! name s)) as [l0 Hreg].
    { apply (wf_stages w Hwf). by apply list_elem_of_fmap_2. }
    pose proof (wf_own w Hwf (name s) (mk_is_Some _ _ Hreg)) as Hi.
    destruct (initializeStage_spec w true (StageExtened s) Hwf Hi (or_introl eq_refl))
      as (w1 & -> & Hwf1 & _ & _ & _ & [l Hthis1] & _).
    destruct (wf_stage w Hwf _ _ Hreg) as (ty & v & Hc & _).
    pose proof (Hty s Hs) as Hts. rewrite Hc in Hts.
    assert ({| name := stageName (StageExtened s);
               type := Some (stageType (StageExtened s)) |} = s) as Hsame.
    { destruct s as [sn st]. cbn in *. by subst. }
    assert (stageType (StageExtened s) = ty) as Hsty by (cbn; by rewrite <- Hts).
    rewrite Hsame, Hsty in Hthis1.
    assert (cache (this w1) = cache (this w)) as Hc1.
    { rewrite Hthis1. cbn. rewrite (setCache_own _ _ _ Hi). by apply insert_id. }
    assert (stages (this w1) = stages (this w) ++ [s]) as Hs1 by (by rewrite Hthis1).
    destruct (IH w1 Hwf1) as (w' & Hrun & Hty' & Hc' & Hs').
    + intros s'. rewrite Hs1, Hc1, elem_of_app, list_elem_of_singleton.
      intros [?| ->]; by apply Hty.
    + intros s' Hin. rewrite Hs1. apply elem_of_app. left. apply Hsub. by right.
    + exists w'. split; [done|]. split; [done|]. split; [congruence|].
      rewrite Hs', Hs1. by rewrite <- app_assoc.
Qed.

Lemma call_typed (c : Call) (w w' : World) :
  wf w → typed w → call c w = (Return tt, w') → typed w'.
Proof.
  intros Hwf Hty Hrun. destruct c as [p n|p n e|n| |b].
  - unfold typed. by rewrite (probe_this (CStart p n) w w' Hwf I Hrun).
  - unfold typed. by rewrite (probe_this (CEnd p n e) w w' Hwf I Hrun).
  - unfold typed. by rewrite (probe_this (CGet n) w w' Hwf I Hrun).
  - cbn [call] in Hrun. unfold on_reset_performance_data in Hrun.
    rewrite bind_unfold in Hrun. cbn [gets] in Hrun.
    destruct (enableLiveDebug (this w)).
    + rewrite bind_unfold in Hrun. cbn [gets] in Hrun.
      destruct (initializePerformanceData_again (stages (this w)) w Hwf Hty)
        as (w1 & Hrun1 & Hty1 & _); [done|].
      rewrite Hrun1 in Hrun. by injection Hrun as <-.
    + cbn in Hrun. by injection Hrun as <-.
  - cbn [call] in Hrun. unfold on_init_performance_data in Hrun.
    rewrite bind_unfold in Hrun. cbn [gets] in Hrun.
    destruct (enableLiveDebug (this w)), b as [b|]; cbn in Hrun; try done;
      by injection Hrun as <-.
Qed.

Lemma reached_typed sts skip cap live cb cs (w : World) :
  reached sts skip cap live cb cs w → typed w.
Proof.
  intros (w0 & Hnew & Hrun).
  destruct (constructor_spec _ _ _ _ _ _ Hnew) as (Hwf0 & _).
  apply (run_invariant typed cs w0 w Hwf0); [| |done].
  - unfold constructor in Hnew.
    apply initializePerformanceData_typed in Hnew; [done|by apply wf_empty|].
    intros s Hs. cbn in Hs. by apply elem_of_nil in Hs.
  - intros c w1 w2 Hwf1 _ Hty1 Hc. by eapply call_typed.
Qed.

(** The reset event, which is listened to in live-debug mode only, gives
    every registered stage an empty history and no pending reference, and
    keeps its execution type; whether recording is on, and what the
    callback received, are not touched. *)
Theorem reset_empties_every_stage sts skip cap live cb cs (w : World) :
  reached sts skip cap live cb cs w →
  enableLiveDebug (this w) = true →
  ∃ w', on_reset_performance_data w = (Return tt, w')
    ∧ cache (this w') = cache (this w)
    ∧ (∀ n ty, is_Some (records (this w) !! n) → cache (this w) !! n = Some ty →
         stageView n w' = Some (freshView ty))
    ∧ skipRecording (this w') = skipRecording (this w)
    ∧ purged w' = purged w.
Proof.
  intros Hreach Hlive. destruct (reached_spec _ _ _ _ _ _ _ Hreach) as (Hwf & _).
  pose proof (reached_typed _ _ _ _ _ _ _ Hreach) as Hty.
  destruct (initializePerformanceData_again (stages (this w)) w Hwf Hty)
    as (w' & Hrun & _ & Hc & _); [done|].
  destruct (initializePerformanceData_post _ _ _ _ Hwf (wf_admissible w Hwf) Hrun)
    as (_ & Hin & _ & _ & _ & Hskip & Hpur).
  exists w'. split.
  { unfold on_reset_performance_data. rewrite bind_unfold. cbn [gets]. rewrite Hlive.
    by rewrite bind_unfold. }
  split; [done|]. split; [|done].
  intros n ty Hreg Hcn. destruct (Hin n) as (ty' & Hv & Hc').
  - rewrite <- list_fmap_compose. change (stageName ∘ StageExtened) with name.
    by apply (wf_stages w Hwf).
  - rewrite Hc in Hc'. congruence.
Qed.

Lemma reset_empties_every_stage_witness :
  let w0 := snd (constructor [StageExtened {| name := "load"; type := Some async |}]
                   None None (Some true) false) in
  let w := snd (run [CStart 1 "load"; CStart 2 "load"; CEnd 5 "load" None] w0) in
  ∃ w', on_reset_performance_data w = (Return tt, w')
        ∧ stageView "load" w' = Some (freshView async).
Proof.
  intros w0 w.
  destruct (reset_empties_every_stage
              [StageExtened {| name := "load"; type := Some async |}]
              None None (Some true) false
              [CStart 1 "load"; CStart 2 "load"; CEnd 5 "load" None] w)
    as (w' & Hrun & _ & Hfresh & _).
  - exists w0. split; vm_compute; reflexivity.
  - vm_compute; reflexivity.
  - exists w'. split; [exact Hrun|]. apply Hfresh.
    + vm_compute. eauto.
    + vm_compute; reflexivity.
Defined.

Lemma evict_lastn (k : nat) (h : list Cycle) (c : Cycle) :
  evict (Z.of_nat k + 1) (lastn k h ++ [c]) = lastn k (h ++ [c]).
Proof.
  unfold evict, lastn. rewrite !length_app, length_drop. cbn [length].
  destruct (decide (k = 0)) as [->|Hk0].
  { rewrite !Nat.sub_0_r, drop_all. cbn.
    rewrite bool_decide_eq_true_2 by lia.
    rewrite drop_ge; [done|]. rewrite length_app. cbn. lia. }
  case_bool_decide as Hk.
  - assert (k ≤ length h) as Hle by lia.
    replace (length h + 1 - k) with (S (length h - k)) by lia.
    rewrite drop_app_le by lia.
    destruct (drop (length h - k) h) as [|x l] eqn:Hd.
    + assert (length (drop (length h - k) h) = 0) as Hl by (by rewrite Hd).
      rewrite length_drop in Hl. lia.
    + cbn [app tail]. f_equal.
      replace (S (length h - k)) with ((length h - k) + 1) by lia.
      rewrite <- drop_drop, Hd. done.
  - replace (length h - k) with 0 by lia.
    replace (length h + 1 - k) with 0 by lia. done.
Qed.

Lemma stageStep_history (w : World) n ty v c v' (k : nat) (acc : list Cycle) :
  stageStep w n ty v c v' →
  stageView n w = Some v →
  enableLiveDebug (this w) = true →
  inMemCycles (this w) = (Z.of_nat k + 1)%Z →
  vRecentCycles v = lastn k acc →
  vRecentCycles v'
  = lastn k match c with
            | CEnd perfNow m event =>
                if bool_decide (m = n) && negb (skipRecording (this w)) then
                  match stageView n w ≫= cycleOf perfNow event with
                  | Some x => acc ++ [x]
                  | None => acc
                  end
                else acc
            | CReset => if enableLiveDebug (this w) then [] else acc
            | _ => acc
            end.
Proof.
  intros Hstep Hv Hlive Hcap Hinv.
  inversion Hstep as [p Hs|p e Hs Hc|p e c0 Hs Hc|ty' Hl|c0 Hu]; subst;
    cbv beta iota.
  - rewrite <- Hinv. unfold started. destruct ty, (vCurrentRefTime v); done.
  - rewrite bool_decide_eq_true_2 by done. rewrite Hs, Hv. cbn -[lastn]. rewrite Hc.
    rewrite <- Hinv. unfold dequeued. destruct e, (vCurrentRefTime v) as [|[|]]; done.
  - rewrite bool_decide_eq_true_2 by done. rewrite Hs, Hv. cbn -[lastn]. rewrite Hc.
    rewrite Hlive, Hcap. unfold retained. cbn [with_recent vRecentCycles].
    destruct (closed_fields ty e c0 v) as [_ ->]. rewrite Hinv. apply evict_lastn.
  - by rewrite Hl.
  - destruct c as [p m|p m e|m| |b]; cbn in Hu; try done.
    + destruct Hu as [Hne|Hs].
      * by rewrite bool_decide_eq_false_2.
      * rewrite Hs. cbn -[lastn]. by rewrite andb_false_r.
    + congruence.
Qed.

Lemma history_window (cs : list Call) (w0 w : World) n v0 (k : nat) (acc : list Cycle) :
  wf w0 →
  enableLiveDebug (this w0) = true →
  inMemCycles (this w0) = (Z.of_nat k + 1)%Z →
  stageView n w0 = Some v0 →
  vRecentCycles v0 = lastn k acc →
  run cs w0 = (Return tt, w) →
  ∃ v, stageView n w = Some v ∧ vRecentCycles v = lastn k (history n cs w0 acc).
Proof.
  unfold run. revert w0 v0 acc.
  induction cs as [|c cs IH]; intros w0 v0 acc Hwf Hlive Hcap Hv0 Hinv Hrun.
  - cbn in Hrun. injection Hrun as <-. by exists v0.
  - cbn [forEach] in Hrun. rewrite bind_unfold in Hrun.
    destruct (registered_stageView w0 n Hwf (stageView_registered _ _ _ Hv0))
      as (ty & v0' & Hty & Hv0').
    assert (v0' = v0) as -> by congruence.
    destruct (call c w0) as [[[]|e] w1] eqn:Hc; [|done].
    destruct (call_returns c w0 w1 Hwf Hc) as (Hnr & Hwf1 & (Hl1 & Hc1 & _) & _).
    destruct (call_stage c w0 n ty v0 Hwf Hv0 Hty Hnr) as (w1' & v1 & Hc' & Hv1 & Hstep).
    assert (w1' = w1) as -> by congruence.
    pose proof (stageStep_history _ _ _ _ _ _ k acc Hstep Hv0 Hlive Hcap Hinv) as Hinv1.
    destruct (IH w1 v1 _ Hwf1 ltac:(congruence) ltac:(congruence) Hv1 Hinv1 Hrun)
      as (v & Hv & Hwin).
    exists v. split; [done|]. rewrite Hwin. cbn [history]. by rewrite Hc.
Qed.

(** In live-debug mode with a capacity of at least 1, [recentCycles] is
    the last [inMemCycles - 1] cycles the stage recorded since the last
    reset, oldest first: the window is a suffix of the history, in the
    order of completion, one entry short of the capacity. *)
Theorem live_window_is_the_recent_history sts skip cap live cb cs (w : World) n :
  reached sts skip cap live cb cs w →
  enableLiveDebug (this w) = true →
  (1 ≤ inMemCycles (this w))%Z →
  n ∈ stageName <$> sts →
  ∃ v, stageView n w = Some v
    ∧ vRecentCycles v
      = lastn (Z.to_nat (inMemCycles (this w) - 1))
              (history n cs (snd (constructor sts skip cap live cb)) []).
Proof.
  intros (w0 & Hnew & Hrun) Hlive Hcap Hn.
  destruct (constructor_spec _ _ _ _ _ _ Hnew) as (Hwf0 & _ & Hfresh0 & _).
  destruct (run_spec cs w0 w Hwf0 Hrun) as (_ & (Hl & Hc & _) & _).
  destruct (Hfresh0 n Hn) as (ty & Hv0 & _).
  rewrite Hnew. cbn [snd].
  apply (history_window cs w0 w n (freshView ty)); try done.
  - congruence.
  - rewrite <- Hc. lia.
Qed.

Lemma live_window_is_the_recent_history_witness :
  let w0 := snd (constructor [StageName "render"] None (Some 3%Z) (Some true) false) in
  let cs := [CStart 1 "render"; CEnd 2 "render" None;
             CStart 3 "render"; CEnd 5 "render" None;
             CEnd 9 "render" (Some 6%Z)] in
  let w := snd (run cs w0) in
  ∃ v, stageView "render" w = Some v
    ∧ vRecentCycles v = [{| r := 3; t := 2 |}; {| r := 6; t := 3 |}].
Proof.
  intros w0 cs w.
  destruct (live_window_is_the_recent_history
              [StageName "render"] None (Some 3%Z) (Some true) false cs w "render")
    as (v & Hv & Hwin).
  - exists w0. split; vm_compute; reflexivity.
  - vm_compute; reflexivity.
  - vm_compute. discriminate.
  - vm_compute. left.
  - exists v. split; [exact Hv|]. rewrite Hwin. vm_compute. reflexivity.
Defined.

Lemma effect_live (w w' : World) n l v' :
  wf w → records (this w) !! n = Some l → effect n l w w' v' →
  (∀ x, x < next w → ¬ liveLoc w x → heap w' !! x = heap w !! x)
  ∧ (∀ x, liveLoc w' x → liveLoc w x ∨ next w ≤ x).
Proof.
  intros Hwf Hl E. split.
  - intros x Hx Hnl. apply (eff_frame _ _ _ _ _ E); [done|].
    intros Hin. apply Hnl. by exists n, l.
  - intros x (n' & l' & Hl' & Hin). rewrite (eff_this _ _ _ _ _ E) in Hl'.
    destruct (decide (n' = n)) as [->|Hne].
    + assert (l' = l) as -> by congruence.
      destruct (eff_fp _ _ _ _ _ E x Hin) as [Hold|Hnew]; [left|by right].
      by exists n, l.
    + left. exists n', l'. split; [done|].
      destruct (effect_other w w' n l v' n' l' Hwf E Hl Hne Hl') as [_ Hfp].
      by rewrite <- Hfp.
Qed.

(** A call in steady-state mode: what it leaves alone, and what it hands
    to the callback. *)
Lemma call_steady (c : Call) (w w' : World) :
  wf w →
  enableLiveDebug (this w) = false →
  call c w = (Return tt, w') →
  this w' = this w
  ∧ (∀ x, x < next w → ¬ liveLoc w x → heap w' !! x = heap w !! x)
  ∧ (∀ x, liveLoc w' x → liveLoc w x ∨ next w ≤ x)
  ∧ match c with
    | CEnd perfNow m event =>
        if completes w perfNow m event && onPurgeCallback (this w) then
          ∃ s, purged w' = purged w ++ [(m, s)]
               ∧ (∃ v, viewRecord (heap w') s = Some v)
               ∧ (∀ x, x ∈ footprint (heap w') s → ¬ liveLoc w' x)
        else purged w' = purged w
    | _ => purged w' = purged w
    end.
Proof.
  intros Hwf Hlive Hrun.
  assert (w' = w → this w' = this w
            ∧ (∀ x, x < next w → ¬ liveLoc w x → heap w' !! x = heap w !! x)
            ∧ (∀ x, liveLoc w' x → liveLoc w x ∨ next w ≤ x)
            ∧ purged w' = purged w) as Hsame.
  { intros ->. repeat split; auto. }
  destruct c as [p n|p n e|n| |b]; cbn [call] in Hrun.
  - destruct (skipRecording (this w)) eqn:Hskip.
    { rewrite startStage_skip in Hrun by done. injection Hrun as <-. by apply Hsame. }
    destruct (records (this w) !! n) as [l|] eqn:Hl.
    2:{ apply (startStage_unregistered_inv _ _ _ _ Hwf Hl) in Hrun as ->.
        by apply Hsame. }
    destruct (wf_stage w Hwf n l Hl) as (ty & v & Hty & Hv & _).
    destruct (startStage_spec w n l ty v p Hwf Hskip Hl Hty Hv) as (w1 & Hrun1 & E & Hp).
    assert (w1 = w') as -> by congruence.
    destruct (effect_live w w' n l _ Hwf Hl E) as [Ha Hb].
    split; [apply (eff_this _ _ _ _ _ E)|]. done.
  - unfold completes, stageView.
    destruct (skipRecording (this w)) eqn:Hskip.
    { rewrite endStage_skip in Hrun by done. injection Hrun as <-. cbn. by apply Hsame. }
    destruct (records (this w) !! n) as [l|] eqn:Hl.
    2:{ apply (endStage_unregistered_inv _ _ _ _ _ Hwf Hl) in Hrun as ->. cbn.
        by apply Hsame. }
    destruct (wf_stage w Hwf n l Hl) as (ty & v & Hty & Hv & _).
    destruct (endStage_spec w n l ty v p e Hwf Hskip Hl Hty Hv) as (w1 & Hrun1 & Hpost).
    assert (w1 = w') as -> by congruence. cbn. rewrite Hv.
    destruct (cycleOf p e v) as [c|] eqn:Hc.
    + rewrite Hlive in Hpost. destruct Hpost as [E Hp].
      destruct (effect_live w w' n l _ Hwf Hl E) as [Ha Hb].
      split; [apply (eff_this _ _ _ _ _ E)|]. split; [done|]. split; [done|].
      rewrite bool_decide_eq_true_2 by eauto. cbn.
      destruct (onPurgeCallback (this w)); [|done].
      destruct Hp as (s & Hpur & Hs & Hdisj). exists s. split; [done|].
      split; [eauto|]. intros x Hx (n' & l' & Hl' & Hin).
      exact (Hdisj n' l' Hl' x Hin Hx).
    + destruct Hpost as [E Hp].
      destruct (effect_live w w' n l _ Hwf Hl E) as [Ha Hb].
      split; [apply (eff_this _ _ _ _ _ E)|]. split; [done|]. split; [done|].
      rewrite bool_decide_eq_false_2 by (by intros [? ?]). done.
  - unfold getStageArena in Hrun. rewrite bind_unfold in Hrun. cbn in Hrun.
    injection Hrun as <-. by apply Hsame.
  - unfold on_reset_performance_data in Hrun. rewrite bind_unfold in Hrun.
    cbn [gets] in Hrun. rewrite Hlive in Hrun. cbn in Hrun.
    injection Hrun as <-. by apply Hsame.
  - unfold on_init_performance_data in Hrun. rewrite bind_unfold in Hrun.
    cbn [gets] in Hrun. rewrite Hlive in Hrun. cbn in Hrun.
    injection Hrun as <-. by apply Hsame.
Qed.

Lemma call_sealed (c : Call) (w w' : World) :
  wf w → enableLiveDebug (this w) = false → sealed w →
  call c w = (Return tt, w') →
  sealed w'
  ∧ ∀ n s v, (n, s) ∈ purged w → viewRecord (heap w) s = Some v →
      (n, s) ∈ purged w' ∧ viewRecord (heap w') s = Some v.
Proof.
  intros Hwf Hlive Hsealed Hrun.
  destruct (call_steady c w w' Hwf Hlive Hrun) as (Hthis & Ha & Hb & Hp).
  assert (∀ n s v, (n, s) ∈ purged w → viewRecord (heap w) s = Some v →
            viewRecord (heap w') s = Some v
            ∧ footprint (heap w') s = footprint (heap w) s
            ∧ ∀ x, x ∈ footprint (heap w) s → ¬ liveLoc w' x) as Hold.
  { intros n s v Hin Hv. destruct (Hsealed n s Hin) as (v0 & Hv0 & Hnl).
    assert (∀ x, x ∈ footprint (heap w) s → x < next w) as Hlt.
    { intros x Hx. apply (wf_fresh w Hwf). by eapply footprint_allocated. }
    destruct (viewRecord_agree (heap w) (heap w') s v Hv) as [Hv' Hfp].
    { intros x Hx. apply Ha; [by apply Hlt|by apply Hnl]. }
    split; [done|]. split; [done|]. intros x Hx Hl'.
    destruct (Hb x Hl') as [Hl|Hge]; [by apply (Hnl x)|].
    pose proof (Hlt x Hx). lia. }
  assert (∃ tl, purged w' = purged w ++ tl
            ∧ ∀ n s, (n, s) ∈ tl →
                ∃ v, viewRecord (heap w') s = Some v
                     ∧ ∀ x, x ∈ footprint (heap w') s → ¬ liveLoc w' x)
    as (tl & Hpur & Htl).
  { destruct c as [p m|p m e|m| |b];
      try (exists []; rewrite app_nil_r; split; [done|];
           intros ? ? H; by apply elem_of_nil in H).
    destruct (completes w p m e && onPurgeCallback (this w)).
    - destruct Hp as (s & Hpur & [v Hv] & Hnl). exists [(m, s)]. split; [done|].
      intros n' s' Hin. apply list_elem_of_singleton in Hin. injection Hin as -> ->.
      eauto.
    - exists []. rewrite app_nil_r. split; [done|].
      intros ? ? H. by apply elem_of_nil in H. }
  split.
  - intros n s. rewrite Hpur, elem_of_app. intros [Hin|Hin]; [|by apply (Htl n s)].
    destruct (Hsealed n s Hin) as (v & Hv & _).
    destruct (Hold n s v Hin Hv) as (Hv' & Hfp & Hnl).
    exists v. split; [done|]. by rewrite Hfp.
  - intros n s v Hin Hv. split.
    + rewrite Hpur. apply elem_of_app. by left.
    + by apply (Hold n s v).
Qed.

Lemma reached_sealed sts skip cap live cb cs (w : World) :
  reached sts skip cap live cb cs w → enableLiveDebug (this w) = false → sealed w.
Proof.
  intros (w0 & Hnew & Hrun) Hlive.
  destruct (constructor_spec _ _ _ _ _ _ Hnew) as (Hwf0 & _ & _ & _ & _ & _ & Hp0).
  destruct (run_spec cs w0 w Hwf0 Hrun) as (_ & (Hst & _) & _).
  apply (run_invariant sealed cs w0 w Hwf0); [| |done].
  - intros n s Hin. rewrite Hp0 in Hin. by apply elem_of_nil in Hin.
  - intros c w1 w2 Hwf1 (Hl1 & _) Hs1 Hc.
    apply (call_sealed c w1 w2 Hwf1); [congruence|done..].
Qed.

(** The snapshots handed to the callback are the callback's alone: in
    steady-state mode, whatever calls follow, a snapshot still reads as it
    did when it was handed over, and the trace of invocations only grows. *)
Theorem snapshots_are_never_touched
    sts skip cap live cb cs (w w' : World) n s v (cs' : list Call) :
  reached sts skip cap live cb cs w →
  enableLiveDebug (this w) = false →
  (n, s) ∈ purged w →
  viewRecord (heap w) s = Some v →
  run cs' w = (Return tt, w') →
  (n, s) ∈ purged w' ∧ viewRecord (heap w') s = Some v.
Proof.
  intros Hreach Hlive Hin Hv Hrun.
  destruct (reached_spec _ _ _ _ _ _ _ Hreach) as (Hwf & _).
  pose proof (reached_sealed _ _ _ _ _ _ _ Hreach Hlive) as Hsealed.
  enough (sealed w' ∧ (n, s) ∈ purged w' ∧ viewRecord (heap w') s = Some v) by tauto.
  apply (run_invariant
           (λ w1, sealed w1 ∧ (n, s) ∈ purged w1 ∧ viewRecord (heap w1) s = Some v)
           cs' w w' Hwf); [done| |done].
  intros c w1 w2 Hwf1 (Hl1 & _) (Hs1 & Hin1 & Hv1) Hc.
  destruct (call_sealed c w1 w2 Hwf1 ltac:(congruence) Hs1 Hc) as [Hs2 Hkeep].
  split; [done|]. by apply Hkeep.
Qed.

Lemma snapshots_are_never_touched_witness :
  let w0 := snd (constructor [StageName "render"] None None None true) in
  let w := snd (run [CStart 1 "render"; CEnd 6 "render" None] w0) in
  let w' := snd (run [CStart 7 "render"; CEnd 9 "render" None; CStart 11 "render"] w) in
  viewRecord (heap w') 5
  = Some {| vCurrentRefTime := VNumber 0; vTotalCycles := 1;
            vRecentCycles := [{| r := 1; t := 5 |}] |}.
Proof.
  intros w0 w w'.
  apply (snapshots_are_never_touched
           [StageName "render"] None None None true
           [CStart 1 "render"; CEnd 6 "render" None] w w' "render" 5 _
           [CStart 7 "render"; CEnd 9 "render" None; CStart 11 "render"]).
  - exists w0. split; vm_compute; reflexivity.
  - vm_compute; reflexivity.
  - vm_compute. left.
  - vm_compute; reflexivity.
  - vm_compute; reflexivity.
Defined.

(** In steady-state mode with a callback, the callback has been invoked
    for a stage as many times as the stage completed cycles: the lifetime
    counter equals the number of snapshots handed over under that name. *)
Theorem one_callback_per_completed_cycle sts skip cap live cb cs (w : World) n v :
  reached sts skip cap live cb cs w →
  enableLiveDebug (this w) = false →
  onPurgeCallback (this w) = true →
  stageView n w = Some v →
  vTotalCycles v = Z.of_nat (length (filter (λ p, p.1 = n) (purged w))).
Proof.
  intros (w0 & Hnew & Hrun) Hlive Hcb. revert n v.
  destruct (constructor_spec _ _ _ _ _ _ Hnew) as (Hwf0 & Hdom0 & Hfresh0 & _ & _ & _ & Hp0).
  destruct (run_spec cs w0 w Hwf0 Hrun) as (_ & (Hst & _ & Hst') & _).
  apply (run_invariant
           (λ w, ∀ n v, stageView n w = Some v →
                        vTotalCycles v
                        = Z.of_nat (length (filter (λ p, p.1 = n) (purged w))))
           cs w0 w Hwf0); [| |done].
  - intros n v Hv. rewrite Hp0. destruct (Hfresh0 n) as (ty & Hf & _).
    { apply Hdom0. by eapply stageView_registered. }
    assert (v = freshView ty) as -> by congruence. done.
  - intros c w1 w2 Hwf1 (Hl1 & _ & Hcb1) IH Hc n v2 Hv2.
    destruct (call_stage_back c w1 w2 n v2 Hwf1 Hc Hv2) as (ty & v1 & Hty & Hv1 & Hstep).
    specialize (IH n v1 Hv1).
    assert (enableLiveDebug (this w1) = false) as Hlive1 by congruence.
    assert (onPurgeCallback (this w1) = true) as Hcb1' by congruence.
    destruct (call_steady c w1 w2 Hwf1 Hlive1 Hc) as (_ & _ & _ & Hp).
    rewrite (stageStep_total _ _ _ _ _ _ Hstep).
    destruct c as [p m|p m e|m| |b]; try (by rewrite Hp).
    + unfold completes in Hp. rewrite Hcb1', andb_true_r in Hp.
      destruct (decide (m = n)) as [->|Hne].
      * rewrite bool_decide_eq_true_2 by done. rewrite Hv1 in Hp. cbn [andb].
        destruct (negb (skipRecording (this w1))
                  && bool_decide (is_Some (cycleOf p e v1))).
        -- destruct Hp as (s & -> & _). rewrite filter_app, length_app.
           rewrite filter_cons_True by done. cbn. lia.
        -- by rewrite Hp.
      * rewrite bool_decide_eq_false_2 by done. cbn [andb].
        destruct (_ && _) in Hp.
        -- destruct Hp as (s & -> & _). rewrite filter_app, length_app.
           rewrite filter_cons_False by done. cbn. lia.
        -- by rewrite Hp.
    + by rewrite Hlive1, Hp.
Qed.

Lemma one_callback_per_completed_cycle_witness :
  let w0 := snd (constructor [StageName "render"; StageName "paint"]
                   None None None true) in
  let w := snd (run [CStart 1 "render"; CEnd 6 "render" None; CEnd 7 "paint" (Some 3%Z);
                     CEnd 8 "render" None; CEnd 9 "render" (Some 4%Z)] w0) in
  ∃ v, stageView "render" w = Some v
       ∧ vTotalCycles v = Z.of_nat (length (filter (λ p, p.1 = "render") (purged w)))
       ∧ vTotalCycles v = 2%Z.
Proof.
  intros w0 w.
  exists {| vCurrentRefTime := VNumber 0; vTotalCycles := 2; vRecentCycles := [] |}.
  split; [vm_compute; reflexivity|]. split; [|reflexivity].
  apply (one_callback_per_completed_cycle
           [StageName "render"; StageName "paint"] None None None true
           [CStart 1 "render"; CEnd 6 "render" None; CEnd 7 "paint" (Some 3%Z);
            CEnd 8 "render" None; CEnd 9 "render" (Some 4%Z)] w "render").
  - exists w0. split; vm_compute; reflexivity.
  - vm_compute; reflexivity.
  - vm_compute; reflexivity.
  - vm_compute; reflexivity.
Defined.

Lemma call_records (c : Call) (w w' : World) :
  wf w → c ≠ CReset → call c w = (Return tt, w') →
  records (this w') = records (this w).
Proof.
  intros Hwf Hc Hrun. destruct c as [p n|p n e|n| |b]; try done.
  - by rewrite (probe_this (CStart p n) w w' Hwf I Hrun).
  - by rewrite (probe_this (CEnd p n e) w w' Hwf I Hrun).
  - by rewrite (probe_this (CGet n) w w' Hwf I Hrun).
  - cbn [call] in Hrun. unfold on_init_performance_data in Hrun.
    rewrite bind_unfold in Hrun. cbn [gets] in Hrun.
    destruct (enableLiveDebug (this w)), b as [b|]; cbn in Hrun; try done;
      by injection Hrun as <-.
Qed.

(** [getStageArena] hands out the record itself, not a copy: as long as
    no reset intervenes it returns the same object, and what is read
    through a reference obtained earlier is the present state of the
    stage. *)
Theorem getStageArena_returns_the_live_record
    sts skip cap live cb cs (w w' : World) n l (cs' : list Call) :
  reached sts skip cap live cb cs w →
  getStageArena n w = (Return (JRecord l), w) →
  Forall (λ c, c ≠ CReset) cs' →
  run cs' w = (Return tt, w') →
  getStageArena n w' = (Return (JRecord l), w')
  ∧ viewRecord (heap w') l = stageView n w'.
Proof.
  intros Hreach Hget Hcs Hrun.
  destruct (reached_spec _ _ _ _ _ _ _ Hreach) as (Hwf & _).
  unfold getStageArena, gets in *. injection Hget as Hl.
  apply getProperty_record in Hl.
  assert (records (this w') = records (this w)) as Hrec.
  { clear Hreach Hl. unfold run in Hrun. revert w Hwf Hrun.
    induction Hcs as [|c cs' Hc _ IH]; intros w Hwf Hrun.
    - cbn in Hrun. by injection Hrun as <-.
    - cbn [forEach] in Hrun. rewrite bind_unfold in Hrun.
      destruct (call c w) as [[[]|e] w1] eqn:Hc1; [|done].
      destruct (call_returns c w w1 Hwf Hc1) as (_ & Hwf1 & _).
      rewrite (IH w1 Hwf1 Hrun).
      by apply (call_records c w w1). }
  unfold stageView. rewrite Hrec, Hl.
  split; [|done]. by rewrite (getProperty_own w' n l) by congruence.
Qed.

Lemma getStageArena_returns_the_live_record_witness :
  let w0 := snd (constructor [StageName "render"] None None (Some true) false) in
  let w' := snd (run [CStart 1 "render"; CEnd 6 "render" None] w0) in
  viewRecord (heap w') 1
  = Some {| vCurrentRefTime := VNumber 0; vTotalCycles := 1;
            vRecentCycles := [{| r := 1; t := 5 |}] |}.
Proof.
  intros w0 w'.
  destruct (getStageArena_returns_the_live_record
              [StageName "render"] None None (Some true) false [] w0 w' "render" 1
              [CStart 1 "render"; CEnd 6 "render" None]) as [_ Hview].
  - exists w0. split; vm_compute; reflexivity.
  - vm_compute; reflexivity.
  - repeat constructor; discriminate.
  - vm_compute; reflexivity.
  - rewrite Hview. vm_compute. reflexivity.
Defined.

(** [initializePerformanceData] writes to new objects only, and the record
    it registers is one of them. *)
Lemma initializeStage_heap (w w' : World) (force : bool) (stage : Stage) :
  initializeStage force stage w = (Return tt, w') →
  next w ≤ next w'
  ∧ (∀ x, x < next w → heap w' !! x = heap w !! x)
  ∧ ∃ l, records (this w') !! stageName stage = Some l ∧ next w ≤ l.
Proof.
  unfold initializeStage.
  set (s := match stage with
            | StageName n => {| name := n; type := Some sync |}
            | StageExtened s => s
            end).
  assert (name s = stageName stage) as -> by (by destruct stage).
  generalize (default sync (type s)). clear s. intros ty.
  rewrite bind_unfold. cbn [gets].
  destruct (truthy _ && negb force); [done|].
  destruct ty.
  - rewrite bind_unfold. cbn [ret]. rewrite bind_unfold. cbn [alloc].
    rewrite bind_unfold. cbn [alloc modify]. intros [= <-]. cbn.
    split; [lia|]. split.
    + intros x Hx. rewrite !lookup_insert_ne by lia. done.
    + eexists. rewrite lookup_insert_eq. split; [done|]. lia.
  - rewrite bind_unfold, bind_unfold. cbn [alloc ret]. rewrite bind_unfold. cbn [alloc].
    rewrite bind_unfold. cbn [alloc modify]. intros [= <-]. cbn.
    split; [lia|]. split.
    + intros x Hx. rewrite !lookup_insert_ne by lia. done.
    + eexists. rewrite lookup_insert_eq. split; [done|]. lia.
Qed.

Lemma initializePerformanceData_heap (sts : list Stage) (force : bool) (w w' : World) :
  initializePerformanceData sts force w = (Return tt, w') →
  next w ≤ next w'
  ∧ (∀ x, x < next w → heap w' !! x = heap w !! x)
  ∧ ∀ n, n ∈ stageName <$> sts →
      ∃ l, records (this w') !! n = Some l ∧ next w ≤ l.
Proof.
  unfold initializePerformanceData.
  revert w. induction sts as [|st sts IH]; intros w Hrun.
  - cbn in Hrun. injection Hrun as <-. split; [done|]. split; [done|].
    intros n Hn. by apply elem_of_nil in Hn.
  - cbn [forEach] in Hrun. rewrite bind_unfold in Hrun.
    destruct (initializeStage force st w) as [[[]|e] w1] eqn:H1; [|done].
    destruct (initializeStage_heap _ _ _ _ H1) as (Hn1 & Hh1 & l1 & Hl1 & Hge1).
    destruct (IH w1 Hrun) as (Hn' & Hh' & Hin').
    split; [lia|]. split.
    + intros x Hx. rewrite Hh' by lia. by apply Hh1.
    + intros n Hn. cbn in Hn.
      destruct (decide (n ∈ stageName <$> sts)) as [Hin|Hnin].
      * destruct (Hin' n Hin) as (l & Hl & Hge). exists l. split; [done|]. lia.
      * apply elem_of_cons in Hn as [->|Hn]; [|done].
        exists l1. split; [|done]. clear - Hrun Hl1 Hnin. revert w1 Hrun Hl1.
        induction sts as [|st' sts IH']; intros w1 Hrun Hl1.
        { cbn in Hrun. by injection Hrun as <-. }
        cbn [forEach] in Hrun. rewrite bind_unfold in Hrun.
        destruct (initializeStage force st' w1) as [[[]|e] w2] eqn:H2; [|done].
        cbn in Hnin. apply not_elem_of_cons in Hnin as [Hne Hnin].
        apply (IH' Hnin w2 Hrun). clear - H2 Hl1 Hne.
        unfold initializeStage in H2.
        set (s := match st' with
                  | StageName n => {| name := n; type := Some sync |}
                  | StageExtened s => s
                  end) in *.
        assert (name s = stageName st') as Hname by (by destruct st').
        rewrite Hname in H2. clearbody s. rewrite bind_unfold in H2. cbn [gets] in H2.
        destruct (truthy _ && negb force); [done|].
        destruct (default sync (type s)).
        -- rewrite bind_unfold in H2. cbn [ret] in H2. rewrite bind_unfold in H2.
           cbn [alloc] in H2. rewrite bind_unfold in H2. cbn [alloc modify] in H2.
           injection H2 as <-. cbn. by rewrite lookup_insert_ne.
        -- rewrite bind_unfold, bind_unfold in H2. cbn [alloc ret] in H2.
           rewrite bind_unfold in H2. cbn [alloc] in H2. rewrite bind_unfold in H2.
           cbn [alloc modify] in H2. injection H2 as <-. cbn.
           by rewrite lookup_insert_ne.
Qed.

(** A reset replaces every record by a new object.  A record obtained
    from [getStageArena] before the reset is then no longer the record of
    the stage, and goes on reading what it held when the reset came. *)
Theorem reset_orphans_the_old_records sts skip cap live cb cs (w : World) n l v :
  reached sts skip cap live cb cs w →
  enableLiveDebug (this w) = true →
  getStageArena n w = (Return (JRecord l), w) →
  viewRecord (heap w) l = Some v →
  ∃ w' l', on_reset_performance_data w = (Return tt, w')
    ∧ getStageArena n w' = (Return (JRecord l'), w')
    ∧ l' ≠ l
    ∧ viewRecord (heap w') l = Some v.
Proof.
  intros Hreach Hlive Hget Hv.
  destruct (reached_spec _ _ _ _ _ _ _ Hreach) as (Hwf & _).
  unfold getStageArena, gets in Hget. injection Hget as Hl.
  apply getProperty_record in Hl.
  destruct (initializePerformanceData_force (StageExtened <$> stages (this w)) w)
    as (w' & Hrun).
  destruct (initializePerformanceData_heap _ _ _ _ Hrun) as (_ & Hold & Hnew).
  destruct (Hnew n) as (l' & Hl' & Hge).
  { rewrite <- list_fmap_compose. change (stageName ∘ StageExtened) with name.
    apply (wf_stages w Hwf). eauto. }
  exists w', l'. split.
  { unfold on_reset_performance_data. rewrite bind_unfold. cbn [gets]. rewrite Hlive.
    by rewrite bind_unfold. }
  split; [unfold getStageArena, gets; by rewrite (getProperty_own w' n l' Hl')|].
  assert (l < next w) as Hlt.
  { destruct (viewRecord_inv _ _ _ Hv) as (d & ls & Hd & _).
    apply (wf_fresh w Hwf). eauto. }
  split; [lia|].
  apply (viewRecord_agree (heap w) (heap w') l v Hv).
  intros x Hx. apply Hold. by apply (live_below w n l x).
Qed.

Lemma reset_orphans_the_old_records_witness :
  let w0 := snd (constructor [StageName "render"] None None (Some true) false) in
  let w := snd (run [CStart 1 "render"; CEnd 6 "render" None] w0) in
  ∃ w' l', on_reset_performance_data w = (Return tt, w')
    ∧ getStageArena "render" w' = (Return (JRecord l'), w')
    ∧ l' ≠ 1
    ∧ viewRecord (heap w') 1
      = Some {| vCurrentRefTime := VNumber 0; vTotalCycles := 1;
                vRecentCycles := [{| r := 1; t := 5 |}] |}.
Proof.
  intros w0 w.
  apply (reset_orphans_the_old_records
           [StageName "render"] None None (Some true) false
           [CStart 1 "render"; CEnd 6 "render" None] w "render" 1).
  - exists w0. split; vm_compute; reflexivity.
  - vm_compute; reflexivity.
  - vm_compute; reflexivity.
  - vm_compute; reflexivity.
Defined.

(** The constructor installs the two listeners only for live debugging.
    An arena built with [skipRecording] and without [enableLiveDebug] can
    therefore never be switched on: whatever is called, it stays as the
    constructor left it. *)
Theorem skipped_arena_without_live_debug_stays_inert
    (sts : list Stage) cap live cb (w0 : World) (cs : list Call) :
  constructor sts (Some true) cap live cb = (Return tt, w0) →
  default false live = false →
  run cs w0 = (Return tt, w0).
Proof.
  intros Hnew Hlive.
  destruct (constructor_spec _ _ _ _ _ _ Hnew) as (_ & _ & _ & Hl0 & _ & Hskip0 & _).
  rewrite Hlive in Hl0. cbn in Hskip0. unfold run.
  induction cs as [|c cs IH]; [done|].
  cbn [forEach]. rewrite bind_unfold.
  assert (call c w0 = (Return tt, w0)) as ->; [|done].
  destruct c as [p n|p n e|n| |b]; cbn [call].
  - by apply startStage_skip.
  - by apply endStage_skip.
  - done.
  - unfold on_reset_performance_data. rewrite bind_unfold. cbn [gets]. by rewrite Hl0.
  - unfold on_init_performance_data. rewrite bind_unfold. cbn [gets]. by rewrite Hl0.
Qed.

Lemma skipped_arena_without_live_debug_stays_inert_witness :
  let w0 := snd (constructor [StageName "render"] (Some true) None None true) in
  run [CInit (Some false); CStart 1 "render"; CEnd 6 "render" (Some 2%Z); CReset] w0
  = (Return tt, w0).
Proof.
  intros w0.
  apply (skipped_arena_without_live_debug_stays_inert
           [StageName "render"] None None true w0).
  - vm_compute; reflexivity.
  - reflexivity.
Defined.

Lemma call_live_purged (c : Call) (w w' : World) :
  wf w → enableLiveDebug (this w) = true → call c w = (Return tt, w') →
  purged w' = purged w.
Proof.
  intros Hwf Hlive Hrun. destruct c as [p n|p n e|n| |b]; cbn [call] in Hrun.
  - destruct (skipRecording (this w)) eqn:Hskip.
    { rewrite startStage_skip in Hrun by done. by injection Hrun as <-. }
    destruct (records (this w) !! n) as [l|] eqn:Hl.
    2:{ by apply (startStage_unregistered_inv _ _ _ _ Hwf Hl) in Hrun as ->. }
    destruct (wf_stage w Hwf n l Hl) as (ty & v & Hty & Hv & _).
    destruct (startStage_spec w n l ty v p Hwf Hskip Hl Hty Hv) as (w1 & Hrun1 & _ & Hp).
    congruence.
  - destruct (skipRecording (this w)) eqn:Hskip.
    { rewrite endStage_skip in Hrun by done. by injection Hrun as <-. }
    destruct (records (this w) !! n) as [l|] eqn:Hl.
    2:{ by apply (endStage_unregistered_inv _ _ _ _ _ Hwf Hl) in Hrun as ->. }
    destruct (wf_stage w Hwf n l Hl) as (ty & v & Hty & Hv & _).
    destruct (endStage_spec w n l ty v p e Hwf Hskip Hl Hty Hv) as (w1 & Hrun1 & Hpost).
    assert (w1 = w') as -> by congruence. rewrite Hlive in Hpost.
    by destruct (cycleOf p e v); destruct Hpost as [_ Hp].
  - unfold getStageArena in Hrun. rewrite bind_unfold in Hrun. cbn in Hrun.
    by injection Hrun as <-.
  - unfold on_reset_performance_data in Hrun. rewrite bind_unfold in Hrun.
    cbn [gets] in Hrun. rewrite Hlive, bind_unfold in Hrun. cbn [gets] in Hrun.
    by destruct (initializePerformanceData_post _ _ _ _ Hwf (wf_admissible w Hwf) Hrun)
      as (_ & _ & _ & _ & _ & _ & Hp).
  - unfold on_init_performance_data in Hrun. rewrite bind_unfold in Hrun.
    cbn [gets] in Hrun. rewrite Hlive in Hrun. destruct b as [b|]; [|done].
    cbn in Hrun. by injection Hrun as <-.
Qed.

(** With live debugging on, the purge callback is never invoked, even
    when one was supplied. *)
Theorem live_debug_never_invokes_the_callback sts skip cap live cb cs (w : World) :
  reached sts skip cap live cb cs w →
  enableLiveDebug (this w) = true →
  purged w = [].
Proof.
  intros (w0 & Hnew & Hrun) Hlive.
  destruct (constructor_spec _ _ _ _ _ _ Hnew) as (Hwf0 & _ & _ & _ & _ & _ & Hp0).
  destruct (run_spec cs w0 w Hwf0 Hrun) as (_ & (Hst & _) & _).
  apply (run_invariant (λ w, purged w = []) cs w0 w Hwf0); [done| |done].
  intros c w1 w2 Hwf1 (Hl1 & _) Hp1 Hc.
  rewrite (call_live_purged c w1 w2 Hwf1); [done|congruence|done].
Qed.

Lemma live_debug_never_invokes_the_callback_witness :
  let w0 := snd (constructor [StageName "render"] None (Some 1%Z) (Some true) true) in
  let w := snd (run [CStart 1 "render"; CEnd 6 "render" None;
                     CEnd 9 "render" (Some 2%Z)] w0) in
  purged w = [].
Proof.
  intros w0 w.
  apply (live_debug_never_invokes_the_callback
           [StageName "render"] None (Some 1%Z) (Some true) true
           [CStart 1 "render"; CEnd 6 "render" None; CEnd 9 "render" (Some 2%Z)]).
  - exists w0. split; vm_compute; reflexivity.
  - vm_compute; reflexivity.
Defined.

(** ** The lifetime counter *)

(** No call changes the type of a stage, and the init event alone switches
    recording. *)
Lemma call_config (c : Call) (w w' : World) :
  wf w → typed w → call c w = (Return tt, w') →
  cache (this w') = cache (this w)
  ∧ skipRecording (this w')
    = match c with
      | CInit (Some skip) =>
          if enableLiveDebug (this w) then skip else skipRecording (this w)
      | _ => skipRecording (this w)
      end.
Proof.
  intros Hwf Hty Hrun. destruct c as [p n|p n e|n| |b].
  - by rewrite (probe_this (CStart p n) w w' Hwf I Hrun).
  - by rewrite (probe_this (CEnd p n e) w w' Hwf I Hrun).
  - by rewrite (probe_this (CGet n) w w' Hwf I Hrun).
  - cbn [call] in Hrun. unfold on_reset_performance_data in Hrun.
    rewrite bind_unfold in Hrun. cbn [gets] in Hrun.
    destruct (enableLiveDebug (this w)).
    + rewrite bind_unfold in Hrun. cbn [gets] in Hrun.
      destruct (initializePerformanceData_again (stages (this w)) w Hwf Hty)
        as (w1 & Hrun1 & _ & Hc & _); [done|].
      assert (w1 = w') as -> by congruence. split; [done|].
      by destruct (initializePerformanceData_post _ _ _ _ Hwf (wf_admissible w Hwf) Hrun)
        as (_ & _ & _ & _ & _ & Hs & _).
    + cbn in Hrun. by injection Hrun as <-.
  - cbn [call] in Hrun. unfold on_init_performance_data in Hrun.
    rewrite bind_unfold in Hrun. cbn [gets] in Hrun.
    destruct (enableLiveDebug (this w)), b as [b|]; cbn in Hrun; try done;
      by injection Hrun as <-.
Qed.

Lemma call_linked (ty : StageExecutionType) (c : Call) (w w' : World) n (t : Tally) :
  wf w → typed w → nonzero c → linked ty w n t →
  call c w = (Return tt, w') →
  linked ty w' n (cycleStep ty (enableLiveDebug (this w)) n t c).
Proof.
  intros Hwf Htyped Hnz (v & Hv & Hty & Hsh & Hrec & Htot & Hpend) Hrun.
  destruct (call_returns c w w' Hwf Hrun) as (Hnr & Hwf' & _ & _).
  destruct (call_config c w w' Hwf Htyped Hrun) as [Hcache Hskip].
  destruct (call_stage c w n ty v Hwf Hv Hty Hnr) as (w1 & v' & Hrun1 & Hv' & Hstep).
  assert (w1 = w') as -> by congruence.
  assert (shaped ty v') as Hsh'.
  { unfold stageView in Hv'. destruct (records (this w') !! n) as [l|] eqn:Hl; [|done].
    eapply (wf_shaped w' n l); try done. by rewrite Hcache. }
  exists v'. split; [done|]. split; [by rewrite Hcache|]. split; [done|].
  rewrite Hskip. clear Hrun Hrun1 Hv' Hcache Hskip Hwf' Hnr.
  inversion Hstep as [p Hs|p e Hs Hc|p e c0 Hs Hc|ty' Hl|c0 Hu]; subst;
    cbn [cycleStep pairStep].
  - (* a start *)
    rewrite Hs in Hrec |- *.
    rewrite bool_decide_eq_true_2 by done. rewrite Hrec. cbn [negb andb].
    cbn in Hnz. clear Hsh' Hstep.
    unfold shaped in Hsh. unfold started, tallyStart.
    destruct ty, (vCurrentRefTime v) as [z|q]; try done; cbn.
    + split; [done|]. split; [done|]. by rewrite bool_decide_eq_false_2.
    + destruct Hpend as [Hlen Hq]. split; [done|]. split; [done|].
      rewrite length_app, Forall_app, Forall_singleton. cbn. split; [lia|done].
  - (* an end that records nothing *)
    rewrite Hs in Hrec |- *. clear Hsh' Hstep. unfold cycleOf, resolved in Hc.
    destruct e as [ts|].
    + cbn in Hnz. by rewrite bool_decide_eq_false_2 in Hc.
    + rewrite bool_decide_eq_true_2 by done. rewrite Hrec. cbn [negb andb].
      unfold dequeued, tallyEnd.
      destruct (vCurrentRefTime v) as [z|[|x q]] eqn:Hz.
      * case_bool_decide; [|done]. rewrite Hpend, Hz, Hpend.
        by rewrite bool_decide_eq_true_2.
      * destruct Hpend as [Hp Hq]. by rewrite Hp, Hz.
      * destruct Hpend as [_ Hq]. apply Forall_cons in Hq as [Hx _].
        cbn in Hc. by rewrite bool_decide_eq_false_2 in Hc.
  - (* an end that records a cycle *)
    rewrite Hs in Hrec |- *. clear Hstep.
    destruct (closed_fields ty e c0 v) as [Hct _].
    assert (vTotalCycles (retained (enableLiveDebug (this w)) (inMemCycles (this w))
                            (closed ty e c0 v)) = (vTotalCycles v + 1)%Z) as Htot' by done.
    assert (vCurrentRefTime (retained (enableLiveDebug (this w)) (inMemCycles (this w))
                               (closed ty e c0 v)) = vCurrentRefTime (closed ty e c0 v))
      as -> by done.
    rewrite Htot'. rewrite bool_decide_eq_true_2 by done. rewrite Hrec. cbn [negb andb].
    unfold cycleOf, resolved in Hc. unfold shaped in Hsh.
    destruct e as [ts|].
    + unfold tallyEvent. cbn. split; [done|]. split; [lia|].
      unfold closed, dequeued. by destruct ty, (vCurrentRefTime v).
    + unfold closed, dequeued, tallyEnd.
      destruct ty, (vCurrentRefTime v) as [z|[|x q]] eqn:Hz; try done; cbn in *.
      * case_bool_decide; [done|]. rewrite Hpend. cbn. split; [done|]. split; [lia|done].
      * destruct Hpend as [-> Hq]. apply Forall_cons in Hq as [_ Hq]. cbn.
        split; [done|]. split; [lia|done].
  - (* a reset *)
    rewrite Hl. unfold shaped in Hsh'. unfold tallyReset.
    by destruct ty, ty'.
  - (* a call that leaves the stage alone *)
    destruct c as [p m|p m e|m| |[b|]]; cbn in Hu; cbn [cycleStep pairStep].
    + assert (bool_decide (m = n) && recording t = false) as ->; [|done].
      destruct Hu as [Hne|Hs]; [by rewrite bool_decide_eq_false_2|].
      rewrite Hrec, Hs. apply andb_false_r.
    + assert (bool_decide (m = n) && recording t = false) as Hoff.
      { destruct Hu as [Hne|Hs]; [by rewrite bool_decide_eq_false_2|].
        rewrite Hrec, Hs. apply andb_false_r. }
      rewrite Hoff. by destruct e.
    + done.
    + by rewrite Hu.
    + unfold tallyInit. by destruct (enableLiveDebug (this w)).
    + done.
Qed.

Lemma run_linked (ty : StageExecutionType) (cs : list Call) (w w' : World) n (t : Tally) :
  wf w → typed w → Forall nonzero cs → linked ty w n t →
  run cs w = (Return tt, w') →
  linked ty w' n (foldl (cycleStep ty (enableLiveDebug (this w)) n) t cs).
Proof.
  unfold run. revert w t. induction cs as [|c cs IH]; intros w t Hwf Hty Hnz Hl Hrun.
  - cbn in Hrun. by injection Hrun as <-.
  - apply Forall_cons in Hnz as [Hc Hnz].
    cbn [forEach] in Hrun. rewrite bind_unfold in Hrun.
    destruct (call c w) as [[[]|e] w1] eqn:Hcall; [|done].
    destruct (call_returns c w w1 Hwf Hcall) as (_ & Hwf1 & (Hlive & _) & _).
    cbn [foldl]. rewrite <- Hlive.
    apply (IH w1); try done.
    + exact (call_typed c w w1 Hwf Hty Hcall).
    + rewrite Hlive. exact (call_linked ty c w w1 n t Hwf Hty Hc Hl Hcall).
Qed.

(** Without events the two counts are one. *)
Lemma eventless_pairs ty live n (t : Tally) (cs : list Call) :
  Forall eventless cs →
  foldl (cycleStep ty live n) t cs = foldl (pairStep ty live n) t cs.
Proof.
  revert t. induction cs as [|c cs IH]; intros t Hcs; [done|].
  apply Forall_cons in Hcs as [Hc Hcs]. cbn [foldl]. rewrite IH by done.
  f_equal. by destruct c as [| ? ? [?|]| | |].
Qed.

Lemma reached_cache sts skip cap live cb cs (w0 w : World) :
  constructor sts skip cap live cb = (Return tt, w0) →
  run cs w0 = (Return tt, w) →
  cache (this w) = cache (this w0).
Proof.
  intros Hnew Hrun.
  destruct (constructor_spec _ _ _ _ _ _ Hnew) as (Hwf0 & _).
  assert (typed w0) as Hty0.
  { apply (reached_typed sts skip cap live cb [] w0). by exists w0. }
  apply (run_invariant (λ w, typed w ∧ cache (this w) = cache (this w0)) cs w0 w Hwf0);
    [done| |done].
  intros c w1 w2 Hwf1 _ [Hty1 Hc1] Hc.
  split; [exact (call_typed c w1 w2 Hwf1 Hty1 Hc)|].
  destruct (call_config c w1 w2 Hwf1 Hty1 Hc) as [-> _]. done.
Qed.

Lemma reached_total_nonneg sts skip cap live cb cs (w : World) n v :
  reached sts skip cap live cb cs w →
  stageView n w = Some v →
  (0 ≤ vTotalCycles v)%Z.
Proof.
  intros (w0 & Hnew & Hrun). revert n v.
  destruct (constructor_spec _ _ _ _ _ _ Hnew) as (Hwf0 & Hdom0 & Hfresh0 & _).
  apply (run_invariant (λ w, ∀ n v, stageView n w = Some v → (0 ≤ vTotalCycles v)%Z)
           cs w0 w Hwf0); [| |done].
  - intros n v Hv. destruct (Hfresh0 n) as (ty & Hf & _).
    { apply Hdom0. by eapply stageView_registered. }
    assert (v = freshView ty) as -> by congruence. done.
  - intros c w1 w2 Hwf1 _ IH Hc n v' Hv'.
    destruct (call_stage_back c w1 w2 n v' Hwf1 Hc Hv') as (ty & v & Hty & Hv & Hstep).
    specialize (IH n v Hv). rewrite (stageStep_total _ _ _ _ _ _ Hstep).
    destruct c as [| | | |]; try done.
    + destruct (_ && _); lia.
    + destruct (enableLiveDebug (this w1)); lia.
Qed.

(** C7, as stated, fails.  On a fresh arena a single [endStage] at clock
    time 5 with an event stamped 3: no start was made, so no start/end
    pair was completed, yet the code records a cycle and the counter
    reads 1. *)
Lemma C7_counterexample :
  let w0 := snd (constructor [StageName "render"] None None (Some true) false) in
  let cs := [CEnd 5 "render" (Some 3%Z)] in
  run cs w0 = (Return tt, snd (run cs w0))
  ∧ Forall nonzero cs
  ∧ stageView "render" (snd (run cs w0))
    = Some {| vCurrentRefTime := VNumber 0; vTotalCycles := 1;
              vRecentCycles := [{| r := 3; t := 2 |}] |}
  ∧ pairs sync true "render" None cs = 0%Z
  ∧ ∀ v, stageView "render" (snd (run cs w0)) = Some v →
         vTotalCycles v ≠ pairs sync true "render" None cs.
Proof.
  split; [vm_compute; reflexivity|]. split; [repeat constructor; discriminate|].
  split; [vm_compute; reflexivity|]. split; [vm_compute; reflexivity|].
  intros v Hv. vm_compute in Hv. injection Hv as <-. vm_compute. discriminate.
Qed.

(** C7, amended.  The lifetime counter of a registered stage is never
    negative; no call other than the reset makes it smaller, whether the
    call returns or raises; [purgeArena] leaves it alone; and it goes back
    to zero through the reset only.  When no clock reading at a start and
    no time stamp of an event is zero, the counter equals the number of
    cycles counted on the calls since the last reset, whatever was evicted
    or flushed meanwhile and whatever mode the arena is in: one for each
    start/end pair completed by an [endStage] without event, and one for
    each [endStage] with an event on the stage while recording is on, which
    closes no start.  When no call comes with an event, this is the number
    of completed start/end pairs. *)
Theorem C7_lifetime_counter sts skip cap live cb cs (w : World) n :
  reached sts skip cap live cb cs w →
  n ∈ stageName <$> sts →
  ∃ ty v, cache (this w) !! n = Some ty
    ∧ stageView n w = Some v
    ∧ (Forall nonzero cs →
       vTotalCycles v = cycles ty (default false live) n skip cs)
    ∧ (Forall nonzero cs → Forall eventless cs →
       vTotalCycles v = pairs ty (default false live) n skip cs)
    ∧ (0 ≤ vTotalCycles v)%Z
    ∧ (∀ c, ∃ v', stageView n (snd (call c w)) = Some v'
          ∧ (c ≠ CReset → (vTotalCycles v ≤ vTotalCycles v')%Z)
          ∧ (vTotalCycles v ≠ 0%Z → vTotalCycles v' = 0%Z →
             c = CReset ∧ enableLiveDebug (this w) = true)
          ∧ (c = CReset → enableLiveDebug (this w) = true → vTotalCycles v' = 0%Z))
    ∧ (∃ w' v', purgeArena n w = (Return tt, w') ∧ stageView n w' = Some v'
                ∧ vTotalCycles v' = vTotalCycles v).
Proof.
  intros Hreach Hn. pose proof Hreach as (w0 & Hnew & Hrun).
  destruct (reached_spec _ _ _ _ _ _ _ Hreach) as (Hwf & Hdom & _).
  destruct (constructor_spec _ _ _ _ _ _ Hnew)
    as (Hwf0 & _ & Hfresh0 & Hlive0 & _ & Hskip0 & _).
  destruct (Hfresh0 n Hn) as (ty & Hv0 & Hty0).
  assert (cache (this w) !! n = Some ty) as Hty.
  { by rewrite (reached_cache _ _ _ _ _ _ _ _ Hnew Hrun). }
  destruct (registered_stageView w n Hwf (proj2 (Hdom n) Hn)) as (ty' & v & Hty' & Hv).
  assert (Forall nonzero cs →
          vTotalCycles v = cycles ty (default false live) n skip cs) as Hcycles.
  { intros Hnz.
    assert (linked ty w0 n (tally0 skip)) as Hl0.
    { exists (freshView ty). split; [done|]. split; [done|].
      split; [by destruct ty|]. split; [by rewrite Hskip0|]. split; [done|].
      by destruct ty. }
    assert (typed w0) as Htyped0.
    { apply (reached_typed sts skip cap live cb [] w0). by exists w0. }
    destruct (run_linked ty cs w0 w n _ Hwf0 Htyped0 Hnz Hl0 Hrun)
      as (v1 & Hv1 & _ & _ & _ & Htot & _).
    assert (v1 = v) as -> by congruence.
    unfold cycles. by rewrite <- Hlive0, Htot. }
  exists ty, v. split; [done|]. split; [done|]. split; [done|].
  split.
  { intros Hnz Hev. rewrite (Hcycles Hnz). unfold cycles, pairs.
    by rewrite eventless_pairs. }
  pose proof (reached_total_nonneg _ _ _ _ _ _ _ _ _ Hreach Hv) as Hpos.
  split; [done|]. split; [|by apply purgeArena_total].
  intros c. pose proof (call_spec c w Hwf) as Hc.
  destruct (raises w c) eqn:Hr.
  { rewrite Hc. exists v. split; [done|]. split; [intros _; lia|].
    split; [done|]. intros ->. done. }
  destruct (call_stage c w n ty v Hwf Hv Hty Hr) as (w' & v' & -> & Hv' & Hstep).
  exists v'. split; [done|].
  pose proof (stageStep_total _ _ _ _ _ _ Hstep) as Ht.
  destruct c as [p m|p m e|m| |b].
  - split; [intros _; lia|]. split; [intros; lia|done].
  - destruct (_ && _) in Ht; (split; [intros _; lia|]); (split; [intros; lia|done]).
  - split; [intros _; lia|]. split; [intros; lia|done].
  - split; [done|]. destruct (enableLiveDebug (this w)); split; try done.
    intros; lia.
  - split; [intros _; lia|]. split; [intros; lia|done].
Qed.

Lemma C7_witness :
  let w0 := snd (constructor [StageName "render"] None (Some 2%Z) (Some true) false) in
  let cs := [CStart 1 "render"; CEnd 2 "render" None;
             CStart 3 "render"; CStart 4 "render"; CEnd 5 "render" None;
             CEnd 6 "render" None; CEnd 9 "paint" None] in
  let w := snd (run cs w0) in
  ∃ v, stageView "render" w = Some v ∧ vTotalCycles v = 2%Z.
Proof.
  intros w0 cs w.
  destruct (C7_lifetime_counter [StageName "render"] None (Some 2%Z) (Some true) false
              cs w "render") as (ty & v & Hty & Hv & _ & Htot & _).
  - exists w0. split; vm_compute; reflexivity.
  - vm_compute. left.
  - exists v. split; [exact Hv|].
    assert (ty = sync) as ->.
    { vm_compute in Hty. by injection Hty. }
    rewrite Htot.
    + vm_compute. reflexivity.
    + repeat constructor; discriminate.
    + repeat constructor.
Defined.

(** ** Stage names and [Object.prototype] *)

(** A list one of whose names is a property name of [Object.prototype]
    does not get through the duplicate test. *)
Lemma initializePerformanceData_inherited (sts : list Stage) (w : World) s :
  wf w → s ∈ sts → inherited (stageName s) = true →
  ∃ n w', initializePerformanceData sts false w = (Throw (DuplicateStage n), w').
Proof.
  unfold initializePerformanceData.
  revert w. induction sts as [|st sts IH]; intros w Hwf Hs Hi.
  - by apply elem_of_nil in Hs.
  - cbn [forEach]. rewrite bind_unfold.
    destruct (initializeStage_cases w false st (or_introl eq_refl))
      as [[e He]|[Hcl [?|Hnew]]]; [|done|].
    + destruct (inherited (stageName st)) eqn:Hist.
      { rewrite initializeStage_inherited by done. eauto. }
      destruct (records (this w) !! stageName st) as [l|] eqn:Hl.
      { rewrite initializeStage_duplicate by eauto. eauto. }
      destruct (initializeStage_spec w false st Hwf Hist (or_intror Hl)) as (w1 & H1 & _).
      congruence.
    + destruct (initializeStage_spec w false st Hwf Hcl (or_intror Hnew))
        as (w1 & -> & Hwf1 & _).
      apply elem_of_cons in Hs as [->|Hs]; [congruence|].
      by apply IH.
Qed.

(** A stage cannot bear the name of a property of [Object.prototype],
    [toString] or [constructor] for one: the duplicate test of the
    registration finds what the prototype holds under the name, and the
    constructor throws the duplicate-stage error although no name was
    given twice. *)
Theorem constructor_rejects_inherited_names
    (sts : list Stage) skip cap live cb (s : Stage) :
  s ∈ sts →
  inherited (stageName s) = true →
  ∃ n w', constructor sts skip cap live cb = (Throw (DuplicateStage n), w').
Proof.
  intros Hs Hi. unfold constructor.
  apply (initializePerformanceData_inherited sts _ s); [|done..].
  by apply wf_empty.
Qed.

Lemma constructor_rejects_inherited_names_witness :
  NoDup ["render"; "toString"]
  ∧ ∃ n w', constructor [StageName "render"; StageName "toString"] None None None false
            = (Throw (DuplicateStage n), w').
Proof.
  split; [repeat constructor; set_solver|].
  apply (constructor_rejects_inherited_names
           [StageName "render"; StageName "toString"] None None None false
           (StageName "toString")).
  - set_solver.
  - reflexivity.
Defined.
